(** * Music Stats Dashboard: event store, stats engine and Drive reconciliation

    A shallow embedding of the plugin's main-process code:
    - [StatsDatabase] (database.ts): the in-memory document and its
      whole-document export and import;
    - [StatsBackend] (the backend class): daily aggregation, listening streak,
      stats snapshot, OAuth access-token life cycle and one Google Drive
      reconciliation pass, with the module-level helpers [parseExport] and
      [mergeExports];
    - [Lifecycle] and [DriveHandlers]: the two timers of the backend, the
      start and stop of the plugin, and the status and disconnect handlers;
    - [base64UrlEncode], the encoding of the PKCE code verifier;
    and of the tracking part of the renderer:
    - [Tracker] (renderer.ts): the playback in progress and the records
      handed to the backend, with the seconds listened to added up in
      doubles.

    Conventions of the embedding.
    - A JavaScript [number] holding an epoch time, a count or a whole
      number of seconds is a [Z].  Where the code divides, or adds what it
      divided, the number is an IEEE 754 binary64 value ([Number.t], the
      [spec_float] of the Standard Library at precision 53): [Number.ofZ]
      takes an integer to its double, and sums, differences, products and
      quotients are rounded as the standard says.  [Math.round] and
      [Math.floor] are exact on the value of a finite double.  A number
      that is read back from a stored aggregate is the rational it stands
      for ([Q]).
    - An ISO calendar date ['YYYY-MM-DD'] is represented by its day index since
      1970-01-01 (UTC): [new Date(ts).toISOString().split('T')[0]] is the day
      index of [ts], and [new Date(date).getTime()] is that index times one
      day of milliseconds.  An ISO instant such as [cloudSyncLastSyncTime] is
      represented by its epoch milliseconds.
    - Optional properties are [option]s; JavaScript truthiness is written out
      ([truthy], [truthyZ]).
    - The JavaScript runtime (JSON, SHA-256, the local time zone) and the
      network are parameters: the code under study only calls them.  The
      clock is a parameter as well; one call of the backend reads one value
      of it, [now].  [JSON] gives the [JSON.stringify] and [JSON.parse] of
      the standard, to run export and import on a store.
    - A document is typed as [types.ts] declares it; what [JSON.parse] hands
      back is such a document with every top-level property optional. *)

From Stdlib Require Import ZArith QArith Qround String Ascii Sorted Permutation.
From Stdlib Require Import DecimalString DecimalPos DecimalZ Lqa.
From Stdlib Require Import Qpower SpecFloat.
From stdpp Require Import base option list strings gmap fin_maps.

Local Open Scope Z_scope.

(** ** JavaScript values used by the code *)

(** Truthiness of an optional string: [undefined] and [''] are falsy. *)
Definition truthy (s : option string) : bool :=
  match s with
  | Some v => negb (String.eqb v "")
  | None => false
  end.

(** Truthiness of an optional number: [undefined] and [0] are falsy. *)
Definition truthyZ (n : option Z) : bool :=
  match n with
  | Some v => negb (v =? 0)
  | None => false
  end.

(** [a || b] on optional strings. *)
Definition orElse (a b : option string) : option string :=
  if truthy a then a else b.

(** [s || ''] *)
Definition orEmpty (s : option string) : string :=
  match orElse s (Some ""%string) with
  | Some v => v
  | None => ""%string
  end.

(** *** Numbers that are not integers: IEEE 754 binary64 *)

Module Number.

Definition t : Type := spec_float.

(** The double of an integer: the integer itself up to 2^53, the nearest
    double beyond. *)
Definition ofZ (n : Z) : t := binary_normalize 53 1024 n 0 false.

Definition zero : t := ofZ 0.

(** [x + y], [x - y], [x * y] and [x / y], rounded to nearest, ties to even. *)
Definition add (x y : t) : t := SFadd 53 1024 x y.
Definition sub (x y : t) : t := SFsub 53 1024 x y.
Definition mul (x y : t) : t := SFmul 53 1024 x y.
Definition div (x y : t) : t := SFdiv 53 1024 x y.

Definition isFinite (x : t) : bool :=
  match x with
  | S754_zero _ | S754_finite _ _ _ => true
  | S754_infinity _ | S754_nan => false
  end.

(** The real number that a finite double stands for: mantissa times a power
    of two, in lowest terms. *)
Definition value (x : t) : Q :=
  match x with
  | S754_finite s m e =>
      Qred (inject_Z (if s then Z.neg m else Z.pos m) * 2 ^ e)
  | _ => 0
  end.

(** [x < y]: the order of the reals and of the two infinities; a comparison
    with [NaN] is false. *)
Definition lt (x y : t) : bool :=
  match x, y with
  | S754_nan, _ | _, S754_nan => false
  | S754_infinity sx, S754_infinity sy => sx && negb sy
  | S754_infinity sx, _ => sx
  | _, S754_infinity sy => negb sy
  | _, _ => negb (Qle_bool (value y) (value x))
  end.

(** [x >= y] *)
Definition ge (x y : t) : bool :=
  match x, y with
  | S754_nan, _ | _, S754_nan => false
  | _, _ => negb (lt x y)
  end.

(** Truthiness: [0], [-0] and [NaN] are falsy. *)
Definition truthy (x : t) : bool :=
  match x with
  | S754_zero _ | S754_nan => false
  | S754_infinity _ | S754_finite _ _ _ => true
  end.

(** [m.get(k) || 0] *)
Definition orZero (o : option t) : t :=
  match o with
  | Some x => if truthy x then x else zero
  | None => zero
  end.

End Number.

(** [Math.round] and [Math.floor] of a finite double: the nearest integer
    with halves upwards, and the integer below.  The code applies them to
    sums of quotients of stored durations, which are finite; of a double
    that is not finite the functions of the runtime return the double
    itself, which no integer stands for, and these return 0. *)
Definition Math_round (x : Number.t) : Z := Qfloor (Number.value x + (1 # 2)).
Definition Math_floor (x : Number.t) : Z := Qfloor (Number.value x).

(** [Array.prototype.sort(cmp)]: the sort is stable.  [gt a b] tells whether
    the comparator is positive at [(a, b)], that is whether [a] has to come
    after [b]. *)
Section Sort.
Context {A : Type} (gt : A -> A -> bool).

Fixpoint insertBy (x : A) (l : list A) : list A :=
  match l with
  | [] => [x]
  | y :: l' => if gt x y then y :: insertBy x l' else x :: l
  end.

Definition sortBy (l : list A) : list A := foldr insertBy [] l.
End Sort.

(** ** Data model (types.ts) *)

Definition msPerDay : Z := 24 * 60 * 60 * 1000.

(** [new Date(ts).toISOString().split('T')[0]] *)
Definition isoDate (ts : Z) : Z := ts / msPerDay.

(** [new Date(date).getTime()] for a date-only ISO string (UTC midnight). *)
Definition dateTime (date : Z) : Z := date * msPerDay.

(** The [totalDuration] of a record.  The renderer stores
    [Math.floor(video.duration || 0)]: a whole number of seconds, or
    [Infinity] where the duration of the video is infinite, as it is for a
    live stream.  [null] is what [JSON.stringify] writes for [Infinity], and
    so what a record holds after a round trip through JSON. *)
Inductive Duration :=
| Seconds (n : Z)
| Infinity
| Null.

Coercion Seconds : Z >-> Duration.

(** The number that arithmetic and comparisons take a duration for. *)
Definition Duration_toNumber (d : Duration) : Number.t :=
  match d with
  | Seconds n => Number.ofZ n
  | Infinity => S754_infinity false
  | Null => Number.zero
  end.

Record PlayRecord := {
  recordId : option Z;
  songId : string;
  songTitle : string;
  artistId : string;
  artistName : string;
  artistImageUrl : option string;
  albumName : option string;
  thumbnailUrl : option string;
  timestamp : Z;
  durationListened : Z;
  totalDuration : Duration;
  skipped : bool;
  completed : bool
}.

Record TopSong := { ts_id : string; ts_title : string; ts_plays : Z }.
Record TopArtist := { ta_id : string; ta_name : string; ta_plays : Z }.

Record DailyAggregate := {
  da_date : Z;
  da_totalMinutes : Q;
  da_songsPlayed : Z;
  da_uniqueSongs : Z;
  da_uniqueArtists : Z;
  da_topSongs : list TopSong;
  da_topArtists : list TopArtist;
  da_genreBreakdown : list (string * Q);
  da_hourlyBreakdown : list Z;
  da_skipCount : Z
}.

Record MonthlyTopSong :=
  { mts_id : string; mts_title : string; mts_artist : string; mts_plays : Z }.
Record MonthlyTopArtist :=
  { mta_id : string; mta_name : string; mta_minutes : Q }.

Record MonthlyAggregate := {
  ma_yearMonth : string;
  ma_totalMinutes : Q;
  ma_topSongs : list MonthlyTopSong;
  ma_topArtists : list MonthlyTopArtist;
  ma_genreBreakdown : list (string * Q);
  ma_daysActive : Z
}.

Record Streak := { lastListenDate : Z; currentStreak : Z }.

(** The persisted document (interface [DatabaseSchema]). *)
Record DatabaseSchema := {
  playRecords : list PlayRecord;
  dailyAggregates : gmap Z DailyAggregate;
  monthlyAggregates : gmap string MonthlyAggregate;
  streak : option Streak
}.

Definition emptySchema : DatabaseSchema :=
  {| playRecords := []; dailyAggregates := ∅; monthlyAggregates := ∅;
     streak := None |}.

(** The export wire format: the document plus [version] and [exportDate]. *)
Record ExportBundle := {
  eb_version : Z;
  eb_exportDate : Z;
  eb_data : DatabaseSchema
}.

(** What [JSON.parse] hands back for an export: every top-level property may
    be missing; [null] and a falsy [streak] read as [None]. *)
Record Parsed := {
  p_version : option Z;
  p_exportDate : option Z;
  p_playRecords : option (list PlayRecord);
  p_dailyAggregates : option (gmap Z DailyAggregate);
  p_monthlyAggregates : option (gmap string MonthlyAggregate);
  p_streak : option Streak
}.

Inductive ParseResult :=
| SyntaxError (message : string)   (* [JSON.parse] throws *)
| ParsedNull                       (* the text is the JSON value [null] *)
| ParsedValue (p : Parsed).

(** The object a well-formed bundle parses back to. *)
Definition parsedOfBundle (b : ExportBundle) : Parsed :=
  {| p_version := Some (eb_version b);
     p_exportDate := Some (eb_exportDate b);
     p_playRecords := Some (playRecords (eb_data b));
     p_dailyAggregates := Some (dailyAggregates (eb_data b));
     p_monthlyAggregates := Some (monthlyAggregates (eb_data b));
     p_streak := streak (eb_data b) |}.

(** Outcome of a call that may throw. *)
Inductive Outcome (A : Type) :=
| Returned (a : A)
| Thrown (message : string).
Arguments Returned {A} a.
Arguments Thrown {A} message.

(** ** StatsDatabase (database.ts) *)

Module StatsDatabase.

Record t := { data : DatabaseSchema; isDirty : bool }.

Definition create : t := {| data := emptySchema; isDirty := false |}.

Definition markDirty (db : t) : t := {| data := data db; isDirty := true |}.

(** [save]: the write to disk may fail; the error is logged and the dirty
    flag stays set.  [written] is the outcome of the write. *)
Definition save (written : bool) (db : t) : t :=
  if written then {| data := data db; isDirty := false |} else db.

Definition addPlayRecord (record : PlayRecord) (db : t) : t :=
  let d := data db in
  let stored :=
    {| recordId := Some (Z.of_nat (length (playRecords d)) + 1);
       songId := songId record; songTitle := songTitle record;
       artistId := artistId record; artistName := artistName record;
       artistImageUrl := artistImageUrl record;
       albumName := albumName record; thumbnailUrl := thumbnailUrl record;
       timestamp := timestamp record;
       durationListened := durationListened record;
       totalDuration := totalDuration record;
       skipped := skipped record; completed := completed record |} in
  markDirty
    {| data := {| playRecords := playRecords d ++ [stored];
                  dailyAggregates := dailyAggregates d;
                  monthlyAggregates := monthlyAggregates d;
                  streak := streak d |};
       isDirty := isDirty db |}.

(** Newest first: the comparator is [b.timestamp - a.timestamp]. *)
Definition newerFirst (a b : PlayRecord) : bool :=
  0 <? timestamp b - timestamp a.

Definition getPlayRecords (startDate endDate : option Z) (db : t)
  : list PlayRecord :=
  let records := playRecords (data db) in
  let records :=
    if truthyZ startDate && truthyZ endDate then
      filter (fun r => bool_decide
                (default 0 startDate <= timestamp r
                 /\ timestamp r <= default 0 endDate)) records
    else if truthyZ startDate then
      filter (fun r => bool_decide (default 0 startDate <= timestamp r))
             records
    else records in
  sortBy newerFirst records.

Definition saveDailyAggregate (date : Z) (agg : DailyAggregate) (db : t) : t :=
  let d := data db in
  markDirty
    {| data := {| playRecords := playRecords d;
                  dailyAggregates := <[date := agg]> (dailyAggregates d);
                  monthlyAggregates := monthlyAggregates d;
                  streak := streak d |};
       isDirty := isDirty db |}.

Definition getDailyAggregate (date : Z) (db : t) : option DailyAggregate :=
  dailyAggregates (data db) !! date.

Definition updateStreak (date : Z) (count : Z) (db : t) : t :=
  let d := data db in
  markDirty
    {| data := {| playRecords := playRecords d;
                  dailyAggregates := dailyAggregates d;
                  monthlyAggregates := monthlyAggregates d;
                  streak := Some {| lastListenDate := date;
                                    currentStreak := count |} |};
       isDirty := isDirty db |}.

Definition getStreak (db : t) : option Streak := streak (data db).

Section Json.
(** [JSON.stringify(bundle, null, 2)] and [JSON.parse]. *)
Variable JSON_stringify : ExportBundle -> string.
Variable JSON_parse : string -> ParseResult.

(** [{ version: 1, exportDate: Date.now(), ...this.data }] *)
Definition exportData (now : Z) (db : t) : string :=
  JSON_stringify
    {| eb_version := 1; eb_exportDate := now; eb_data := data db |}.

(** [importData] has no handler around [JSON.parse]: a syntax error, or
    the property read on [null], propagates to the caller and the
    document is left as it was. *)
Definition importData (written : bool) (jsonData : string) (db : t)
  : Outcome unit * t :=
  match JSON_parse jsonData with
  | SyntaxError msg => (Thrown msg, db)
  | ParsedNull =>
      (Thrown "Cannot read properties of null (reading 'playRecords')", db)
  | ParsedValue imported =>
      (Returned tt,
       save written
         (markDirty
            {| data :=
                 {| playRecords := default [] (p_playRecords imported);
                    dailyAggregates :=
                      default ∅ (p_dailyAggregates imported);
                    monthlyAggregates :=
                      default ∅ (p_monthlyAggregates imported);
                    streak := p_streak imported |};
               isDirty := isDirty db |}))
  end.
End Json.

End StatsDatabase.


(** ** [Map]: insertion-ordered, as its iteration order decides sort ties *)

Section JsMap.
Context {K V : Type} `{EqDecision K}.

Fixpoint Map_get (k : K) (m : list (K * V)) : option V :=
  match m with
  | [] => None
  | (k', v) :: m' => if decide (k' = k) then Some v else Map_get k m'
  end.

(** [set] overwrites in place or appends. *)
Fixpoint Map_set (k : K) (v : V) (m : list (K * V)) : list (K * V) :=
  match m with
  | [] => [(k, v)]
  | (k', v') :: m' =>
      if decide (k' = k) then (k, v) :: m' else (k', v') :: Map_set k v m'
  end.

Definition Map_has (k : K) (m : list (K * V)) : bool :=
  match Map_get k m with Some _ => true | None => false end.
End JsMap.

(** [m.set(k, (m.get(k) || 0) + d)] on a map of counters. *)
Definition bumpZ {K} `{EqDecision K} (k : K) (d : Z) (m : list (K * Z))
  : list (K * Z) :=
  Map_set k (default 0 (Map_get k m) + d) m.

Definition bumpN {K} `{EqDecision K} (k : K) (d : Number.t)
  (m : list (K * Number.t)) : list (K * Number.t) :=
  Map_set k (Number.add (Number.orZero (Map_get k m)) d) m.

(** [record.durationListened / 60] *)
Definition minutesOf (r : PlayRecord) : Number.t :=
  Number.div (Number.ofZ (durationListened r)) (Number.ofZ 60).

(** The comparator [b[1] - a[1]] is positive. *)
Definition byCountDesc {K} (a b : K * Z) : bool := 0 <? b.2 - a.2.
Definition byMinutesDesc {K} (a b : K * Number.t) : bool :=
  Number.lt Number.zero (Number.sub b.2 a.2).

(** [/^[a-zA-Z0-9_-]{11}$/.test(id)] *)
Definition isIdChar (c : ascii) : bool :=
  let n := nat_of_ascii c in
  ((97 <=? n) && (n <=? 122) || (65 <=? n) && (n <=? 90)
   || (48 <=? n) && (n <=? 57) || (n =? 95) || (n =? 45))%nat.

Definition isVideoId (id : string) : bool :=
  (String.length id =? 11)%nat && forallb isIdChar (list_ascii_of_string id).

(** ** Stats snapshot returned by [computeStats] (interface [StatsData]) *)

Record SongEntry := {
  se_title : string; se_artist : string; se_plays : Z;
  se_minutes : Number.t;
  se_imageUrl : option string
}.

Record ArtistEntry := {
  ae_name : string; ae_plays : Z; ae_minutes : Number.t;
  ae_imageUrl : option string
}.

Record SkipEntry := {
  sk_title : string; sk_artist : string; sk_skips : Z; sk_plays : Z;
  sk_imageUrl : option string
}.

Record StatSong := {
  ss_id : string; ss_title : string; ss_artist : string; ss_plays : Z;
  ss_minutes : Z; ss_imageUrl : option string
}.

Record StatArtist := {
  sa_id : string; sa_name : string; sa_plays : Z; sa_minutes : Z;
  sa_imageUrl : option string
}.

Record Anthem := {
  an_id : string; an_title : string; an_artist : string; an_plays : Z
}.

Record FirstSong := { fs_title : string; fs_artist : string; fs_date : Z }.

Record Obsession := {
  ob_yearMonth : string; ob_artist : string; ob_minutes : Z
}.

Record SkipStat := {
  st_songId : string; st_title : string; st_artist : string; st_skips : Z;
  st_plays : Z; st_imageUrl : option string
}.

Record StatsData := {
  totalMinutes : Z;
  totalSongs : Z;
  topSongs : list StatSong;
  topArtists : list StatArtist;
  anthem : option Anthem;
  peakListeningDay : option (Z * Z);
  listeningClock : list Z;
  sd_currentStreak : Z;
  firstSongEver : option FirstSong;
  firstSongThisYear : option FirstSong;
  firstSongThisMonth : option FirstSong;
  monthlyObsessions : list Obsession;
  skipStats : list SkipStat;
  skipRate : Z
}.

(** The accumulators of the single pass of [computeStats] over the records. *)
Record Tallies := {
  songPlayMap : list (string * SongEntry);
  artistPlayMap : list (string * ArtistEntry);
  clock : list Number.t;
  dailyMap : list (Z * Number.t);
  monthlyArtists : list (string * list (string * Number.t));
  skipMap : list (string * SkipEntry)
}.

(** ** StatsBackend: aggregation, streak and stats snapshot *)

Module StatsBackend.

Section Stats.
(** [new Date(ts).getHours()], [toISOString().slice(0, 7)],
    [getFullYear()] and [String.prototype.localeCompare]: they depend on the
    time zone and the locale of the machine. *)
Variable getHours : Z -> nat.
Variable isoMonth : Z -> string.
Variable getFullYear : Z -> Z.
Variable localeCompare : string -> string -> Z.

(** *** aggregateDailyStats *)

Definition titleOf (records : list PlayRecord) (id : string) : string :=
  match List.find (fun r => bool_decide (songId r = id)) records with
  | Some record => songTitle record
  | None => ""      (* not reached: [id] is the [songId] of a record *)
  end.

Definition nameOf (records : list PlayRecord) (id : string) : string :=
  match List.find (fun r => bool_decide (artistId r = id)) records with
  | Some record => artistName record
  | None => ""      (* not reached: [id] is the [artistId] of a record *)
  end.

(** The aggregate written for [today] from the records of the day.
    [getHours] answers below 24, so the increment of [hourlyMap[hour]] always
    finds its slot. *)
Definition dailyAggregateOf (today : Z) (records : list PlayRecord)
  : DailyAggregate :=
  let songMap := foldl (fun m r => bumpZ (songId r) 1 m) [] records in
  let artistMap := foldl (fun m r => bumpZ (artistId r) 1 m) [] records in
  let hourlyMap :=
    foldl (fun h r => alter (fun n => n + 1) (getHours (timestamp r)) h)
          (replicate 24 0) records in
  let skipCount :=
    foldl (fun n r => if skipped r then n + 1 else n) 0 records in
  let totalMinutes :=
    foldl (fun sum r => Number.add sum (minutesOf r)) Number.zero records in
  let topSongs :=
    (fun e => {| ts_id := e.1; ts_title := titleOf records e.1;
                 ts_plays := e.2 |})
      <$> take 10 (sortBy byCountDesc songMap) in
  let topArtists :=
    (fun e => {| ta_id := e.1; ta_name := nameOf records e.1;
                 ta_plays := e.2 |})
      <$> take 10 (sortBy byCountDesc artistMap) in
  {| da_date := today;
     da_totalMinutes :=
       Number.value
         (Number.div
            (Number.ofZ (Math_round (Number.mul totalMinutes (Number.ofZ 10))))
            (Number.ofZ 10));
     da_songsPlayed := Z.of_nat (length records);
     da_uniqueSongs :=
       Z.of_nat (size (list_to_set (songId <$> records) : gset string));
     da_uniqueArtists :=
       Z.of_nat (size (list_to_set (artistId <$> records) : gset string));
     da_topSongs := topSongs;
     da_topArtists := topArtists;
     da_genreBreakdown := [];
     da_hourlyBreakdown := hourlyMap;
     da_skipCount := skipCount |}.

(** The records of the current UTC day. *)
Definition recordsOfToday (now : Z) (db : StatsDatabase.t) : list PlayRecord :=
  let today := isoDate now in
  let startOfDay := dateTime today in
  let endOfDay := startOfDay + 24 * 60 * 60 * 1000 - 1 in
  StatsDatabase.getPlayRecords (Some startOfDay) (Some endOfDay) db.

Definition aggregateDailyStats (now : Z) (db : option StatsDatabase.t)
  : option StatsDatabase.t :=
  match db with
  | None => None
  | Some d =>
      let today := isoDate now in
      let records := recordsOfToday now d in
      if (length records =? 0)%nat then Some d
      else Some (StatsDatabase.saveDailyAggregate
                   today (dailyAggregateOf today records) d)
  end.

(** *** updateStreak *)

Definition diffDays (today lastListen : Z) : Z :=
  (dateTime today - dateTime lastListen) / (24 * 60 * 60 * 1000).

Definition updateStreak (timestamp : Z) (db : option StatsDatabase.t)
  : option StatsDatabase.t :=
  match db with
  | None => None
  | Some d =>
      let today := isoDate timestamp in
      match StatsDatabase.getStreak d with
      | None => Some (StatsDatabase.updateStreak today 1 d)
      | Some streakData =>
          let diff := diffDays today (lastListenDate streakData) in
          if diff =? 1 then
            Some (StatsDatabase.updateStreak
                    today (currentStreak streakData + 1) d)
          else if 1 <? diff then Some (StatsDatabase.updateStreak today 1 d)
          else Some d
      end
  end.

(** The handler of [music-stats:add-play-record]. *)
Definition addRecord (record : PlayRecord) (db : option StatsDatabase.t)
  : option StatsDatabase.t :=
  match db with
  | None => None
  | Some d =>
      updateStreak (timestamp record)
                   (Some (StatsDatabase.addPlayRecord record d))
  end.

(** *** computeStats *)

Definition isQualifiedPlay (record : PlayRecord) : bool :=
  30 <=? durationListened record.

(** [if (!e.imageUrl && url) e.imageUrl = url] *)
Definition keepFirstImage (current url : option string) : option string :=
  if negb (truthy current) && truthy url then url else current.

Definition songStep (m : list (string * SongEntry)) (record : PlayRecord)
  : list (string * SongEntry) :=
  let qualifiedPlay := isQualifiedPlay record in
  match Map_get (songId record) m with
  | Some sExisting =>
      Map_set (songId record)
        {| se_title := se_title sExisting;
           se_artist := se_artist sExisting;
           se_plays := if qualifiedPlay then se_plays sExisting + 1
                       else se_plays sExisting;
           se_minutes := Number.add (se_minutes sExisting) (minutesOf record);
           se_imageUrl :=
             keepFirstImage (se_imageUrl sExisting) (thumbnailUrl record) |}
        m
  | None =>
      Map_set (songId record)
        {| se_title := songTitle record;
           se_artist := artistName record;
           se_plays := if qualifiedPlay then 1 else 0;
           se_minutes := minutesOf record;
           se_imageUrl := thumbnailUrl record |}
        m
  end.

Definition artistStep (m : list (string * ArtistEntry)) (record : PlayRecord)
  : list (string * ArtistEntry) :=
  let qualifiedPlay := isQualifiedPlay record in
  match Map_get (artistId record) m with
  | Some aExisting =>
      Map_set (artistId record)
        {| ae_name := ae_name aExisting;
           ae_plays := if qualifiedPlay then ae_plays aExisting + 1
                       else ae_plays aExisting;
           ae_minutes := Number.add (ae_minutes aExisting) (minutesOf record);
           ae_imageUrl :=
             keepFirstImage (ae_imageUrl aExisting) (artistImageUrl record) |}
        m
  | None =>
      Map_set (artistId record)
        {| ae_name := artistName record;
           ae_plays := if qualifiedPlay then 1 else 0;
           ae_minutes := minutesOf record;
           ae_imageUrl := artistImageUrl record |}
        m
  end.

Definition clockStep (c : list Number.t) (record : PlayRecord)
  : list Number.t :=
  alter (fun m => Number.add m (minutesOf record))
        (getHours (timestamp record)) c.

Definition dailyStep (m : list (Z * Number.t)) (record : PlayRecord)
  : list (Z * Number.t) :=
  bumpN (isoDate (timestamp record)) (minutesOf record) m.

Definition monthlyStep (m : list (string * list (string * Number.t)))
  (record : PlayRecord) : list (string * list (string * Number.t)) :=
  let yearMonth := isoMonth (timestamp record) in
  let m := if Map_has yearMonth m then m else Map_set yearMonth [] m in
  let monthMap := default [] (Map_get yearMonth m) in
  Map_set yearMonth (bumpN (artistId record) (minutesOf record) monthMap) m.

Definition skipStep (m : list (string * SkipEntry)) (record : PlayRecord)
  : list (string * SkipEntry) :=
  let qualifiedPlay := isQualifiedPlay record in
  match Map_get (songId record) m with
  | Some skipExisting =>
      Map_set (songId record)
        {| sk_title := sk_title skipExisting;
           sk_artist := sk_artist skipExisting;
           sk_skips := if skipped record then sk_skips skipExisting + 1
                       else sk_skips skipExisting;
           sk_plays := if qualifiedPlay then sk_plays skipExisting + 1
                       else sk_plays skipExisting;
           sk_imageUrl :=
             keepFirstImage (sk_imageUrl skipExisting) (thumbnailUrl record) |}
        m
  | None =>
      Map_set (songId record)
        {| sk_title := songTitle record;
           sk_artist := artistName record;
           sk_skips := if skipped record then 1 else 0;
           sk_plays := if qualifiedPlay then 1 else 0;
           sk_imageUrl := thumbnailUrl record |}
        m
  end.

(** One iteration of [for (const record of allRecords)]. *)
Definition tallyStep (t : Tallies) (record : PlayRecord) : Tallies :=
  {| songPlayMap := songStep (songPlayMap t) record;
     artistPlayMap := artistStep (artistPlayMap t) record;
     clock := clockStep (clock t) record;
     dailyMap := dailyStep (dailyMap t) record;
     monthlyArtists := monthlyStep (monthlyArtists t) record;
     skipMap := skipStep (skipMap t) record |}.

Definition emptyTallies : Tallies :=
  {| songPlayMap := []; artistPlayMap := [];
     clock := replicate 24 Number.zero;
     dailyMap := []; monthlyArtists := []; skipMap := [] |}.

Definition tally (allRecords : list PlayRecord) : Tallies :=
  foldl tallyStep emptyTallies allRecords.

Definition coverUrl (id : string) (imageUrl : option string)
  : option string :=
  if truthy imageUrl then imageUrl
  else if isVideoId id
       then Some ("https://i.ytimg.com/vi/" ++ id ++ "/hqdefault.jpg")%string
       else None.

Definition bySongPlaysDesc (a b : string * SongEntry) : bool :=
  0 <? se_plays b.2 - se_plays a.2.

Definition byArtistMinutesDesc (a b : string * ArtistEntry) : bool :=
  Number.lt Number.zero (Number.sub (ae_minutes b.2) (ae_minutes a.2)).

Definition bySkipsDesc (a b : string * SkipEntry) : bool :=
  0 <? sk_skips b.2 - sk_skips a.2.

Definition oldestFirst (a b : PlayRecord) : bool :=
  0 <? timestamp a - timestamp b.

Definition byYearMonth (a b : Obsession) : bool :=
  0 <? localeCompare (ob_yearMonth a) (ob_yearMonth b).

(** [for (const [date, minutes] of dailyMap) if (minutes > maxMinutes) ...] *)
Definition peakStep (acc : option (Z * Z) * Number.t) (e : Z * Number.t)
  : option (Z * Z) * Number.t :=
  if Number.lt acc.2 e.2 then (Some (e.1, Math_round e.2), e.2)
  else acc.

Definition obsessionOf (allRecords : list PlayRecord)
  (e : string * list (string * Number.t)) : Obsession :=
  (* a month's map holds at least the artist that created it *)
  let topArtist :=
    default (""%string, Number.zero) (head (sortBy byMinutesDesc e.2)) in
  let artistName :=
    match List.find (fun r => bool_decide (artistId r = topArtist.1))
                    allRecords with
    | Some r => if truthy (Some (artistName r)) then artistName r
                else "Unknown"%string
    | None => "Unknown"%string
    end in
  {| ob_yearMonth := e.1; ob_artist := artistName;
     ob_minutes := Math_round topArtist.2 |}.

Definition firstSongOf (r : PlayRecord) : FirstSong :=
  {| fs_title := songTitle r; fs_artist := artistName r;
     fs_date := isoDate (timestamp r) |}.

Definition computeStats (now : Z) (db : option StatsDatabase.t)
  : Outcome StatsData :=
  match db with
  | None => Thrown "DB not initialized"
  | Some d =>
      let allRecords := StatsDatabase.getPlayRecords None None d in
      let totalMinutes :=
        Math_round
          (foldl (fun sum r => Number.add sum (minutesOf r)) Number.zero
                 allRecords) in
      let totalSongs := Z.of_nat (length (filter isQualifiedPlay allRecords)) in
      let t := tally allRecords in
      let topSongs :=
        (fun e => {| ss_id := e.1; ss_title := se_title e.2;
                     ss_artist := se_artist e.2; ss_plays := se_plays e.2;
                     ss_minutes := Math_round (se_minutes e.2);
                     ss_imageUrl := coverUrl e.1 (se_imageUrl e.2) |})
          <$> take 5 (sortBy bySongPlaysDesc (songPlayMap t)) in
      let topArtists :=
        (fun e => {| sa_id := e.1; sa_name := ae_name e.2;
                     sa_plays := ae_plays e.2;
                     sa_minutes := Math_round (ae_minutes e.2);
                     sa_imageUrl := ae_imageUrl e.2 |})
          <$> take 5 (sortBy byArtistMinutesDesc (artistPlayMap t)) in
      let peakListeningDay :=
        (foldl peakStep (None, Number.zero) (dailyMap t)).1 in
      let monthlyObsessions :=
        sortBy byYearMonth (obsessionOf allRecords <$> monthlyArtists t) in
      let skipStats :=
        (fun e => {| st_songId := e.1; st_title := sk_title e.2;
                     st_artist := sk_artist e.2; st_skips := sk_skips e.2;
                     st_plays := sk_plays e.2;
                     st_imageUrl := sk_imageUrl e.2 |})
          <$> take 10 (sortBy bySkipsDesc
                         (filter (fun e => bool_decide (0 < sk_skips e.2))
                                 (skipMap t))) in
      let sortedRecords := sortBy oldestFirst allRecords in
      let streakData := StatsDatabase.getStreak d in
      let currentYear := getFullYear now in
      let firstThisYear :=
        List.find (fun r => getFullYear (timestamp r) =? currentYear)
                  sortedRecords in
      let totalSkips := Z.of_nat (length (filter skipped allRecords)) in
      let skipRate :=
        Z.min 100
          (Math_round
             (Number.mul
                (Number.div
                   (Number.ofZ totalSkips)
                   (Number.ofZ (Z.max 1 (Z.of_nat (length allRecords)))))
                (Number.ofZ 100))) in
      Returned
        {| totalMinutes := totalMinutes;
           totalSongs := totalSongs;
           topSongs := topSongs;
           topArtists := topArtists;
           anthem :=
             (fun s => {| an_id := ss_id s; an_title := ss_title s;
                          an_artist := ss_artist s; an_plays := ss_plays s |})
               <$> head topSongs;
           peakListeningDay := peakListeningDay;
           listeningClock := Math_round <$> clock t;
           sd_currentStreak :=
             match streakData with
             | Some s => currentStreak s
             | None => 0
             end;
           firstSongEver := firstSongOf <$> head sortedRecords;
           firstSongThisYear := firstSongOf <$> firstThisYear;
           firstSongThisMonth := None;
           monthlyObsessions := monthlyObsessions;
           skipStats := skipStats;
           skipRate := skipRate |}
  end.

End Stats.

(** ** Configuration, network and backend state *)

Record StatsConfig := {
  enabled : bool;
  trackingStartDate : string;
  cloudSyncEnabled : bool;
  cloudSyncClientId : option string;
  cloudSyncClientSecret : option string;
  cloudSyncRefreshToken : option string;
  cloudSyncAccessToken : option string;
  cloudSyncAccessTokenExpiry : option Z;
  cloudSyncFileId : option string;
  cloudSyncLastSyncTime : option Z;
  cloudSyncLastHash : option string;
  cloudSyncLastError : option string
}.

(** The requests the backend sends with [net.fetch].  The multipart framing
    of the two upload requests is left out: a request is recorded by its
    method, its target and the content it carries. *)
Inductive Request :=
| TokenRefresh (client_id client_secret refresh_token : string)
| DriveList (accessToken : string)
| DriveDownload (accessToken fileId : string)
| DriveCreate (accessToken content : string)
| DriveUpdate (accessToken fileId content : string).

(** The properties of a JSON response body that the code reads. *)
Record JsonBody := {
  access_token : option string;
  expires_in : option Z;
  files0_id : option string;      (* [json?.files?.[0]?.id] *)
  created_id : option string      (* [json.id] *)
}.

Record Response := {
  resp_ok : bool;
  resp_text : Outcome string;     (* [response.text()] *)
  resp_json : Outcome JsonBody    (* [response.json()] *)
}.

Record SyncResult := { ok : bool; message : string }.

(** The backend instance together with the host's configuration store
    (behind [getConfig]/[setConfig]) and the journal of requests sent. *)
Record t := {
  db : option StatsDatabase.t;
  isSyncing : bool;
  sessionAccessToken : option string;
  sessionAccessTokenExpiry : Z;
  sessionRefreshToken : option string;
  store : StatsConfig;
  journal : list Request
}.

(** *** [setConfig] patches *)

(** [{ cloudSyncAccessToken, cloudSyncAccessTokenExpiry, cloudSyncLastError: '' }] *)
Definition patchToken (accessToken : string) (expiry : Z) (c : StatsConfig)
  : StatsConfig :=
  {| enabled := enabled c; trackingStartDate := trackingStartDate c;
     cloudSyncEnabled := cloudSyncEnabled c;
     cloudSyncClientId := cloudSyncClientId c;
     cloudSyncClientSecret := cloudSyncClientSecret c;
     cloudSyncRefreshToken := cloudSyncRefreshToken c;
     cloudSyncAccessToken := Some accessToken;
     cloudSyncAccessTokenExpiry := Some expiry;
     cloudSyncFileId := cloudSyncFileId c;
     cloudSyncLastSyncTime := cloudSyncLastSyncTime c;
     cloudSyncLastHash := cloudSyncLastHash c;
     cloudSyncLastError := Some ""%string |}.

(** [{ cloudSyncLastSyncTime: new Date().toISOString(), cloudSyncLastHash,
       cloudSyncLastError: '' }] *)
Definition patchSynced (now : Z) (hash : string) (c : StatsConfig)
  : StatsConfig :=
  {| enabled := enabled c; trackingStartDate := trackingStartDate c;
     cloudSyncEnabled := cloudSyncEnabled c;
     cloudSyncClientId := cloudSyncClientId c;
     cloudSyncClientSecret := cloudSyncClientSecret c;
     cloudSyncRefreshToken := cloudSyncRefreshToken c;
     cloudSyncAccessToken := cloudSyncAccessToken c;
     cloudSyncAccessTokenExpiry := cloudSyncAccessTokenExpiry c;
     cloudSyncFileId := cloudSyncFileId c;
     cloudSyncLastSyncTime := Some now;
     cloudSyncLastHash := Some hash;
     cloudSyncLastError := Some ""%string |}.

(** The patch of the create branch, which also sets [cloudSyncFileId]. *)
Definition patchCreated (fileId : option string) (now : Z) (hash : string)
  (c : StatsConfig) : StatsConfig :=
  {| enabled := enabled c; trackingStartDate := trackingStartDate c;
     cloudSyncEnabled := cloudSyncEnabled c;
     cloudSyncClientId := cloudSyncClientId c;
     cloudSyncClientSecret := cloudSyncClientSecret c;
     cloudSyncRefreshToken := cloudSyncRefreshToken c;
     cloudSyncAccessToken := cloudSyncAccessToken c;
     cloudSyncAccessTokenExpiry := cloudSyncAccessTokenExpiry c;
     cloudSyncFileId := fileId;
     cloudSyncLastSyncTime := Some now;
     cloudSyncLastHash := Some hash;
     cloudSyncLastError := Some ""%string |}.

(** [{ cloudSyncLastError: message }] *)
Definition patchError (msg : string) (c : StatsConfig) : StatsConfig :=
  {| enabled := enabled c; trackingStartDate := trackingStartDate c;
     cloudSyncEnabled := cloudSyncEnabled c;
     cloudSyncClientId := cloudSyncClientId c;
     cloudSyncClientSecret := cloudSyncClientSecret c;
     cloudSyncRefreshToken := cloudSyncRefreshToken c;
     cloudSyncAccessToken := cloudSyncAccessToken c;
     cloudSyncAccessTokenExpiry := cloudSyncAccessTokenExpiry c;
     cloudSyncFileId := cloudSyncFileId c;
     cloudSyncLastSyncTime := cloudSyncLastSyncTime c;
     cloudSyncLastHash := cloudSyncLastHash c;
     cloudSyncLastError := Some msg |}.

(** *** A state and exception monad for the asynchronous methods *)

Definition M (A : Type) : Type := t -> Outcome A * t.

Definition ret {A} (a : A) : M A := fun st => (Returned a, st).

Definition throw {A} (msg : string) : M A := fun st => (Thrown msg, st).

Definition bind {A B} (m : M A) (k : A -> M B) : M B :=
  fun st =>
    match m st with
    | (Returned a, st') => k a st'
    | (Thrown msg, st') => (Thrown msg, st')
    end.

Notation "x <- m ;; k" := (bind m (fun x => k))
  (at level 100, m at next level, right associativity).
Notation "m ;;; k" := (bind m (fun _ => k))
  (at level 100, right associativity).

(** [try { body } catch (error) { handler(error.message) }] *)
Definition tryCatch {A} (body : M A) (handler : string -> M A) : M A :=
  fun st =>
    match body st with
    | (Returned a, st') => (Returned a, st')
    | (Thrown msg, st') => handler msg st'
    end.

(** [try { body } finally { this.isSyncing = false }] *)
Definition finallyIdle {A} (body : M A) : M A :=
  fun st =>
    let '(r, st') := body st in
    (r, {| db := db st'; isSyncing := false;
           sessionAccessToken := sessionAccessToken st';
           sessionAccessTokenExpiry := sessionAccessTokenExpiry st';
           sessionRefreshToken := sessionRefreshToken st';
           store := store st'; journal := journal st' |}).

Definition setSyncing (b : bool) : M unit :=
  fun st =>
    (Returned tt,
     {| db := db st; isSyncing := b;
        sessionAccessToken := sessionAccessToken st;
        sessionAccessTokenExpiry := sessionAccessTokenExpiry st;
        sessionRefreshToken := sessionRefreshToken st;
        store := store st; journal := journal st |}).

Definition setConfig (patch : StatsConfig -> StatsConfig) : M unit :=
  fun st =>
    (Returned tt,
     {| db := db st; isSyncing := isSyncing st;
        sessionAccessToken := sessionAccessToken st;
        sessionAccessTokenExpiry := sessionAccessTokenExpiry st;
        sessionRefreshToken := sessionRefreshToken st;
        store := patch (store st); journal := journal st |}).

Definition setSession (accessToken : string) (expiry : Z) : M unit :=
  fun st =>
    (Returned tt,
     {| db := db st; isSyncing := isSyncing st;
        sessionAccessToken := Some accessToken;
        sessionAccessTokenExpiry := expiry;
        sessionRefreshToken := sessionRefreshToken st;
        store := store st; journal := journal st |}).

Definition setDb (d : StatsDatabase.t) : M unit :=
  fun st =>
    (Returned tt,
     {| db := Some d; isSyncing := isSyncing st;
        sessionAccessToken := sessionAccessToken st;
        sessionAccessTokenExpiry := sessionAccessTokenExpiry st;
        sessionRefreshToken := sessionRefreshToken st;
        store := store st; journal := journal st |}).

(** [await net.fetch(...)]: the request is sent (journalled) and the network
    answers; a rejected fetch throws. *)
Definition fetch (net : Request -> Outcome Response) (rq : Request)
  : M Response :=
  fun st =>
    (net rq,
     {| db := db st; isSyncing := isSyncing st;
        sessionAccessToken := sessionAccessToken st;
        sessionAccessTokenExpiry := sessionAccessTokenExpiry st;
        sessionRefreshToken := sessionRefreshToken st;
        store := store st; journal := journal st ++ [rq] |}).

Definition await {A} (o : Outcome A) : M A := fun st => (o, st).

(** [String.prototype.trim], on the ASCII white space. *)
Definition isSpace (c : ascii) : bool :=
  let n := nat_of_ascii c in
  ((n =? 32) || ((9 <=? n) && (n <=? 13)))%nat.

Fixpoint trimStart (s : string) : string :=
  match s with
  | String c s' => if isSpace c then trimStart s' else s
  | EmptyString => EmptyString
  end.

Fixpoint trimEnd (s : string) : string :=
  match s with
  | String c s' =>
      match trimEnd s' with
      | EmptyString => if isSpace c then EmptyString else String c EmptyString
      | rest => String c rest
      end
  | EmptyString => EmptyString
  end.

Definition trim (s : string) : string := trimEnd (trimStart s).

(** [safeReadResponse]: at most 300 characters of the body, [''] when the
    body cannot be read. *)
Definition safeReadResponse (response : Response) : string :=
  match resp_text response with
  | Returned text => substring 0 300 text
  | Thrown _ => ""%string
  end.

(** *** parseExport and mergeExports *)

Record Export := { exportDate : Z; data : Parsed }.

(** The canonical empty schema of the [catch] branch. *)
Definition emptyParsed : Parsed :=
  {| p_version := None; p_exportDate := None;
     p_playRecords := Some []; p_dailyAggregates := Some ∅;
     p_monthlyAggregates := Some ∅; p_streak := None |}.

Section Runtime.
(** [JSON.stringify(value, null, 2)], [JSON.parse] and
    [crypto.createHash('sha256').update(value).digest('hex')]. *)
Variable JSON_stringify : ExportBundle -> string.
Variable JSON_parse : string -> ParseResult.
Variable sha256 : string -> string.

(** Reading [parsed.exportDate] on [null] throws inside the [try] block, so
    that text takes the [catch] branch as well. *)
Definition parseExport (jsonData : string) : Export :=
  match JSON_parse jsonData with
  | ParsedValue parsed =>
      {| exportDate := if truthyZ (p_exportDate parsed)
                       then default 0 (p_exportDate parsed) else 0;
         data := parsed |}
  | ParsedNull | SyntaxError _ =>
      {| exportDate := 0; data := emptyParsed |}
  end.

(** A number inside a template literal (integers print in decimal). *)
Definition numStr (n : Z) : string := NilZero.string_of_int (Z.to_int n).

Definition durationStr (d : Duration) : string :=
  match d with
  | Seconds n => numStr n
  | Infinity => "Infinity"
  | Null => "null"
  end.

(** [`${songId}|${artistId}|${timestamp}|${durationListened}|${totalDuration}`] *)
Definition recordKey (record : PlayRecord) : string :=
  (songId record ++ "|" ++ artistId record ++ "|"
   ++ numStr (timestamp record) ++ "|" ++ numStr (durationListened record)
   ++ "|" ++ durationStr (totalDuration record))%string.

(** [if (!recordMap.has(key)) recordMap.set(key, record)] *)
Definition recordStep (recordMap : list (string * PlayRecord))
  (record : PlayRecord) : list (string * PlayRecord) :=
  let key := recordKey record in
  if negb (Map_has key recordMap) then Map_set key record recordMap
  else recordMap.

Definition truthyQ (q : Q) : bool := negb (Qeq_bool q 0).

(** One iteration of the loop of [mergeAggregate] over the entries of
    [right]; the values of the maps are objects, hence truthy. *)
Definition mergeAggregateStep {K A} `{Countable K} (minutes : A -> Q)
  (key : K) (value : A) (result : gmap K A) : gmap K A :=
  match result !! key with
  | None => <[key := value]> result
  | Some current =>
      if truthyQ (minutes value) && truthyQ (minutes current) then
        <[key := if negb (Qle_bool (minutes value) (minutes current))
                 then value else current]> result
      else result
  end.

Definition mergeAggregate {K A} `{Countable K} (minutes : A -> Q)
  (left right : gmap K A) : gmap K A :=
  map_fold (mergeAggregateStep minutes) left right.

Definition mergeStreak (a b : option Streak) : option Streak :=
  match a, b with
  | None, _ => b
  | Some _, None => a
  | Some sa, Some sb =>
      if dateTime (lastListenDate sb) <? dateTime (lastListenDate sa)
      then a else b
  end.

Definition mergeExports (now : Z) (local remote : Export) : ExportBundle :=
  let playRecords :=
    default [] (p_playRecords (data local))
    ++ default [] (p_playRecords (data remote)) in
  let recordMap := foldl recordStep [] playRecords in
  {| eb_version := 1;
     eb_exportDate := now;
     eb_data :=
       {| playRecords := snd <$> recordMap;
          dailyAggregates :=
            mergeAggregate da_totalMinutes
              (default ∅ (p_dailyAggregates (data local)))
              (default ∅ (p_dailyAggregates (data remote)));
          monthlyAggregates :=
            mergeAggregate ma_totalMinutes
              (default ∅ (p_monthlyAggregates (data local)))
              (default ∅ (p_monthlyAggregates (data remote)));
          streak := mergeStreak (p_streak (data local))
                                (p_streak (data remote)) |} |}.

(** *** ensureAccessToken *)

Definition ensureAccessToken (now : Z) (config : StatsConfig)
  (net : Request -> Outcome Response) : M string :=
  fun st =>
    if truthy (cloudSyncAccessToken config)
       && truthyZ (cloudSyncAccessTokenExpiry config)
       && (now + 60000 <? default 0 (cloudSyncAccessTokenExpiry config))
    then ret (default ""%string (cloudSyncAccessToken config)) st
    else if truthy (sessionAccessToken st)
            && (now + 60000 <? sessionAccessTokenExpiry st)
    then ret (default ""%string (sessionAccessToken st)) st
    else if negb (truthy (cloudSyncClientId config))
            || (negb (truthy (cloudSyncRefreshToken config))
                && negb (truthy (sessionRefreshToken st)))
    then throw "Missing refresh token. Reconnect Google Drive." st
    else
      let refreshToken :=
        orElse (cloudSyncRefreshToken config) (sessionRefreshToken st) in
      (response <- fetch net
         (TokenRefresh (default ""%string (cloudSyncClientId config))
                       (orEmpty (cloudSyncClientSecret config))
                       (orEmpty refreshToken)) ;;
       if negb (resp_ok response) then
         throw (trim ("Failed to refresh Google token. "
                      ++ safeReadResponse response))
       else
         json <- await (resp_json response) ;;
         if negb (truthy (access_token json)) then
           throw "Missing access token."
         else
           let accessToken := default ""%string (access_token json) in
           let expiry := now + default 3600 (expires_in json) * 1000 - 60000 in
           setSession accessToken expiry ;;;
           setConfig (patchToken accessToken expiry) ;;;
           ret accessToken) st.

(** *** Drive requests *)

Definition findDriveFile (net : Request -> Outcome Response)
  (accessToken : string) : M (option string) :=
  response <- fetch net (DriveList accessToken) ;;
  if negb (resp_ok response) then ret None
  else json <- await (resp_json response) ;; ret (files0_id json).

Definition downloadDriveFile (net : Request -> Outcome Response)
  (accessToken fileId : string) : M (option string) :=
  response <- fetch net (DriveDownload accessToken fileId) ;;
  if negb (resp_ok response) then ret None
  else text <- await (resp_text response) ;; ret (Some text).

Definition createDriveFile (net : Request -> Outcome Response)
  (accessToken content : string) : M JsonBody :=
  response <- fetch net (DriveCreate accessToken content) ;;
  if negb (resp_ok response) then throw "Failed to create Drive file."
  else await (resp_json response).

Definition uploadDriveFile (net : Request -> Outcome Response)
  (accessToken fileId content : string) : M unit :=
  response <- fetch net (DriveUpdate accessToken fileId content) ;;
  if negb (resp_ok response) then throw "Failed to upload Drive file."
  else ret tt.

(** *** syncDriveNow *)

(** [await this.db.exportData()] *)
Definition exportLocal (now : Z) : M string :=
  fun st =>
    match db st with
    | Some d => ret (StatsDatabase.exportData JSON_stringify now d) st
    | None => throw "Cannot read properties of null (reading 'exportData')" st
    end.

(** [await this.db.importData(json)]; [written] is the outcome of the write
    to disk that the import forces. *)
Definition importLocal (written : bool) (jsonData : string) : M unit :=
  fun st =>
    match db st with
    | Some d =>
        match StatsDatabase.importData JSON_parse written jsonData d with
        | (Returned _, d') => setDb d' st
        | (Thrown msg, _) => throw msg st
        end
    | None => throw "Cannot read properties of null (reading 'importData')" st
    end.

Definition resultOk (msg : string) : SyncResult :=
  {| ok := true; message := msg |}.

Definition resultFailed (msg : string) : SyncResult :=
  {| ok := false; message := msg |}.

(** The end of the [try] block: local and remote hashes differ. *)
Definition reconcile (now : Z) (written : bool) (config : StatsConfig)
  (net : Request -> Outcome Response) (accessToken fileId : string)
  (localJson localHash : string) (localParsed : Export)
  (remoteJson remoteHash : string) : M SyncResult :=
  let remoteParsed := parseExport remoteJson in
  let lastSyncHash := orEmpty (cloudSyncLastHash config) in
  let localChanged :=
    truthy (Some lastSyncHash) && negb (String.eqb localHash lastSyncHash) in
  let remoteChanged :=
    truthy (Some lastSyncHash) && negb (String.eqb remoteHash lastSyncHash) in
  if localChanged && remoteChanged then
    let merged := mergeExports now localParsed remoteParsed in
    let mergedJson := JSON_stringify merged in
    importLocal written mergedJson ;;;
    uploadDriveFile net accessToken fileId mergedJson ;;;
    setConfig (patchSynced now (sha256 mergedJson)) ;;;
    ret (resultOk "Cloud sync merged changes.")
  else if exportDate localParsed <? exportDate remoteParsed then
    importLocal written remoteJson ;;;
    setConfig (patchSynced now remoteHash) ;;;
    ret (resultOk "Cloud sync pulled updates.")
  else
    uploadDriveFile net accessToken fileId localJson ;;;
    setConfig (patchSynced now localHash) ;;;
    ret (resultOk "Cloud sync pushed updates.").

(** The [try] block. *)
Definition syncBody (now : Z) (written : bool) (config : StatsConfig)
  (net : Request -> Outcome Response) : M SyncResult :=
  accessToken <- ensureAccessToken now config net ;;
  localJson <- exportLocal now ;;
  let localHash := sha256 localJson in
  let localParsed := parseExport localJson in
  fileId <- (if truthy (cloudSyncFileId config)
             then ret (orEmpty (cloudSyncFileId config))
             else found <- findDriveFile net accessToken ;;
                  ret (orEmpty found)) ;;
  if negb (truthy (Some fileId)) then
    created <- createDriveFile net accessToken localJson ;;
    setConfig (patchCreated (created_id created) now localHash) ;;;
    ret (resultOk "Cloud sync initialized.")
  else
    remoteJson <- downloadDriveFile net accessToken fileId ;;
    if negb (truthy remoteJson) then
      uploadDriveFile net accessToken fileId localJson ;;;
      setConfig (patchSynced now localHash) ;;;
      ret (resultOk "Cloud sync updated.")
    else
      let remoteJson := default ""%string remoteJson in
      let remoteHash := sha256 remoteJson in
      if String.eqb remoteHash localHash then
        setConfig (patchSynced now localHash) ;;;
        ret (resultOk "Cloud sync up to date.")
      else
        reconcile now written config net accessToken fileId
                  localJson localHash localParsed remoteJson remoteHash.

(** The [catch] block. *)
Definition syncFailed (msg : string) : M SyncResult :=
  setConfig (patchError (if truthy (Some msg) then msg
                         else "Unknown sync error")) ;;;
  ret (resultFailed "Cloud sync failed.").

Definition syncDriveNow (now : Z) (written : bool) (config : StatsConfig)
  (net : Request -> Outcome Response) : M SyncResult :=
  fun st =>
    if isSyncing st then ret (resultFailed "Sync already in progress.") st
    else match db st with
    | None => ret (resultFailed "Database not ready.") st
    | Some _ =>
        if negb (cloudSyncEnabled config) then
          ret (resultFailed "Cloud sync is disabled.") st
        else if negb (truthy (cloudSyncClientId config)) then
          ret (resultFailed "Connect Google Drive first.") st
        else if negb (truthy (cloudSyncRefreshToken config))
                && negb (truthy (cloudSyncAccessToken config))
                && negb (truthy (sessionAccessToken st)) then
          ret (resultFailed "Connect Google Drive first.") st
        else
          (setSyncing true ;;;
           finallyIdle
             (tryCatch (syncBody now written config net) syncFailed)) st
    end.

(** The handler of [music-stats:drive-sync] and the tick of the sync timer:
    the configuration is read from the store, then the pass runs. *)
Definition driveSync (now : Z) (written : bool)
  (net : Request -> Outcome Response) : M SyncResult :=
  fun st => syncDriveNow now written (store st) net st.

End Runtime.

End StatsBackend.

(** * The JSON of the runtime *)

(** [JSON.stringify] and [JSON.parse] are parameters of the store and of the
    backend.  This is the JSON that the standard defines, for the documents
    of the store: the values, how they are written and read, and how a
    bundle becomes a value and a value a document.  It serves to run export
    and import on a store. *)
Module JSON.

#[local] Unset Elimination Schemes.
Inductive value :=
| null
| bool (b : Datatypes.bool)
| number (q : Q)
| str (s : string)
| array (items : list value)
| object (properties : list (string * value)).
#[local] Set Elimination Schemes.

(** *** Writing: [JSON.stringify(value, null, 2)] *)

Definition quoteChar : ascii := ascii_of_nat 34.
Definition backslash : ascii := ascii_of_nat 92.
Definition newline : string := String (ascii_of_nat 10) "".

Definition hexDigit (n : Z) : ascii :=
  ascii_of_nat (Z.to_nat (if n <? 10 then 48 + n else 87 + n)).

(** [QuoteJSONString]: the quote, the backslash and the control characters
    are escaped. *)
Definition escape (c : ascii) : string :=
  let n := Z.of_nat (nat_of_ascii c) in
  let behind (s : string) := String backslash s in
  if n =? 34 then behind (String quoteChar "")
  else if n =? 92 then behind (String backslash "")
  else if n =? 8 then behind "b"
  else if n =? 12 then behind "f"
  else if n =? 10 then behind "n"
  else if n =? 13 then behind "r"
  else if n =? 9 then behind "t"
  else if n <? 32 then
    behind
      ("u00" ++ String (hexDigit (n / 16)) (String (hexDigit (n mod 16)) ""))
      %string
  else String c "".

Fixpoint escaped (s : string) : string :=
  match s with
  | EmptyString => ""
  | String c s' => (escape c ++ escaped s')%string
  end.

Definition quote (s : string) : string :=
  (String quoteChar (escaped s) ++ String quoteChar "")%string.

(** The decimals of [r / den], for [0 <= r < den]. *)
Fixpoint decimals (fuel : nat) (r den : Z) : string :=
  match fuel with
  | O => ""
  | S fuel' =>
      if r =? 0 then ""
      else String (ascii_of_nat (Z.to_nat (48 + r * 10 / den)))
                  (decimals fuel' (r * 10 mod den) den)
  end.

(** A whole number is written with its digits.  Another number is written
    here with all its decimals; the runtime writes the shortest decimal
    that reads back as the same double. *)
Definition writeNumber (q : Q) : string :=
  let q := Qred q in
  let den := Z.pos (Qden q) in
  if den =? 1 then StatsBackend.numStr (Qnum q)
  else
    let whole := Z.abs (Qnum q) / den in
    let rest := Z.abs (Qnum q) mod den in
    let sign := if Qnum q <? 0 then "-"%string else ""%string in
    (sign ++ StatsBackend.numStr whole ++ "." ++ decimals 1100 rest den)%string.

Fixpoint join (sep : string) (l : list string) : string :=
  match l with
  | [] => ""
  | [x] => x
  | x :: l' => (x ++ sep ++ join sep l')%string
  end.

Fixpoint write (indent : string) (v : value) : string :=
  let inner := (indent ++ "  ")%string in
  match v with
  | null => "null"
  | bool true => "true"
  | bool false => "false"
  | number q => writeNumber q
  | str s => quote s
  | array [] => "[]"
  | array items =>
      ("[" ++ newline ++ inner
       ++ join ("," ++ newline ++ inner) (List.map (write inner) items)
       ++ newline ++ indent ++ "]")%string
  | object [] => "{}"
  | object properties =>
      ("{" ++ newline ++ inner
       ++ join ("," ++ newline ++ inner)
            (List.map (fun p => match p with
                                | (k, v') => quote k ++ ": " ++ write inner v'
                                end) properties)
       ++ newline ++ indent ++ "}")%string
  end.

(** *** Reading: [JSON.parse(text)] *)

Definition isSpace (c : ascii) : Datatypes.bool :=
  let n := nat_of_ascii c in
  ((n =? 32) || (n =? 10) || (n =? 13) || (n =? 9))%nat.

Fixpoint skipSpace (s : list ascii) : list ascii :=
  match s with
  | c :: s' => if isSpace c then skipSpace s' else s
  | [] => []
  end.

Definition digitOf (c : ascii) : option Z :=
  let n := Z.of_nat (nat_of_ascii c) in
  if (48 <=? n) && (n <=? 57) then Some (n - 48) else None.

Definition hexOf (c : ascii) : option Z :=
  let n := Z.of_nat (nat_of_ascii c) in
  if (48 <=? n) && (n <=? 57) then Some (n - 48)
  else if (97 <=? n) && (n <=? 102) then Some (n - 87)
  else if (65 <=? n) && (n <=? 70) then Some (n - 55)
  else None.

(** The digits at the head of the text: their number, how many they are,
    and the rest of the text. *)
Fixpoint readDigits (acc : Z) (count : Z) (s : list ascii)
  : Z * Z * list ascii :=
  match s with
  | c :: s' =>
      match digitOf c with
      | Some d => readDigits (acc * 10 + d) (count + 1) s'
      | None => (acc, count, s)
      end
  | [] => (acc, count, s)
  end.

Definition pow10 (e : Z) (q : Q) : Q :=
  match e with
  | Z0 => q
  | Zpos p => (q * inject_Z (10 ^ Zpos p))%Q
  | Zneg p => (Qnum q # (Qden q * Z.to_pos (10 ^ Zpos p)))%Q
  end.

(** [-? digits (. digits)? ([eE] [+-]? digits)?] *)
Definition readNumber (s : list ascii) : option (Q * list ascii) :=
  let '(negative, s) :=
    match s with
    | "-"%char :: s' => (true, s')
    | _ => (false, s)
    end in
  let '(whole, n, s) := readDigits 0 0 s in
  if n =? 0 then None
  else
    let '(mantissa, places, s) :=
      match s with
      | "."%char :: s' =>
          let '(m, k, s'') := readDigits whole 0 s' in (m, k, s'')
      | _ => (whole, 0, s)
      end in
    let '(exponent, s) :=
      match s with
      | "e"%char :: s' | "E"%char :: s' =>
          let '(neg, s') :=
            match s' with
            | "-"%char :: t => (true, t)
            | "+"%char :: t => (false, t)
            | _ => (false, s')
            end in
          let '(e, _, s'') := readDigits 0 0 s' in
          (if neg then - e else e, s'')
      | _ => (0, s)
      end in
    let signed := if negative then - mantissa else mantissa in
    Some (Qred (pow10 (exponent - places) (inject_Z signed)), s).

(** The UTF-8 bytes of a code unit of [\uXXXX]. *)
Definition utf8 (n : Z) : list ascii :=
  let byte k := ascii_of_nat (Z.to_nat k) in
  if n <? 128 then [byte n]
  else if n <? 2048 then [byte (192 + n / 64); byte (128 + n mod 64)]
  else [byte (224 + n / 4096); byte (128 + n / 64 mod 64);
        byte (128 + n mod 64)].

(** The characters of a string up to its closing quote. *)
Fixpoint readString (fuel : nat) (s : list ascii)
  : option (list ascii * list ascii) :=
  match fuel with
  | O => None
  | S fuel' =>
      match s with
      | [] => None
      | c :: s' =>
          if Ascii.eqb c quoteChar then Some ([], s')
          else if Ascii.eqb c backslash then
            match s' with
            | "u"%char :: a :: b :: c' :: d :: s'' =>
                match hexOf a, hexOf b, hexOf c', hexOf d with
                | Some a, Some b, Some c', Some d =>
                    '(rest, s''') ← readString fuel' s'';
                    Some (utf8 (((a * 16 + b) * 16 + c') * 16 + d) ++ rest,
                          s''')
                | _, _, _, _ => None
                end
            | e :: s'' =>
                let n := nat_of_ascii e in
                let plain :=
                  if (n =? 98)%nat then Some (ascii_of_nat 8)
                  else if (n =? 102)%nat then Some (ascii_of_nat 12)
                  else if (n =? 110)%nat then Some (ascii_of_nat 10)
                  else if (n =? 114)%nat then Some (ascii_of_nat 13)
                  else if (n =? 116)%nat then Some (ascii_of_nat 9)
                  else if (n =? 34)%nat || (n =? 92)%nat || (n =? 47)%nat
                       then Some e
                  else None in
                ch ← plain;
                '(rest, s''') ← readString fuel' s'';
                Some (ch :: rest, s''')
            | [] => None
            end
          else if (nat_of_ascii c <? 32)%nat then None
          else
            '(rest, s'') ← readString fuel' s';
            Some (c :: rest, s'')
      end
  end.

Fixpoint dropPrefix (p s : list ascii) : option (list ascii) :=
  match p, s with
  | [], _ => Some s
  | a :: p', b :: s' => if Ascii.eqb a b then dropPrefix p' s' else None
  | _ :: _, [] => None
  end.

(** A value at the head of the text, and the rest of the text. *)
Fixpoint readValue (fuel : nat) (s : list ascii)
  : option (value * list ascii) :=
  match fuel with
  | O => None
  | S fuel' =>
      let items :=
        fix items (n : nat) (s : list ascii) : option (list value * list ascii) :=
          match n with
          | O => None
          | S n' =>
              '(v, s) ← readValue fuel' s;
              match skipSpace s with
              | ","%char :: s' =>
                  '(l, s'') ← items n' s'; Some (v :: l, s'')
              | "]"%char :: s' => Some ([v], s')
              | _ => None
              end
          end in
      let members :=
        fix members (n : nat) (s : list ascii)
          : option (list (string * value) * list ascii) :=
          match n with
          | O => None
          | S n' =>
              match skipSpace s with
              | c :: s =>
                  if Ascii.eqb c quoteChar then
                    '(k, s) ← readString (length s) s;
                    match skipSpace s with
                    | ":"%char :: s =>
                        '(v, s) ← readValue fuel' s;
                        match skipSpace s with
                        | ","%char :: s' =>
                            '(l, s'') ← members n' s';
                            Some ((string_of_list_ascii k, v) :: l, s'')
                        | "}"%char :: s' =>
                            Some ([(string_of_list_ascii k, v)], s')
                        | _ => None
                        end
                    | _ => None
                    end
                  else None
              | [] => None
              end
          end in
      match skipSpace s with
      | "n"%char :: s' => s'' ← dropPrefix ["u"; "l"; "l"]%char s'; Some (null, s'')
      | "t"%char :: s' =>
          s'' ← dropPrefix ["r"; "u"; "e"]%char s'; Some (bool true, s'')
      | "f"%char :: s' =>
          s'' ← dropPrefix ["a"; "l"; "s"; "e"]%char s'; Some (bool false, s'')
      | "["%char :: s' =>
          match skipSpace s' with
          | "]"%char :: s'' => Some (array [], s'')
          | _ => '(l, s'') ← items (length s') s'; Some (array l, s'')
          end
      | "{"%char :: s' =>
          match skipSpace s' with
          | "}"%char :: s'' => Some (object [], s'')
          | _ => '(l, s'') ← members (length s') s'; Some (object l, s'')
          end
      | c :: s' =>
          if Ascii.eqb c quoteChar then
            '(k, s'') ← readString (length s') s';
            Some (str (string_of_list_ascii k), s'')
          else
            '(q, s'') ← readNumber (c :: s'); Some (number q, s'')
      | [] => None
      end
  end.

(** The value that a text stands for, if it is well formed. *)
Definition read (text : string) : option value :=
  let s := list_ascii_of_string text in
  '(v, rest) ← readValue (S (length s)) s;
  match skipSpace rest with
  | [] => Some v
  | _ => None
  end.


(** *** The documents of the store as values *)

(** A day index as ['YYYY-MM-DD'] and back, for the years 0000 to 9999. *)
Definition civil (day : Z) : Z * Z * Z :=
  let z := day + 719468 in
  let era := z / 146097 in
  let doe := z - era * 146097 in
  let yoe := (doe - doe / 1460 + doe / 36524 - doe / 146096) / 365 in
  let doy := doe - (365 * yoe + yoe / 4 - yoe / 100) in
  let mp := (5 * doy + 2) / 153 in
  let d := doy - (153 * mp + 2) / 5 + 1 in
  let m := if mp <? 10 then mp + 3 else mp - 9 in
  (yoe + era * 400 + (if m <=? 2 then 1 else 0), m, d).

Definition dayOf (y m d : Z) : Z :=
  let y := if m <=? 2 then y - 1 else y in
  let era := y / 400 in
  let yoe := y - era * 400 in
  let doy := (153 * (if 2 <? m then m - 3 else m + 9) + 2) / 5 + d - 1 in
  let doe := yoe * 365 + yoe / 4 - yoe / 100 + doy in
  era * 146097 + doe - 719468.

Definition digit (n : Z) : ascii := ascii_of_nat (Z.to_nat (48 + n mod 10)).

Definition isoDateString (day : Z) : string :=
  let '(y, m, d) := civil day in
  string_of_list_ascii
    [digit (y / 1000); digit (y / 100); digit (y / 10); digit y; "-"%char;
     digit (m / 10); digit m; "-"%char; digit (d / 10); digit d].

Definition parseIsoDate (s : string) : Z :=
  match List.map (fun c => Z.of_nat (nat_of_ascii c) - 48)
                 (list_ascii_of_string s) with
  | [y1; y2; y3; y4; _; m1; m2; _; d1; d2] =>
      dayOf (((y1 * 10 + y2) * 10 + y3) * 10 + y4) (m1 * 10 + m2)
            (d1 * 10 + d2)
  | _ => 0      (* not reached: the store writes dates only *)
  end.

Definition int (n : Z) : value := number (inject_Z n).

(** A property that is [undefined] is left out. *)
Definition optional (key : string) (v : option value)
  : list (string * value) :=
  match v with
  | Some v => [(key, v)]
  | None => []
  end.

(** A number that is not finite is written as [null]. *)
Definition ofDuration (d : Duration) : value :=
  match d with
  | Seconds n => int n
  | Infinity => null
  | Null => null
  end.

Definition ofPlayRecord (r : PlayRecord) : value :=
  object
    ([("songId"%string, str (songId r)); ("songTitle"%string, str (songTitle r));
      ("artistId"%string, str (artistId r));
      ("artistName"%string, str (artistName r))]
     ++ optional "artistImageUrl" (str <$> artistImageUrl r)
     ++ optional "albumName" (str <$> albumName r)
     ++ optional "thumbnailUrl" (str <$> thumbnailUrl r)
     ++ [("timestamp"%string, int (timestamp r));
         ("durationListened"%string, int (durationListened r));
         ("totalDuration"%string, ofDuration (totalDuration r));
         ("skipped"%string, bool (skipped r));
         ("completed"%string, bool (completed r))]
     ++ optional "id" (int <$> recordId r)).

Definition ofBreakdown (l : list (string * Q)) : value :=
  object (List.map (fun e => (e.1, number e.2)) l).

Definition ofDailyAggregate (a : DailyAggregate) : value :=
  object
    [("date"%string, str (isoDateString (da_date a)));
     ("totalMinutes"%string, number (da_totalMinutes a));
     ("songsPlayed"%string, int (da_songsPlayed a));
     ("uniqueSongs"%string, int (da_uniqueSongs a));
     ("uniqueArtists"%string, int (da_uniqueArtists a));
     ("topSongs"%string,
      array (List.map (fun s => object [("id"%string, str (ts_id s));
                                        ("title"%string, str (ts_title s));
                                        ("plays"%string, int (ts_plays s))])
                      (da_topSongs a)));
     ("topArtists"%string,
      array (List.map (fun s => object [("id"%string, str (ta_id s));
                                        ("name"%string, str (ta_name s));
                                        ("plays"%string, int (ta_plays s))])
                      (da_topArtists a)));
     ("genreBreakdown"%string, ofBreakdown (da_genreBreakdown a));
     ("hourlyBreakdown"%string, array (List.map int (da_hourlyBreakdown a)));
     ("skipCount"%string, int (da_skipCount a))].

Definition ofMonthlyAggregate (a : MonthlyAggregate) : value :=
  object
    [("yearMonth"%string, str (ma_yearMonth a));
     ("totalMinutes"%string, number (ma_totalMinutes a));
     ("topSongs"%string,
      array (List.map (fun s => object [("id"%string, str (mts_id s));
                                        ("title"%string, str (mts_title s));
                                        ("artist"%string, str (mts_artist s));
                                        ("plays"%string, int (mts_plays s))])
                      (ma_topSongs a)));
     ("topArtists"%string,
      array (List.map (fun s => object [("id"%string, str (mta_id s));
                                        ("name"%string, str (mta_name s));
                                        ("minutes"%string,
                                         number (mta_minutes s))])
                      (ma_topArtists a)));
     ("genreBreakdown"%string, ofBreakdown (ma_genreBreakdown a));
     ("daysActive"%string, int (ma_daysActive a))].

Definition ofStreak (s : option Streak) : value :=
  match s with
  | Some s =>
      object [("lastListenDate"%string, str (isoDateString (lastListenDate s)));
              ("currentStreak"%string, int (currentStreak s))]
  | None => null
  end.

(** [{ version, exportDate, ...this.data }] *)
Definition ofBundle (b : ExportBundle) : value :=
  object
    [("version"%string, int (eb_version b));
     ("exportDate"%string, int (eb_exportDate b));
     ("playRecords"%string,
      array (List.map ofPlayRecord (playRecords (eb_data b))));
     ("dailyAggregates"%string,
      object (List.map (fun e => (isoDateString e.1, ofDailyAggregate e.2))
                       (map_to_list (dailyAggregates (eb_data b)))));
     ("monthlyAggregates"%string,
      object (List.map (fun e => (e.1, ofMonthlyAggregate e.2))
                       (map_to_list (monthlyAggregates (eb_data b)))));
     ("streak"%string, ofStreak (streak (eb_data b)))].

(** *** Values as the documents the code takes them for *)

Fixpoint get (key : string) (properties : list (string * value))
  : option value :=
  match properties with
  | [] => None
  | (k, v) :: rest => if String.eqb k key then Some v else get key rest
  end.

Definition field (key : string) (v : value) : option value :=
  match v with
  | object properties => get key properties
  | _ => None
  end.

Definition toZ (v : option value) : Z :=
  match v with
  | Some (number q) => Qfloor q
  | _ => 0
  end.

Definition toQ (v : option value) : Q :=
  match v with
  | Some (number q) => Qred q
  | _ => 0%Q
  end.

Definition toString (v : option value) : string :=
  match v with
  | Some (str s) => s
  | _ => ""%string
  end.

Definition toBool (v : option value) : Datatypes.bool :=
  match v with
  | Some (bool b) => b
  | _ => false
  end.

Definition toList {A : Type} (f : value -> A) (v : option value) : list A :=
  match v with
  | Some (array items) => List.map f items
  | _ => []
  end.

Definition toDuration (v : option value) : Duration :=
  match v with
  | Some (number q) => Seconds (Qfloor q)
  | _ => Null
  end.

Definition toPlayRecord (v : value) : PlayRecord :=
  {| recordId := match field "id" v with
                 | Some (number q) => Some (Qfloor q)
                 | _ => None
                 end;
     songId := toString (field "songId" v);
     songTitle := toString (field "songTitle" v);
     artistId := toString (field "artistId" v);
     artistName := toString (field "artistName" v);
     artistImageUrl := match field "artistImageUrl" v with
                       | Some (str s) => Some s
                       | _ => None
                       end;
     albumName := match field "albumName" v with
                  | Some (str s) => Some s
                  | _ => None
                  end;
     thumbnailUrl := match field "thumbnailUrl" v with
                     | Some (str s) => Some s
                     | _ => None
                     end;
     timestamp := toZ (field "timestamp" v);
     durationListened := toZ (field "durationListened" v);
     totalDuration := toDuration (field "totalDuration" v);
     skipped := toBool (field "skipped" v);
     completed := toBool (field "completed" v) |}.

Definition toBreakdown (v : option value) : list (string * Q) :=
  match v with
  | Some (object properties) =>
      List.map (fun e => (e.1, toQ (Some e.2))) properties
  | _ => []
  end.

Definition toDailyAggregate (v : value) : DailyAggregate :=
  {| da_date := parseIsoDate (toString (field "date" v));
     da_totalMinutes := toQ (field "totalMinutes" v);
     da_songsPlayed := toZ (field "songsPlayed" v);
     da_uniqueSongs := toZ (field "uniqueSongs" v);
     da_uniqueArtists := toZ (field "uniqueArtists" v);
     da_topSongs :=
       toList (fun s => {| ts_id := toString (field "id" s);
                           ts_title := toString (field "title" s);
                           ts_plays := toZ (field "plays" s) |})
              (field "topSongs" v);
     da_topArtists :=
       toList (fun s => {| ta_id := toString (field "id" s);
                           ta_name := toString (field "name" s);
                           ta_plays := toZ (field "plays" s) |})
              (field "topArtists" v);
     da_genreBreakdown := toBreakdown (field "genreBreakdown" v);
     da_hourlyBreakdown := toList (fun n => toZ (Some n))
                                  (field "hourlyBreakdown" v);
     da_skipCount := toZ (field "skipCount" v) |}.

Definition toMonthlyAggregate (v : value) : MonthlyAggregate :=
  {| ma_yearMonth := toString (field "yearMonth" v);
     ma_totalMinutes := toQ (field "totalMinutes" v);
     ma_topSongs :=
       toList (fun s => {| mts_id := toString (field "id" s);
                           mts_title := toString (field "title" s);
                           mts_artist := toString (field "artist" s);
                           mts_plays := toZ (field "plays" s) |})
              (field "topSongs" v);
     ma_topArtists :=
       toList (fun s => {| mta_id := toString (field "id" s);
                           mta_name := toString (field "name" s);
                           mta_minutes := toQ (field "minutes" s) |})
              (field "topArtists" v);
     ma_genreBreakdown := toBreakdown (field "genreBreakdown" v);
     ma_daysActive := toZ (field "daysActive" v) |}.

(** The typed view of a parsed object: a property that is missing, [null]
    or of another shape than the data model declares reads as [None]. *)
Definition toParsed (v : value) : Parsed :=
  {| p_version := match field "version" v with
                  | Some (number q) => Some (Qfloor q)
                  | _ => None
                  end;
     p_exportDate := match field "exportDate" v with
                     | Some (number q) => Some (Qfloor q)
                     | _ => None
                     end;
     p_playRecords := match field "playRecords" v with
                      | Some (array items) =>
                          Some (List.map toPlayRecord items)
                      | _ => None
                      end;
     p_dailyAggregates :=
       match field "dailyAggregates" v with
       | Some (object properties) =>
           Some (list_to_map
                   (List.map (fun e => (parseIsoDate e.1, toDailyAggregate e.2))
                             properties))
       | _ => None
       end;
     p_monthlyAggregates :=
       match field "monthlyAggregates" v with
       | Some (object properties) =>
           Some (list_to_map
                   (List.map (fun e => (e.1, toMonthlyAggregate e.2))
                             properties))
       | _ => None
       end;
     p_streak :=
       match field "streak" v with
       | Some (object properties) =>
           Some {| lastListenDate :=
                     parseIsoDate (toString (get "lastListenDate" properties));
                   currentStreak := toZ (get "currentStreak" properties) |}
       | _ => None
       end |}.

(** [JSON.stringify(bundle, null, 2)] and [JSON.parse(text)] *)
Definition stringify (b : ExportBundle) : string := write "" (ofBundle b).

Definition parse (text : string) : ParseResult :=
  match read text with
  | None => SyntaxError "Unexpected token"
  | Some null => ParsedNull
  | Some v => ParsedValue (toParsed v)
  end.

End JSON.

(** * The tracker of the renderer *)

(** The renderer watches the player and hands a record to the backend for
    every play it keeps.  The DOM reads ([getSongInfo], [isPlaying], the
    artist image cache) and the readings of the clock are inputs of the
    calls; the seconds listened to are added up in doubles. *)
Module Tracker.

(** The answer of [getSongInfo]. *)
Record SongInfo := {
  si_songId : string;
  si_songTitle : string;
  si_artistId : string;
  si_artistName : string;
  si_artistUrl : option string;
  si_albumName : option string;
  si_thumbnailUrl : option string;
  si_totalDuration : Duration
}.

Record CurrentPlayback := {
  cp_songId : string;
  cp_songTitle : string;
  cp_artistId : string;
  cp_artistName : string;
  cp_artistImageUrl : option string;
  cp_albumName : option string;
  cp_thumbnailUrl : option string;
  cp_totalDuration : Duration;
  startTime : Z;
  lastUpdateTime : Z;
  accumulatedTime : Number.t
}.

(** The module variables of the tracker, and the records handed to
    [ipc.invoke('music-stats:add-play-record', record)] so far. *)
Record t := {
  currentPlayback : option CurrentPlayback;
  userSkipRequested : bool;
  ipc : bool;                       (* [ipc] is set *)
  invoked : list PlayRecord
}.

(** [currentPlayback = null; userSkipRequested = false] *)
Definition cleared (tr : t) : t :=
  {| currentPlayback := None; userSkipRequested := false;
     ipc := ipc tr; invoked := invoked tr |}.

(** The literals [0.65] and [0.95]: the doubles next to 65/100 and 95/100. *)
Definition skipThreshold : Number.t :=
  Number.div (Number.ofZ 65) (Number.ofZ 100).
Definition completedThreshold : Number.t :=
  Number.div (Number.ofZ 95) (Number.ofZ 100).

Definition savePreviousPlay (isCompleted : bool) (tr : t) : t :=
  match currentPlayback tr with
  | None => cleared tr
  | Some cp =>
      if Number.lt (accumulatedTime cp) (Number.ofZ 30) then cleared tr
      else
        let wasSkipped :=
          userSkipRequested tr && negb isCompleted
          && Number.lt Number.zero (Duration_toNumber (cp_totalDuration cp))
          && Number.lt (accumulatedTime cp)
                       (Number.mul (Duration_toNumber (cp_totalDuration cp))
                                   skipThreshold) in
        let record :=
          {| recordId := None;
             songId := cp_songId cp; songTitle := cp_songTitle cp;
             artistId := cp_artistId cp; artistName := cp_artistName cp;
             artistImageUrl := cp_artistImageUrl cp;
             albumName := cp_albumName cp;
             thumbnailUrl := cp_thumbnailUrl cp;
             timestamp := startTime cp;
             durationListened := Math_floor (accumulatedTime cp);
             totalDuration := cp_totalDuration cp;
             skipped := wasSkipped; completed := isCompleted |} in
        {| currentPlayback := None; userSkipRequested := false;
           ipc := ipc tr;
           invoked := if ipc tr then invoked tr ++ [record]
                      else invoked tr |}
  end.

(** [getSongInfo()] answered [info]; [cached] is the answer of
    [getCachedArtistImage]; [started] and [updated] are the two readings of
    the clock that a new playback is stamped with. *)
Definition checkForSongChange (info : option SongInfo) (started updated : Z)
  (cached : option string) (tr : t) : t :=
  match info with
  | None => tr
  | Some songInfo =>
      let tr :=
        match currentPlayback tr with
        | Some cp =>
            if negb (String.eqb (cp_songId cp) (si_songId songInfo))
               || negb (String.eqb (cp_songTitle cp) (si_songTitle songInfo))
            then savePreviousPlay false tr
            else tr
        | None => tr
        end in
      let restart :=
        match currentPlayback tr with
        | Some cp => negb (String.eqb (cp_songId cp) (si_songId songInfo))
        | None => true
        end in
      if restart then
        {| currentPlayback :=
             Some {| cp_songId := si_songId songInfo;
                     cp_songTitle := si_songTitle songInfo;
                     cp_artistId := si_artistId songInfo;
                     cp_artistName := si_artistName songInfo;
                     cp_artistImageUrl :=
                       if truthy cached then cached else None;
                     cp_albumName := si_albumName songInfo;
                     cp_thumbnailUrl := si_thumbnailUrl songInfo;
                     cp_totalDuration := si_totalDuration songInfo;
                     startTime := started; lastUpdateTime := updated;
                     accumulatedTime := Number.zero |};
           userSkipRequested := false;
           ipc := ipc tr; invoked := invoked tr |}
      else tr
  end.

(** The seconds accumulated after a progress update at [now]; [playing] is
    the answer of [isPlaying()]. *)
Definition accumulated (now : Z) (playing : bool) (cp : CurrentPlayback)
  : Number.t :=
  let timeSinceLastUpdate :=
    Number.div (Number.sub (Number.ofZ now) (Number.ofZ (lastUpdateTime cp)))
               (Number.ofZ 1000) in
  if playing then Number.add (accumulatedTime cp) timeSinceLastUpdate
  else accumulatedTime cp.

Definition updatePlaybackProgress (now : Z) (playing : bool) (tr : t) : t :=
  match currentPlayback tr with
  | None => tr
  | Some cp =>
      let cp :=
        {| cp_songId := cp_songId cp; cp_songTitle := cp_songTitle cp;
           cp_artistId := cp_artistId cp; cp_artistName := cp_artistName cp;
           cp_artistImageUrl := cp_artistImageUrl cp;
           cp_albumName := cp_albumName cp;
           cp_thumbnailUrl := cp_thumbnailUrl cp;
           cp_totalDuration := cp_totalDuration cp;
           startTime := startTime cp;
           lastUpdateTime := now;
           accumulatedTime := accumulated now playing cp |} in
      let tr :=
        {| currentPlayback := Some cp;
           userSkipRequested := userSkipRequested tr;
           ipc := ipc tr; invoked := invoked tr |} in
      if Number.ge (accumulatedTime cp)
                   (Number.mul (Duration_toNumber (cp_totalDuration cp))
                               completedThreshold)
      then savePreviousPlay true tr
      else tr
  end.

(** [skipClickHandler] *)
Definition skipClick (isSkipButton : bool) (tr : t) : t :=
  if isSkipButton then
    {| currentPlayback := currentPlayback tr; userSkipRequested := true;
       ipc := ipc tr; invoked := invoked tr |}
  else tr.

(** The assignment at the end of [primeArtistImage], once an image is at
    hand:
    [if (currentPlayback?.artistId === songInfo.artistId)
       currentPlayback.artistImageUrl = imageUrl]. *)
Definition setArtistImage (forArtistId imageUrl : string) (tr : t) : t :=
  match currentPlayback tr with
  | Some cp =>
      if String.eqb (cp_artistId cp) forArtistId then
        {| currentPlayback :=
             Some {| cp_songId := cp_songId cp;
                     cp_songTitle := cp_songTitle cp;
                     cp_artistId := cp_artistId cp;
                     cp_artistName := cp_artistName cp;
                     cp_artistImageUrl := Some imageUrl;
                     cp_albumName := cp_albumName cp;
                     cp_thumbnailUrl := cp_thumbnailUrl cp;
                     cp_totalDuration := cp_totalDuration cp;
                     startTime := startTime cp;
                     lastUpdateTime := lastUpdateTime cp;
                     accumulatedTime := accumulatedTime cp |};
           userSkipRequested := userSkipRequested tr;
           ipc := ipc tr; invoked := invoked tr |}
      else tr
  | None => tr
  end.

Definition teardownTracking (tr : t) : t := cleared tr.

(** [start] sets [ipc] and restarts the tracking; [stop] tears it down and
    drops [ipc]. *)
Definition start (tr : t) : t :=
  teardownTracking
    {| currentPlayback := currentPlayback tr;
       userSkipRequested := userSkipRequested tr;
       ipc := true; invoked := invoked tr |}.

Definition stop (tr : t) : t :=
  let tr := teardownTracking tr in
  {| currentPlayback := currentPlayback tr;
     userSkipRequested := userSkipRequested tr;
     ipc := false; invoked := invoked tr |}.

(** What the observer, the two timers, the click listener and the image
    requests call, in the order in which the event loop runs them. *)
Inductive Event :=
| SongCheck (info : option SongInfo) (started updated : Z)
            (cached : option string)
| Progress (now : Z) (playing : bool)
| Click (isSkipButton : bool)
| ArtistImage (forArtistId imageUrl : string)
| Start
| Stop.

Definition step (tr : t) (e : Event) : t :=
  match e with
  | SongCheck info started updated cached =>
      checkForSongChange info started updated cached tr
  | Progress now playing => updatePlaybackProgress now playing tr
  | Click isSkipButton => skipClick isSkipButton tr
  | ArtistImage forArtistId imageUrl => setArtistImage forArtistId imageUrl tr
  | Start => start tr
  | Stop => stop tr
  end.

Definition run (events : list Event) (tr : t) : t := foldl step tr events.

(** The module variables when the script is loaded. *)
Definition loaded : t :=
  {| currentPlayback := None; userSkipRequested := false; ipc := false;
     invoked := [] |}.

End Tracker.

(** * Timers and Drive handlers of the backend *)

(** The two timers of a backend instance, and the intervals that the event
    loop holds.  Only the handles are followed here: what the jobs do is
    [aggregateDailyStats] and [syncDriveNow] of above. *)
Module Lifecycle.

Inductive Job := AggregateDaily | SyncDrive.

Record t := {
  aggregationTimer : option nat;
  syncTimer : option nat;
  intervals : list (nat * Job);     (* the running intervals of the loop *)
  nextHandle : nat
}.

(** [setInterval(job, ms)] returns a new handle; [clearInterval(handle)]. *)
Definition setInterval (job : Job) (st : t) : nat * t :=
  (nextHandle st,
   {| aggregationTimer := aggregationTimer st; syncTimer := syncTimer st;
      intervals := intervals st ++ [(nextHandle st, job)];
      nextHandle := S (nextHandle st) |}).

Definition clearInterval (handle : nat) (st : t) : t :=
  {| aggregationTimer := aggregationTimer st; syncTimer := syncTimer st;
     intervals := filter (fun e => e.1 <> handle) (intervals st);
     nextHandle := nextHandle st |}.

Definition startAggregationTimer (st : t) : t :=
  let '(handle, st) := setInterval AggregateDaily st in
  {| aggregationTimer := Some handle; syncTimer := syncTimer st;
     intervals := intervals st; nextHandle := nextHandle st |}.

Definition startSyncTimer (st : t) : t :=
  match syncTimer st with
  | Some _ => st
  | None =>
      let '(handle, st) := setInterval SyncDrive st in
      {| aggregationTimer := aggregationTimer st; syncTimer := Some handle;
         intervals := intervals st; nextHandle := nextHandle st |}
  end.

Definition stopSyncTimer (st : t) : t :=
  match syncTimer st with
  | Some handle =>
      let st := clearInterval handle st in
      {| aggregationTimer := aggregationTimer st; syncTimer := None;
         intervals := intervals st; nextHandle := nextHandle st |}
  | None => st
  end.

Definition onConfigChange (cloudSyncEnabled : bool) (st : t) : t :=
  if cloudSyncEnabled then startSyncTimer st else stopSyncTimer st.

(** The timers of [initialize], for the configuration read at the start. *)
Definition initialize (cloudSyncEnabled : bool) (st : t) : t :=
  let st := startAggregationTimer st in
  if cloudSyncEnabled then startSyncTimer st else st.

(** [cleanup] clears the aggregation timer; the field keeps the handle. *)
Definition cleanup (st : t) : t :=
  match aggregationTimer st with
  | Some handle => clearInterval handle st
  | None => st
  end.

(** [new StatsBackend(context)]: a new instance has no timer, the loop goes
    on. *)
Definition construct (st : t) : t :=
  {| aggregationTimer := None; syncTimer := None;
     intervals := intervals st; nextHandle := nextHandle st |}.

(** [backend.start] and [backend.stop] of the plugin. *)
Definition pluginStart (cloudSyncEnabled : bool) (st : t) : t :=
  initialize cloudSyncEnabled (construct st).

Definition pluginStop (st : t) : t := cleanup st.

(** What reaches a running instance: a change of configuration, or the
    [music-stats:drive-disconnect] handler, which stops the sync timer. *)
Inductive Event := ConfigChange (cloudSyncEnabled : bool) | Disconnect.

Definition step (st : t) (e : Event) : t :=
  match e with
  | ConfigChange cloudSyncEnabled => onConfigChange cloudSyncEnabled st
  | Disconnect => stopSyncTimer st
  end.

Definition idle : t :=
  {| aggregationTimer := None; syncTimer := None; intervals := [];
     nextHandle := 0 |}.

End Lifecycle.

Module DriveHandlers.
Import StatsBackend.

Record DriveStatus := {
  ds_enabled : bool;
  ds_connected : bool;
  ds_lastSyncTime : option Z;
  ds_lastError : option string
}.

Definition getDriveStatus (config : StatsConfig) : DriveStatus :=
  {| ds_enabled := cloudSyncEnabled config;
     ds_connected := truthy (cloudSyncRefreshToken config);
     ds_lastSyncTime := cloudSyncLastSyncTime config;
     ds_lastError := if truthy (cloudSyncLastError config)
                     then cloudSyncLastError config else None |}.

(** The patch of [music-stats:drive-disconnect]; the empty string stored as
    the last sync time is no time. *)
Definition patchDisconnected (c : StatsConfig) : StatsConfig :=
  {| enabled := enabled c; trackingStartDate := trackingStartDate c;
     cloudSyncEnabled := false;
     cloudSyncClientId := cloudSyncClientId c;
     cloudSyncClientSecret := cloudSyncClientSecret c;
     cloudSyncRefreshToken := Some ""%string;
     cloudSyncAccessToken := Some ""%string;
     cloudSyncAccessTokenExpiry := Some 0;
     cloudSyncFileId := Some ""%string;
     cloudSyncLastSyncTime := None;
     cloudSyncLastHash := Some ""%string;
     cloudSyncLastError := Some ""%string |}.

Definition driveDisconnect : M SyncResult :=
  setConfig patchDisconnected ;;;
  ret (resultOk "Google Drive disconnected.").

(** [music-stats:drive-status] *)
Definition driveStatus : M DriveStatus :=
  fun st => ret (getDriveStatus (store st)) st.

End DriveHandlers.

(** * base64UrlEncode *)

(** [buffer.toString('base64')]: the base64 alphabet of RFC 4648, with
    padding.  A buffer is the list of its bytes, each between 0 and 255;
    a string is the list of its characters here. *)
Definition base64Alphabet : list ascii :=
  list_ascii_of_string
    "ABCDEFGHIJKLMNOPQRSTUVWXYZabcdefghijklmnopqrstuvwxyz0123456789+/".

Definition base64Char (sextet : Z) : ascii :=
  nth (Z.to_nat sextet) base64Alphabet "/"%char.

Fixpoint toBase64 (buffer : list Z) : list ascii :=
  match buffer with
  | b1 :: b2 :: b3 :: rest =>
      let n := b1 * 65536 + b2 * 256 + b3 in
      base64Char (n / 262144) :: base64Char (n / 4096 mod 64)
      :: base64Char (n / 64 mod 64) :: base64Char (n mod 64)
      :: toBase64 rest
  | [b1; b2] =>
      let n := (b1 * 256 + b2) * 4 in
      [base64Char (n / 4096); base64Char (n / 64 mod 64);
       base64Char (n mod 64); "="%char]
  | [b1] =>
      let n := b1 * 16 in
      [base64Char (n / 64); base64Char (n mod 64); "="%char; "="%char]
  | [] => []
  end.

(** [s.replace(/c/g, by)] for a single character [c]. *)
Definition replaceChar (c by_ : ascii) (s : list ascii) : list ascii :=
  (fun a => if Ascii.eqb a c then by_ else a) <$> s.

(** [s.replace(/c+$/g, '')]: the run of [c] at the end of the string is
    removed. *)
Fixpoint stripTrailing (c : ascii) (s : list ascii) : list ascii :=
  match s with
  | [] => []
  | a :: s' =>
      match stripTrailing c s' with
      | [] => if Ascii.eqb a c then [] else [a]
      | rest => a :: rest
      end
  end.

Definition base64UrlEncode (buffer : list Z) : string :=
  string_of_list_ascii
    (stripTrailing "="%char
       (replaceChar "/"%char "_"%char
          (replaceChar "+"%char "-"%char (toBase64 buffer)))).

(** * Sample data *)

Module Samples.
Import StatsBackend.

Definition play (song artist : string) (ts listened : Z) : PlayRecord :=
  {| recordId := None; songId := song; songTitle := song;
     artistId := artist; artistName := artist; artistImageUrl := None;
     albumName := None; thumbnailUrl := None; timestamp := ts;
     durationListened := listened; totalDuration := 200;
     skipped := false; completed := false |}.

Definition withId (id : Z) (r : PlayRecord) : PlayRecord :=
  {| recordId := Some id; songId := songId r; songTitle := songTitle r;
     artistId := artistId r; artistName := artistName r;
     artistImageUrl := artistImageUrl r; albumName := albumName r;
     thumbnailUrl := thumbnailUrl r; timestamp := timestamp r;
     durationListened := durationListened r;
     totalDuration := totalDuration r;
     skipped := skipped r; completed := completed r |}.

Definition dbOf (records : list PlayRecord) : StatsDatabase.t :=
  {| StatsDatabase.data :=
       {| playRecords := records; dailyAggregates := ∅;
          monthlyAggregates := ∅; streak := None |};
     StatsDatabase.isDirty := false |}.

(** *** A table of the runtime

    The values of [JSON.stringify], [JSON.parse] and SHA-256 at the texts the
    examples use: the export of an empty document, and a text that is not
    JSON.  In the literals an apostrophe stands for the double quote. *)

Definition quoted (s : string) : string :=
  string_of_list_ascii
    ((fun c => if Ascii.eqb c "'" then ascii_of_nat 34 else c)
       <$> list_ascii_of_string s).

Definition newline : string := String (ascii_of_nat 10) EmptyString.

Fixpoint lines (ls : list string) : string :=
  match ls with
  | [] => EmptyString
  | [l] => l
  | l :: ls' => (l ++ newline ++ lines ls')%string
  end.

Definition emptyExportText (exportDate : Z) : string :=
  quoted (lines [ "{";
                  "  'version': 1,";
                  "  'exportDate': " ++ StatsBackend.numStr exportDate ++ ",";
                  "  'playRecords': [],";
                  "  'dailyAggregates': {},";
                  "  'monthlyAggregates': {},";
                  "  'streak': null";
                  "}" ])%string.

Definition emptyBundle (exportDate : Z) : ExportBundle :=
  {| eb_version := 1; eb_exportDate := exportDate; eb_data := emptySchema |}.

(** [JSON.stringify(bundle, null, 2)] for a bundle whose document is empty. *)
Definition stringify (b : ExportBundle) : string :=
  emptyExportText (eb_exportDate b).

Definition now : Z := 1700000000000.
Definition earlier : Z := 1600000000000.
Definition notJson : string := "{ not json".

Definition parse (s : string) : ParseResult :=
  if String.eqb s (emptyExportText now)
  then ParsedValue (parsedOfBundle (emptyBundle now))
  else if String.eqb s (emptyExportText earlier)
  then ParsedValue (parsedOfBundle (emptyBundle earlier))
  else SyntaxError "Unexpected token".

Definition sha256 (s : string) : string :=
  if String.eqb s (emptyExportText now)
  then "f224b965afbac12c9f4d882540ae63f1d6170a186e4190be1e55e73a438dff5f"
  else if String.eqb s (emptyExportText earlier)
  then "627e7e3a4ebbb1c8778ee9b89dc6cc6abac06633865b154aa68560ceacec6391"
  else "0228f717792ffbc02f7fa058c934c10d7e91d0de743e365ebd78bfebf019254e".

(** Sample aggregates *)

Definition sampleDay (date : Z) (minutes : Q) : DailyAggregate :=
  {| da_date := date; da_totalMinutes := minutes; da_songsPlayed := 1;
     da_uniqueSongs := 1; da_uniqueArtists := 1; da_topSongs := [];
     da_topArtists := []; da_genreBreakdown := [];
     da_hourlyBreakdown := replicate 24 0; da_skipCount := 0 |}.

(** Sample exports *)

Definition exportOf (date : Z) (records : list PlayRecord)
  : StatsBackend.Export :=
  {| StatsBackend.exportDate := date;
     StatsBackend.data :=
       parsedOfBundle
         {| eb_version := 1; eb_exportDate := date;
            eb_data := {| playRecords := records; dailyAggregates := ∅;
                          monthlyAggregates := ∅; streak := None |} |} |}.

(** The clock of a machine in UTC, for timestamps of January 1970. *)

Definition utcHours (ts : Z) : nat := Z.to_nat ((ts / 3600000) mod 24).
Definition utcMonth (ts : Z) : string := "1970-01".
Definition utcYear (ts : Z) : Z := 1970.

Definition compareStrings (a b : string) : Z :=
  match String.compare a b with
  | Lt => -1
  | Eq => 0
  | Gt => 1
  end.

(** Sample configurations, states and network *)

Definition configOf (clientId refreshToken accessToken : option string)
  (expiry : option Z) (fileId lastHash : option string) : StatsConfig :=
  {| enabled := true; trackingStartDate := "2024-01-01";
     cloudSyncEnabled := true;
     cloudSyncClientId := clientId; cloudSyncClientSecret := None;
     cloudSyncRefreshToken := refreshToken;
     cloudSyncAccessToken := accessToken;
     cloudSyncAccessTokenExpiry := expiry;
     cloudSyncFileId := fileId; cloudSyncLastSyncTime := None;
     cloudSyncLastHash := lastHash; cloudSyncLastError := None |}.

Definition stateOf (d : StatsDatabase.t) (config : StatsConfig)
  : StatsBackend.t :=
  {| StatsBackend.db := Some d; StatsBackend.isSyncing := false;
     StatsBackend.sessionAccessToken := None;
     StatsBackend.sessionAccessTokenExpiry := 0;
     StatsBackend.sessionRefreshToken := None;
     StatsBackend.store := config; StatsBackend.journal := [] |}.

Definition noBody : JsonBody :=
  {| access_token := None; expires_in := None; files0_id := None;
     created_id := None |}.

Definition reply (okay : bool) (text : string) (body : JsonBody) : Response :=
  {| resp_ok := okay; resp_text := Returned text; resp_json := Returned body |}.

(** A network where every request succeeds; the remote file holds
    [remoteText], when there is one. *)
Definition net (remoteText : option string) (rq : Request)
  : Outcome Response :=
  match rq with
  | TokenRefresh _ _ _ =>
      Returned (reply true ""
                  {| access_token := Some "fresh-token";
                     expires_in := Some 3600; files0_id := None;
                     created_id := None |})
  | DriveList _ => Returned (reply true "" noBody)
  | DriveDownload _ _ =>
      match remoteText with
      | Some text => Returned (reply true text noBody)
      | None => Returned (reply false "Not Found" noBody)
      end
  | DriveCreate _ _ =>
      Returned (reply true ""
                  {| access_token := None; expires_in := None;
                     files0_id := None; created_id := Some "file-1" |})
  | DriveUpdate _ _ _ => Returned (reply true "" noBody)
  end.

(** A connected configuration whose recorded hash is that of [lastText],
    and a backend whose document is empty. *)

Definition syncConfig (lastText : string) : StatsConfig :=
  configOf (Some "client") (Some "refresh") (Some "token")
           (Some (now + 3600000)) (Some "file-1") (Some (sha256 lastText)).

Definition syncDb : StatsDatabase.t := dbOf [].

Definition syncState (lastText : string) : StatsBackend.t :=
  stateOf syncDb (syncConfig lastText).

(** The end of a pass on [syncState], at the given clock. *)
Definition reconcileAt (clock : Z) (localJson remoteJson : string)
  : Outcome SyncResult * StatsBackend.t :=
  reconcile stringify parse sha256 clock true (syncConfig localJson)
            (net (Some remoteJson)) "token" "file-1"
            localJson (sha256 localJson) (parseExport parse localJson)
            remoteJson (sha256 remoteJson) (syncState localJson).


(** A network that is down: every request is rejected. *)
Definition offline (rq : Request) : Outcome Response :=
  Thrown "net::ERR_INTERNET_DISCONNECTED".

(** A connected configuration without a recorded file, whose token is still
    valid, and one whose token has to be refreshed. *)
Definition firstConfig : StatsConfig :=
  configOf (Some "client") (Some "refresh") (Some "token")
           (Some (now + 3600000)) None None.

Definition staleConfig : StatsConfig :=
  configOf (Some "client") (Some "refresh") None None (Some "file-1") None.

(** A configuration that was never connected. *)
Definition blankConfig : StatsConfig :=
  configOf None None None None None None.

Definition passOf (config : StatsConfig) (network : Request -> Outcome Response)
  : Outcome SyncResult * StatsBackend.t :=
  syncDriveNow stringify parse sha256 now true config network
               (stateOf syncDb config).


(** A listening session: a song is played for forty seconds, the user
    presses the skip button, and the next song shows up. *)
Definition song (id title : string) (seconds : Duration)
  : Tracker.SongInfo :=
  {| Tracker.si_songId := id; Tracker.si_songTitle := title;
     Tracker.si_artistId := "artist"; Tracker.si_artistName := "Artist";
     Tracker.si_artistUrl := None; Tracker.si_albumName := None;
     Tracker.si_thumbnailUrl := None; Tracker.si_totalDuration := seconds |}.

Definition session : list Tracker.Event :=
  [ Tracker.Start;
    Tracker.SongCheck (Some (song "a" "A" 200)) 1000 1000 None;
    Tracker.Progress 41000 true;
    Tracker.Click true;
    Tracker.SongCheck (Some (song "b" "B" 180)) 42000 42000 None ].

(** Twenty-five updates of 1.2 seconds each while a song of 48 seconds
    plays, then the next song. *)
Definition ticks : list Tracker.Event :=
  [ Tracker.Start;
    Tracker.SongCheck (Some (song "a" "A" 48)) 0 0 None ]
  ++ ((fun k => Tracker.Progress (1200 * Z.of_nat k) true) <$> seq 1 25)
  ++ [ Tracker.SongCheck (Some (song "b" "B" 180)) 30000 30000 None ].

(** The snapshot of a store that holds [records]. *)
Definition statsOf (records : list PlayRecord) : option StatsData :=
  match computeStats utcHours utcMonth utcYear compareStrings now
                     (Some (dbOf records)) with
  | Returned stats => Some stats
  | Thrown _ => None
  end.

Definition skippedPlay (song artist : string) (ts listened : Z)
  : PlayRecord :=
  {| recordId := None; songId := song; songTitle := song;
     artistId := artist; artistName := artist; artistImageUrl := None;
     albumName := None; thumbnailUrl := None; timestamp := ts;
     durationListened := listened; totalDuration := 200;
     skipped := true; completed := false |}.

(** The store that the backend holds after the tracker ran [events]. *)
Definition storeAfter (events : list Tracker.Event) : StatsDatabase.t :=
  default StatsDatabase.create
    (foldl (fun db r => addRecord r db) (Some StatsDatabase.create)
           (Tracker.invoked (Tracker.run events Tracker.loaded))).

(** A song of 48 seconds, skipped after 31.2 seconds. *)
Definition skipped48 : list Tracker.Event :=
  [ Tracker.Start;
    Tracker.SongCheck (Some (song "a" "A" 48)) 0 0 None;
    Tracker.Progress 31200 true;
    Tracker.Click true;
    Tracker.SongCheck (Some (song "b" "B" 180)) 31200 31200 None ].

(** A live stream, listened to for a minute. *)
Definition live : list Tracker.Event :=
  [ Tracker.Start;
    Tracker.SongCheck (Some (song "radio" "Radio" Infinity)) 0 0 None;
    Tracker.Progress 60000 true;
    Tracker.SongCheck (Some (song "b" "B" 180)) 61000 61000 None ].

(** The store after a song and a live stream, with the aggregate of their
    day. *)
Definition mixedDb : StatsDatabase.t :=
  default StatsDatabase.create
    (aggregateDailyStats utcHours 5000
       (Some (storeAfter (session ++ live)))).

(** The backend after a pass that had to refresh the token of
    [staleConfig]. *)
Definition refreshed : Outcome string * StatsBackend.t :=
  ensureAccessToken now staleConfig (net None) (stateOf syncDb staleConfig).


(** A backend that was connected during this run of the application: the
    session holds the refresh token of the authorization. *)
Definition connected : StatsBackend.t :=
  {| StatsBackend.db := Some syncDb; StatsBackend.isSyncing := false;
     StatsBackend.sessionAccessToken := Some "session-token"%string;
     StatsBackend.sessionAccessTokenExpiry := earlier;
     StatsBackend.sessionRefreshToken := Some "session-refresh"%string;
     StatsBackend.store := syncConfig ""; StatsBackend.journal := [] |}.

End Samples.

(** * Vocabulary of the statements *)

Section Vocabulary.
Import StatsBackend.

Definition notOlder (a b : PlayRecord) : Prop := timestamp b <= timestamp a.

(** The streak count after a run of the handler, if a streak exists. *)
Definition streakCount (db : option StatsDatabase.t) : option Z :=
  match db with
  | Some d => currentStreak <$> StatsDatabase.getStreak d
  | None => None
  end.

(** What the merged map holds at a key, from what the two sides hold. *)
Definition mergedAt {A : Type} (minutes : A -> Q) (l r : option A)
  : option A :=
  match l, r with
  | Some a, Some b =>
      Some (if truthyQ (minutes b) && truthyQ (minutes a)
               && negb (Qle_bool (minutes b) (minutes a))
            then b else a)
  | Some a, None => Some a
  | None, _ => r
  end.

(** The identity of a record for deduplication, as the data model states it. *)
Definition identity (r : PlayRecord)
  : string * string * Z * Z * Duration :=
  (songId r, artistId r, timestamp r, durationListened r, totalDuration r).

(** The records of both sides, local first. *)
Definition bothSides (local remote : Export) : list PlayRecord :=
  default [] (p_playRecords (data local))
  ++ default [] (p_playRecords (data remote)).

Definition mergedRecords (now : Z) (local remote : Export)
  : list PlayRecord :=
  playRecords (eb_data (mergeExports now local remote)).

(** Every entry of the record map sits under the key of its record. *)
Definition keyed (m : list (string * PlayRecord)) : Prop :=
  Forall (fun e => e.1 = recordKey e.2) m.

Fixpoint noBar (s : string) : bool :=
  match s with
  | EmptyString => true
  | String c s' => negb (Ascii.eqb c "|") && noBar s'
  end.

Definition keyOfIdentity (i : string * string * Z * Z * Duration) : string :=
  let '(song, artist, ts, listened, total) := i in
  (song ++ "|" ++ artist ++ "|" ++ numStr ts ++ "|"
   ++ numStr listened ++ "|" ++ durationStr total)%string.

(** Sums over the selected records of a list. *)
Definition sumZ (sel : PlayRecord -> bool) (inc : PlayRecord -> Z)
  (l : list PlayRecord) : Z :=
  foldr (fun r acc => (if sel r then inc r else 0) + acc) 0 l.

(** A map filled by [m.set(key, update(m.get(key), record))]. *)
Definition accStep {K V : Type} `{EqDecision K} (key : PlayRecord -> K)
  (upd : option V -> PlayRecord -> V) (m : list (K * V)) (r : PlayRecord)
  : list (K * V) :=
  Map_set (key r) (upd (Map_get (key r) m) r) m.

(** The updates of the three maps of entries, as functions of the entry
    found under the key. *)
Definition songUpd (o : option SongEntry) (record : PlayRecord) : SongEntry :=
  match o with
  | Some sExisting =>
      {| se_title := se_title sExisting;
         se_artist := se_artist sExisting;
         se_plays := if isQualifiedPlay record
                     then se_plays sExisting + 1 else se_plays sExisting;
         se_minutes := Number.add (se_minutes sExisting) (minutesOf record);
         se_imageUrl := keepFirstImage
                          (se_imageUrl sExisting) (thumbnailUrl record) |}
  | None =>
      {| se_title := songTitle record;
         se_artist := artistName record;
         se_plays := if isQualifiedPlay record then 1 else 0;
         se_minutes := minutesOf record;
         se_imageUrl := thumbnailUrl record |}
  end.

Definition artistUpd (o : option ArtistEntry) (record : PlayRecord)
  : ArtistEntry :=
  match o with
  | Some aExisting =>
      {| ae_name := ae_name aExisting;
         ae_plays := if isQualifiedPlay record
                     then ae_plays aExisting + 1 else ae_plays aExisting;
         ae_minutes := Number.add (ae_minutes aExisting) (minutesOf record);
         ae_imageUrl := keepFirstImage
                          (ae_imageUrl aExisting) (artistImageUrl record) |}
  | None =>
      {| ae_name := artistName record;
         ae_plays := if isQualifiedPlay record then 1 else 0;
         ae_minutes := minutesOf record;
         ae_imageUrl := artistImageUrl record |}
  end.

Definition skipUpd (o : option SkipEntry) (record : PlayRecord) : SkipEntry :=
  match o with
  | Some skipExisting =>
      {| sk_title := sk_title skipExisting;
         sk_artist := sk_artist skipExisting;
         sk_skips := if skipped record then sk_skips skipExisting + 1
                     else sk_skips skipExisting;
         sk_plays := if isQualifiedPlay record
                     then sk_plays skipExisting + 1 else sk_plays skipExisting;
         sk_imageUrl := keepFirstImage
                          (sk_imageUrl skipExisting) (thumbnailUrl record) |}
  | None =>
      {| sk_title := songTitle record;
         sk_artist := artistName record;
         sk_skips := if skipped record then 1 else 0;
         sk_plays := if isQualifiedPlay record then 1 else 0;
         sk_imageUrl := thumbnailUrl record |}
  end.

Definition minutesUpd (o : option Number.t) (record : PlayRecord)
  : Number.t :=
  Number.add (Number.orZero o) (minutesOf record).

(** One unit for a qualified play. *)
Definition qualifiedUnit (r : PlayRecord) : Z :=
  if isQualifiedPlay r then 1 else 0.

(** The number of the selected records that were listened to for at least
    30 seconds. *)
Definition qualifiedPlays (sel : PlayRecord -> bool) (l : list PlayRecord)
  : Z :=
  Z.of_nat (length (filter (fun r => sel r && (30 <=? durationListened r)) l)).

(** [sum + durationListened / 60], one record after the other. *)
Definition addMinutes (sum : Number.t) (l : list PlayRecord) : Number.t :=
  foldl (fun sum r => Number.add sum (minutesOf r)) sum l.

(** The minutes of the selected records, whatever their duration, added up
    from 0 in the order of the list: what [reduce] and a slot of the
    listening clock hold. *)
Definition listenedMinutes (sel : PlayRecord -> bool) (l : list PlayRecord)
  : Number.t :=
  addMinutes Number.zero (filter sel l).

(** The same, started from the minutes of the first selected record: what
    the entry of a song or of an artist holds, if there is one. *)
Definition entryMinutes (sel : PlayRecord -> bool) (l : list PlayRecord)
  : option Number.t :=
  match filter sel l with
  | [] => None
  | r :: rest => Some (addMinutes (minutesOf r) rest)
  end.

(** The same through [(m.get(k) || 0) + durationListened / 60]: what a map
    of numbers holds under a key, if it holds the key. *)
Definition bumpedMinutes (sel : PlayRecord -> bool) (l : list PlayRecord)
  : option Number.t :=
  foldl (fun o r => Some (minutesUpd o r)) None (filter sel l).

Definition monthUpd (o : option (list (string * Number.t)))
  (record : PlayRecord) : list (string * Number.t) :=
  bumpN (artistId record) (minutesOf record) (default [] o).

(** The three tests of [ensureAccessToken], in the order of the code. *)
Definition persistedFresh (now : Z) (config : StatsConfig) : bool :=
  truthy (cloudSyncAccessToken config)
  && truthyZ (cloudSyncAccessTokenExpiry config)
  && (now + 60000 <? default 0 (cloudSyncAccessTokenExpiry config)).

Definition sessionFresh (now : Z) (st : t) : bool :=
  truthy (sessionAccessToken st) && (now + 60000 <? sessionAccessTokenExpiry st).

Definition canRefresh (config : StatsConfig) (st : t) : bool :=
  truthy (cloudSyncClientId config)
  && (truthy (cloudSyncRefreshToken config) || truthy (sessionRefreshToken st)).

Definition refreshRequest (config : StatsConfig) (st : t) : Request :=
  TokenRefresh (default ""%string (cloudSyncClientId config))
               (orEmpty (cloudSyncClientSecret config))
               (orEmpty (orElse (cloudSyncRefreshToken config)
                                (sessionRefreshToken st))).

Definition missingRefreshToken : string :=
  "Missing refresh token. Reconnect Google Drive.".

(** The document that [importData] installs for a parsed object. *)
Definition importedSchema (p : Parsed) : DatabaseSchema :=
  {| playRecords := default [] (p_playRecords p);
     dailyAggregates := default ∅ (p_dailyAggregates p);
     monthlyAggregates := default ∅ (p_monthlyAggregates p);
     streak := p_streak p |}.

(** What a record reads back as after [JSON.stringify] and [JSON.parse]: a
    duration that is not finite comes back as [null]. *)
Definition throughJson (r : PlayRecord) : PlayRecord :=
  {| recordId := recordId r; songId := songId r; songTitle := songTitle r;
     artistId := artistId r; artistName := artistName r;
     artistImageUrl := artistImageUrl r; albumName := albumName r;
     thumbnailUrl := thumbnailUrl r; timestamp := timestamp r;
     durationListened := durationListened r;
     totalDuration := match totalDuration r with
                      | Seconds n => Seconds n
                      | Infinity | Null => Null
                      end;
     skipped := skipped r; completed := completed r |}.

(** The ids of the stored records are 1, 2, ... in the order of the log. *)
Definition numbered (d : StatsDatabase.t) : Prop :=
  recordId <$> playRecords (StatsDatabase.data d)
  = (fun i => Some (Z.of_nat i))
      <$> seq 1 (length (playRecords (StatsDatabase.data d))).

(** Two records that differ at most in their [id]. *)
Definition sameEvent (a b : PlayRecord) : Prop :=
  songId a = songId b /\ songTitle a = songTitle b
  /\ artistId a = artistId b /\ artistName a = artistName b
  /\ artistImageUrl a = artistImageUrl b /\ albumName a = albumName b
  /\ thumbnailUrl a = thumbnailUrl b /\ timestamp a = timestamp b
  /\ durationListened a = durationListened b
  /\ totalDuration a = totalDuration b
  /\ skipped a = skipped b /\ completed a = completed b.

(** The date of the streak after a run of the handler, if a streak exists. *)
Definition streakDate (db : option StatsDatabase.t) : option Z :=
  lastListenDate <$> (db ≫= StatsDatabase.getStreak).

(** The handler of [music-stats:add-play-record], once per event. *)
Definition addRecords (events : list PlayRecord)
  (db : option StatsDatabase.t) : option StatsDatabase.t :=
  foldl (fun s r => addRecord r s) db events.

(** The sum of a list of counters. *)
Definition total (l : list Z) : Z := foldr Z.add 0 l.

(** The number of the selected records, whatever their duration. *)
Definition plays (sel : PlayRecord -> bool) (l : list PlayRecord) : Z :=
  Z.of_nat (length (filter sel l)).

(** *** A pass in terms of what it ends with *)

(** The outcome and the final state of a computation satisfy [Q]. *)
Definition wp {A : Type} (m : M A) (Q : Outcome A -> t -> Prop) (st : t)
  : Prop :=
  Q (m st).1 (m st).2.

(** The requests that write to the remote store. *)
Definition isWrite (rq : Request) : bool :=
  match rq with
  | DriveCreate _ _ | DriveUpdate _ _ _ => true
  | _ => false
  end.

Definition writes (st : t) : nat := length (filter isWrite (journal st)).

(** The synchronisation metadata of the configuration store. *)
Definition syncMeta (st : t) : option string * option Z * option string :=
  (cloudSyncLastHash (store st), cloudSyncLastSyncTime (store st),
   cloudSyncFileId (store st)).

(** What a pass that returns normally has done, by the message it returns:
    whether the local document may have been replaced, and how many write
    requests it sent. *)
Definition passKinds : list (string * (bool * nat)) :=
  [ ("Cloud sync initialized."%string, (false, 1%nat));
    ("Cloud sync updated."%string, (false, 1%nat));
    ("Cloud sync up to date."%string, (false, 0%nat));
    ("Cloud sync merged changes."%string, (true, 1%nat));
    ("Cloud sync pulled updates."%string, (true, 0%nat));
    ("Cloud sync pushed updates."%string, (false, 1%nat)) ].

(** The postcondition of the [try] block, from the state [st0] it starts
    in.  A normal return reports success, has recorded the time, a hash and
    an empty error, and is of one of the six kinds; an exception leaves the
    recorded hash, time and file id alone. *)
Definition syncPost (now : Z) (st0 : t) (o : Outcome SyncResult) (st' : t)
  : Prop :=
  isSyncing st' = isSyncing st0
  /\ (writes st' <= writes st0 + 1)%nat
  /\ match o with
     | Returned r =>
         ok r = true
         /\ cloudSyncLastError (store st') = Some ""%string
         /\ cloudSyncLastSyncTime (store st') = Some now
         /\ is_Some (cloudSyncLastHash (store st'))
         /\ exists replaces sent,
              (message r, (replaces, sent)) ∈ passKinds
              /\ writes st' = (writes st0 + sent)%nat
              /\ (replaces = false -> db st' = db st0)
     | Thrown _ => syncMeta st' = syncMeta st0
     end.

(** What a request does to the state: it is added to the journal. *)
Definition sent (rq : Request) (st : t) : t :=
  {| db := db st; isSyncing := isSyncing st;
     sessionAccessToken := sessionAccessToken st;
     sessionAccessTokenExpiry := sessionAccessTokenExpiry st;
     sessionRefreshToken := sessionRefreshToken st;
     store := store st; journal := journal st ++ [rq] |}.

(** The frame of a step: the flag and the metadata stay, the local document
    stays unless [replaces], and [n] write requests are sent. *)
Definition frame (replaces : bool) (n : nat) (st st' : t) : Prop :=
  isSyncing st' = isSyncing st
  /\ syncMeta st' = syncMeta st
  /\ writes st' = (writes st + n)%nat
  /\ (replaces = false -> db st' = db st).

(** *** Rankings *)

(** The distinct keys of a list, in the order in which they are first met. *)
Fixpoint firstSeen {K : Type} `{EqDecision K} (l : list K) : list K :=
  match l with
  | [] => []
  | k :: l' => k :: filter (fun x => x <> k) (firstSeen l')
  end.

(** The records of a song, and those of an artist. *)
Definition ofSongId (id : string) (r : PlayRecord) : bool :=
  bool_decide (songId r = id).


(** [a] stands before [b] in [l]. *)
Definition earlier {A : Type} (l : list A) (a b : A) : Prop :=
  exists l1 l2, l = l1 ++ a :: l2 /\ b ∈ l2.


(** *** Records of the tracker *)

(** What holds of a record that the tracker keeps.  It carries no id and
    holds the whole seconds of an accumulated time that was not below 30;
    it is marked skipped only if it was not completed, its duration is
    positive and the accumulated time was below that duration times 0.65;
    and it is marked completed only if the accumulated time had reached the
    duration times 0.95.  The products and the comparisons are those of
    doubles. *)
Definition keptPlay (r : PlayRecord) : Prop :=
  recordId r = None
  /\ exists accumulatedTime : Number.t,
       let total := Duration_toNumber (totalDuration r) in
       Number.isFinite accumulatedTime = true
       /\ durationListened r = Math_floor accumulatedTime
       /\ Number.lt accumulatedTime (Number.ofZ 30) = false
       /\ (skipped r = true ->
           completed r = false
           /\ Number.lt Number.zero total = true
           /\ Number.lt accumulatedTime
                        (Number.mul total Tracker.skipThreshold) = true)
       /\ (completed r = true ->
           Number.ge accumulatedTime
                     (Number.mul total Tracker.completedThreshold) = true).

(** The accumulated seconds of the playback in progress are a finite
    number. *)
Definition finitePlayback (tr : Tracker.t) : bool :=
  match Tracker.currentPlayback tr with
  | Some cp => Number.isFinite (Tracker.accumulatedTime cp)
  | None => true
  end.

(** They stay finite during a run of events: no progress update adds up to
    an infinity or to [NaN]. *)
Fixpoint finiteRun (events : list Tracker.Event) (tr : Tracker.t) : bool :=
  match events with
  | [] => true
  | e :: rest =>
      match e, Tracker.currentPlayback tr with
      | Tracker.Progress now playing, Some cp =>
          Number.isFinite (Tracker.accumulated now playing cp)
      | _, _ => true
      end
      && finiteRun rest (Tracker.step tr e)
  end.

(** The elements of a list whose key was not met before, in order. *)
Fixpoint firstBy {A K : Type} `{EqDecision K} (key : A -> K) (l : list A)
  : list A :=
  match l with
  | [] => []
  | x :: l' => x :: filter (fun y => key y <> key x) (firstBy key l')
  end.

(** The records of one side of a merge. *)
Definition recordsOf (e : Export) : list PlayRecord :=
  default [] (p_playRecords (data e)).

(** *** Timers *)

Definition isSyncJob (e : nat * Lifecycle.Job) : bool :=
  match e.2 with Lifecycle.SyncDrive => true | _ => false end.

Definition isAggregationJob (e : nat * Lifecycle.Job) : bool :=
  match e.2 with Lifecycle.AggregateDaily => true | _ => false end.

(** The running intervals of either kind. *)
Definition syncJobs (st : Lifecycle.t) : list (nat * Lifecycle.Job) :=
  filter isSyncJob (Lifecycle.intervals st).

Definition aggregationJobs (st : Lifecycle.t) : list (nat * Lifecycle.Job) :=
  filter isAggregationJob (Lifecycle.intervals st).

(** Whether an event asks for the sync timer. *)
Definition wantsSync (e : Lifecycle.Event) : bool :=
  match e with
  | Lifecycle.ConfigChange cloudSyncEnabled => cloudSyncEnabled
  | Lifecycle.Disconnect => false
  end.

(** The handles of the loop are distinct and below the next one; the sync
    timer of the instance is the one sync interval of the loop, if any;
    the aggregation timer is its one aggregation interval. *)
Definition timersInOrder (st : Lifecycle.t) : Prop :=
  NoDup (Lifecycle.intervals st).*1
  /\ Forall (fun e => (e.1 < Lifecycle.nextHandle st)%nat)
            (Lifecycle.intervals st)
  /\ syncJobs st
     = match Lifecycle.syncTimer st with
       | Some handle => [(handle, Lifecycle.SyncDrive)]
       | None => []
       end
  /\ exists handle,
       Lifecycle.aggregationTimer st = Some handle
       /\ aggregationJobs st = [(handle, Lifecycle.AggregateDaily)].

(** A start of the plugin followed by its stop. *)
Definition restart (cloudSyncEnabled : bool) (st : Lifecycle.t)
  : Lifecycle.t :=
  Lifecycle.pluginStop (Lifecycle.pluginStart cloudSyncEnabled st).

(** The configuration after the user has switched cloud sync on again. *)
Definition withSyncEnabled (c : StatsConfig) : StatsConfig :=
  {| enabled := enabled c; trackingStartDate := trackingStartDate c;
     cloudSyncEnabled := true;
     cloudSyncClientId := cloudSyncClientId c;
     cloudSyncClientSecret := cloudSyncClientSecret c;
     cloudSyncRefreshToken := cloudSyncRefreshToken c;
     cloudSyncAccessToken := cloudSyncAccessToken c;
     cloudSyncAccessTokenExpiry := cloudSyncAccessTokenExpiry c;
     cloudSyncFileId := cloudSyncFileId c;
     cloudSyncLastSyncTime := cloudSyncLastSyncTime c;
     cloudSyncLastHash := cloudSyncLastHash c;
     cloudSyncLastError := cloudSyncLastError c |}.

(** The characters that a URL takes as they are: letters, digits, [-] and
    [_] (the characters of a video id). *)
Definition urlSafe (s : string) : Prop :=
  Forall (fun c => isIdChar c = true) (list_ascii_of_string s).

End Vocabulary.

(** * Properties *)

(** ** The stable sort *)

Section SortFacts.
Context {A : Type} (gt : A -> A -> bool).

Lemma insertBy_perm (x : A) (l : list A) : insertBy gt x l ≡ₚ x :: l.
Proof.
  induction l as [|y l IH]; simpl; [done|].
  destruct (gt x y); [|done].
  rewrite IH. apply Permutation_swap.
Qed.

Lemma sortBy_perm (l : list A) : sortBy gt l ≡ₚ l.
Proof.
  induction l as [|x l IH]; simpl; [done|].
  unfold sortBy in *. simpl. rewrite insertBy_perm. by rewrite IH.
Qed.

Lemma sortBy_length (l : list A) : length (sortBy gt l) = length l.
Proof. apply Permutation_length, sortBy_perm. Qed.



Context (R : relation A) `{!Transitive R}.
Hypothesis gt_false : forall x y, gt x y = false -> R x y.
Hypothesis gt_true : forall x y, gt x y = true -> R y x.

Lemma insertBy_sorted (x : A) (l : list A) :
  StronglySorted R l -> StronglySorted R (insertBy gt x l).
Proof.
  induction 1 as [|y l Hl IH Hy]; simpl.
  - repeat constructor.
  - destruct (gt x y) eqn:E.
    + constructor; [done|].
      rewrite insertBy_perm. constructor; [by apply gt_true | done].
    + constructor; [by constructor|].
      constructor; [by apply gt_false|].
      eapply Forall_impl; [exact Hy|]. intros z Hz.
      etrans; [by apply gt_false | done].
Qed.

Lemma sortBy_sorted (l : list A) : StronglySorted R (sortBy gt l).
Proof.
  induction l as [|x l IH]; [constructor|].
  unfold sortBy in *. simpl. by apply insertBy_sorted.
Qed.
End SortFacts.

(** ** StatsDatabase.getPlayRecords *)

Lemma getPlayRecords_newest_first (startDate endDate : option Z)
  (db : StatsDatabase.t) :
  StronglySorted notOlder (StatsDatabase.getPlayRecords startDate endDate db).
Proof.
  unfold StatsDatabase.getPlayRecords.
  apply sortBy_sorted.
  - intros x y z. unfold notOlder. lia.
  - intros x y. unfold StatsDatabase.newerFirst, notOlder.
    rewrite Z.ltb_ge. lia.
  - intros x y. unfold StatsDatabase.newerFirst, notOlder.
    rewrite Z.ltb_lt. lia.
Qed.

Lemma getPlayRecords_all (db : StatsDatabase.t) :
  StatsDatabase.getPlayRecords None None db
  ≡ₚ playRecords (StatsDatabase.data db).
Proof. unfold StatsDatabase.getPlayRecords. simpl. apply sortBy_perm. Qed.

(** With two bounds that are not [0], the records returned are exactly the
    stored records inside the bounds. *)
Lemma getPlayRecords_between (s e : Z) (db : StatsDatabase.t) :
  s <> 0 -> e <> 0 ->
  StatsDatabase.getPlayRecords (Some s) (Some e) db
  ≡ₚ filter (fun r => s <= timestamp r /\ timestamp r <= e)
            (playRecords (StatsDatabase.data db)).
Proof.
  intros Hs He. unfold StatsDatabase.getPlayRecords. simpl.
  destruct (Z.eqb_spec s 0); [done|]. destruct (Z.eqb_spec e 0); [done|].
  simpl. rewrite sortBy_perm.
  erewrite list_filter_iff; [done|].
  intros r. simpl. by rewrite bool_decide_spec.
Qed.

(** C7.  [getPlayRecords] filters only when [startDate] is given: with an end
    bound alone no filter is applied.  Here the store holds one record at
    timestamp 100 and the query asks for the records up to 50; the record is
    returned although it lies outside the bound. *)
Theorem getPlayRecords_end_bound_alone_ignored :
  StatsDatabase.getPlayRecords None (Some 50)
    (Samples.dbOf [Samples.play "s" "a" 100 40])
  = [Samples.play "s" "a" 100 40]
  /\ ~ (timestamp (Samples.play "s" "a" 100 40) <= 50).
Proof. split; [reflexivity | simpl; lia]. Qed.

(** ** StatsBackend.updateStreak *)

Lemma diffDays_spec (today lastListen : Z) :
  StatsBackend.diffDays today lastListen = today - lastListen.
Proof.
  unfold StatsBackend.diffDays, dateTime, msPerDay.
  replace (today * (24 * 60 * 60 * 1000) - lastListen * (24 * 60 * 60 * 1000))
    with ((today - lastListen) * (24 * 60 * 60 * 1000)) by lia.
  apply Z.div_mul. lia.
Qed.

Lemma updateStreak_no_record (ts : Z) (d : StatsDatabase.t) :
  StatsDatabase.getStreak d = None ->
  StatsBackend.updateStreak ts (Some d)
  = Some (StatsDatabase.updateStreak (isoDate ts) 1 d).
Proof. intros H. unfold StatsBackend.updateStreak. by rewrite H. Qed.

Lemma updateStreak_record (ts : Z) (d : StatsDatabase.t) (s : Streak) :
  StatsDatabase.getStreak d = Some s ->
  StatsBackend.updateStreak ts (Some d)
  = Some (if isoDate ts - lastListenDate s =? 1
          then StatsDatabase.updateStreak (isoDate ts) (currentStreak s + 1) d
          else if 1 <? isoDate ts - lastListenDate s
               then StatsDatabase.updateStreak (isoDate ts) 1 d
               else d).
Proof.
  intros H. unfold StatsBackend.updateStreak. rewrite H, diffDays_spec.
  by repeat case_match.
Qed.

Lemma addRecord_streak (r : PlayRecord) (d : StatsDatabase.t) :
  streakCount (StatsBackend.addRecord r (Some d))
  = Some match StatsDatabase.getStreak d with
         | None => 1
         | Some s =>
             if isoDate (timestamp r) - lastListenDate s =? 1
             then currentStreak s + 1
             else if 1 <? isoDate (timestamp r) - lastListenDate s then 1
                  else currentStreak s
         end
  /\ (lastListenDate <$>
        (StatsBackend.addRecord r (Some d) ≫= StatsDatabase.getStreak))
     = Some match StatsDatabase.getStreak d with
            | None => isoDate (timestamp r)
            | Some s =>
                if 1 <=? isoDate (timestamp r) - lastListenDate s
                then isoDate (timestamp r) else lastListenDate s
            end.
Proof.
  unfold StatsBackend.addRecord.
  destruct (StatsDatabase.getStreak d) as [s|] eqn:E.
  - erewrite updateStreak_record by exact E.
    destruct (Z.eqb_spec (isoDate (timestamp r) - lastListenDate s) 1);
      [|destruct (Z.ltb_spec 1 (isoDate (timestamp r) - lastListenDate s))];
      destruct (Z.leb_spec 1 (isoDate (timestamp r) - lastListenDate s));
      try lia; simpl; try done.
    all: unfold StatsDatabase.getStreak in *; simpl; by rewrite E.
  - erewrite updateStreak_no_record by exact E. done.
Qed.

(** C5.  The streak update follows the four cases on the day difference
    between the event's date and the stored [lastListenDate]: 0 leaves the
    record unchanged, 1 increments the count and advances the date, more
    than 1 resets the count to 1 and advances the date, a negative difference
    leaves the record unchanged; without a streak record one is created with
    count 1.  Hence events on days D, D, D+1, D+3, delivered in that order to
    a store without a streak, give the counts 1, 1, 2, 1. *)
Theorem updateStreak_four_cases :
  (forall ts d, StatsDatabase.getStreak d = None ->
     StatsBackend.updateStreak ts (Some d)
     = Some (StatsDatabase.updateStreak (isoDate ts) 1 d))
  /\ (forall ts d s, StatsDatabase.getStreak d = Some s ->
      let diff := isoDate ts - lastListenDate s in
      (diff = 0 -> StatsBackend.updateStreak ts (Some d) = Some d)
      /\ (diff = 1 ->
          StatsBackend.updateStreak ts (Some d)
          = Some (StatsDatabase.updateStreak
                    (isoDate ts) (currentStreak s + 1) d))
      /\ (1 < diff ->
          StatsBackend.updateStreak ts (Some d)
          = Some (StatsDatabase.updateStreak (isoDate ts) 1 d))
      /\ (diff < 0 -> StatsBackend.updateStreak ts (Some d) = Some d))
  /\ (forall D r1 r2 r3 r4 d,
      StatsDatabase.getStreak d = None ->
      isoDate (timestamp r1) = D -> isoDate (timestamp r2) = D ->
      isoDate (timestamp r3) = D + 1 -> isoDate (timestamp r4) = D + 3 ->
      let s1 := StatsBackend.addRecord r1 (Some d) in
      let s2 := StatsBackend.addRecord r2 s1 in
      let s3 := StatsBackend.addRecord r3 s2 in
      let s4 := StatsBackend.addRecord r4 s3 in
      [streakCount s1; streakCount s2; streakCount s3; streakCount s4]
      = [Some 1; Some 1; Some 2; Some 1]).
Proof.
  split; [exact updateStreak_no_record|]. split.
  - intros ts d s H diff. subst diff.
    rewrite (updateStreak_record ts d s H).
    repeat split; intros Hd.
    + rewrite Hd. reflexivity.
    + rewrite Hd. reflexivity.
    + destruct (Z.eqb_spec (isoDate ts - lastListenDate s) 1); [lia|].
      destruct (Z.ltb_spec 1 (isoDate ts - lastListenDate s)); [done|lia].
    + destruct (Z.eqb_spec (isoDate ts - lastListenDate s) 1); [lia|].
      destruct (Z.ltb_spec 1 (isoDate ts - lastListenDate s)); [lia|done].
  - intros D r1 r2 r3 r4 d Hnone H1 H2 H3 H4 s1 s2 s3 s4.
    assert (forall r (o : option StatsDatabase.t) c l,
      streakCount o = Some c ->
      lastListenDate <$> (o ≫= StatsDatabase.getStreak) = Some l ->
      streakCount (StatsBackend.addRecord r o)
      = Some (if isoDate (timestamp r) - l =? 1 then c + 1
              else if 1 <? isoDate (timestamp r) - l then 1 else c)
      /\ lastListenDate <$>
           (StatsBackend.addRecord r o ≫= StatsDatabase.getStreak)
         = Some (if 1 <=? isoDate (timestamp r) - l
                 then isoDate (timestamp r) else l)) as Hstep.
    { intros r [d0|] c l Hc Hl; [|done].
      destruct (addRecord_streak r d0) as [Ha Hb]. rewrite Ha, Hb.
      simpl in Hc, Hl. destruct (StatsDatabase.getStreak d0) as [s|]; [|done].
      simpl in *. by simplify_eq. }
    destruct (addRecord_streak r1 d) as [Hc1 Hl1].
    rewrite Hnone in Hc1, Hl1. rewrite H1 in Hl1. fold s1 in Hc1, Hl1.
    destruct (Hstep r2 s1 _ _ Hc1 Hl1) as [Hc2 Hl2].
    rewrite H2 in Hc2, Hl2. fold s2 in Hc2, Hl2.
    replace (D - D) with 0 in Hc2, Hl2 by lia. simpl in Hc2, Hl2.
    destruct (Hstep r3 s2 _ _ Hc2 Hl2) as [Hc3 Hl3].
    rewrite H3 in Hc3, Hl3. fold s3 in Hc3, Hl3.
    replace (D + 1 - D) with 1 in Hc3, Hl3 by lia. simpl in Hc3, Hl3.
    destruct (Hstep r4 s3 _ _ Hc3 Hl3) as [Hc4 _].
    rewrite H4 in Hc4. fold s4 in Hc4.
    replace (D + 3 - (D + 1)) with 2 in Hc4 by lia. simpl in Hc4.
    by rewrite Hc1, Hc2, Hc3, Hc4.
Qed.

Lemma updateStreak_four_cases_witness :
  let d := Samples.dbOf [] in
  let r1 := Samples.play "s" "a" 1000 40 in
  let r2 := Samples.play "s" "a" 5000 40 in
  let r3 := Samples.play "s" "a" (msPerDay + 7) 40 in
  let r4 := Samples.play "s" "a" (3 * msPerDay + 9) 40 in
  let s1 := StatsBackend.addRecord r1 (Some d) in
  let s2 := StatsBackend.addRecord r2 s1 in
  let s3 := StatsBackend.addRecord r3 s2 in
  let s4 := StatsBackend.addRecord r4 s3 in
  [streakCount s1; streakCount s2; streakCount s3; streakCount s4]
  = [Some 1; Some 1; Some 2; Some 1].
Proof.
  exact (proj2 (proj2 updateStreak_four_cases) 0
           (Samples.play "s" "a" 1000 40) (Samples.play "s" "a" 5000 40)
           (Samples.play "s" "a" (msPerDay + 7) 40)
           (Samples.play "s" "a" (3 * msPerDay + 9) 40)
           (Samples.dbOf []) eq_refl eq_refl eq_refl eq_refl eq_refl).
Defined.

(** ** StatsBackend.aggregateDailyStats *)

Lemma recordsOfToday_same_day (now1 now2 : Z) (d1 d2 : StatsDatabase.t) :
  isoDate now1 = isoDate now2 ->
  playRecords (StatsDatabase.data d1) = playRecords (StatsDatabase.data d2) ->
  StatsBackend.recordsOfToday now1 d1 = StatsBackend.recordsOfToday now2 d2.
Proof.
  intros Hday Hrec.
  unfold StatsBackend.recordsOfToday, StatsDatabase.getPlayRecords.
  by rewrite Hday, Hrec.
Qed.

Lemma saveDailyAggregate_twice (date : Z) (a b : DailyAggregate)
  (d : StatsDatabase.t) :
  StatsDatabase.saveDailyAggregate date a
    (StatsDatabase.saveDailyAggregate date b d)
  = StatsDatabase.saveDailyAggregate date a d.
Proof.
  unfold StatsDatabase.saveDailyAggregate, StatsDatabase.markDirty. simpl.
  by rewrite insert_insert_eq.
Qed.

(** C9.  Daily aggregation is idempotent and empty-safe.  A second run on
    the same UTC day sees the same records, computes the same aggregate and
    leaves the store as the first run left it; a run that finds no record
    for the day writes nothing, so the stored aggregates (and the dirty flag)
    are untouched. *)
Theorem aggregateDailyStats_idempotent (getHours : Z -> nat) (now1 now2 : Z)
  (d : StatsDatabase.t) :
  isoDate now1 = isoDate now2 ->
  (forall d1, StatsBackend.aggregateDailyStats getHours now1 (Some d) = Some d1 ->
     StatsBackend.dailyAggregateOf getHours (isoDate now2)
       (StatsBackend.recordsOfToday now2 d1)
     = StatsBackend.dailyAggregateOf getHours (isoDate now1)
         (StatsBackend.recordsOfToday now1 d))
  /\ StatsBackend.aggregateDailyStats getHours now2
       (StatsBackend.aggregateDailyStats getHours now1 (Some d))
     = StatsBackend.aggregateDailyStats getHours now1 (Some d)
  /\ (StatsBackend.recordsOfToday now1 d = [] ->
      StatsBackend.aggregateDailyStats getHours now1 (Some d) = Some d).
Proof.
  intros Hday.
  assert (forall d1,
    StatsBackend.aggregateDailyStats getHours now1 (Some d) = Some d1 ->
    playRecords (StatsDatabase.data d1) = playRecords (StatsDatabase.data d))
    as Hkeep.
  { intros d1. unfold StatsBackend.aggregateDailyStats.
    case_match; intros [= <-]; done. }
  split; [|split].
  - intros d1 H1. rewrite <- Hday.
    by rewrite (recordsOfToday_same_day now2 now1 d1 d (eq_sym Hday) (Hkeep d1 H1)).
  - unfold StatsBackend.aggregateDailyStats at 2.
    destruct (length (StatsBackend.recordsOfToday now1 d) =? 0)%nat eqn:E.
    + unfold StatsBackend.aggregateDailyStats.
      rewrite <- (recordsOfToday_same_day now1 now2 d d Hday eq_refl).
      by rewrite E.
    + unfold StatsBackend.aggregateDailyStats.
      rewrite <- (recordsOfToday_same_day now1 now2 d
                    (StatsDatabase.saveDailyAggregate _ _ d) Hday eq_refl).
      rewrite E, <- Hday. by rewrite saveDailyAggregate_twice.
  - intros Hnil. unfold StatsBackend.aggregateDailyStats. by rewrite Hnil.
Qed.

Lemma aggregateDailyStats_idempotent_witness :
  let getHours := fun ts : Z => Z.to_nat ((ts / 3600000) mod 24) in
  let d := Samples.dbOf [Samples.play "s" "a" 500 40] in
  StatsBackend.aggregateDailyStats getHours 2000
    (StatsBackend.aggregateDailyStats getHours 1000 (Some d))
  = StatsBackend.aggregateDailyStats getHours 1000 (Some d).
Proof.
  exact (proj1 (proj2 (aggregateDailyStats_idempotent
           (fun ts : Z => Z.to_nat ((ts / 3600000) mod 24)) 1000 2000
           (Samples.dbOf [Samples.play "s" "a" 500 40]) eq_refl))).
Defined.

(** ** Export and import *)

(** C10, at a store that holds a play of a live stream.  The tracker hands
    the record of [Samples.live] to the backend with the duration
    [Infinity], since [getSongInfo] floors an infinite [video.duration], and
    the backend stores it.  [exportData] writes that duration as [null], as
    [JSON.stringify] writes every number that is not finite, and
    [importData] installs the record with the duration [null]: the import
    succeeds, the aggregates and the streak are those of the exporting
    store, and the play records are not. *)
Theorem export_import_loses_infinite_duration :
  let db := Samples.storeAfter Samples.live in
  let text := StatsDatabase.exportData JSON.stringify Samples.now db in
  let run :=
    StatsDatabase.importData JSON.parse true text StatsDatabase.create in
  totalDuration <$> playRecords (StatsDatabase.data db) = [Infinity]
  /\ JSON.field "totalDuration"
       <$> JSON.toList id (JSON.read text ≫= JSON.field "playRecords")
     = [Some JSON.null]
  /\ run.1 = Returned tt
  /\ totalDuration <$> playRecords (StatsDatabase.data run.2) = [Null]
  /\ playRecords (StatsDatabase.data run.2)
     <> playRecords (StatsDatabase.data db)
  /\ dailyAggregates (StatsDatabase.data run.2)
     = dailyAggregates (StatsDatabase.data db)
  /\ monthlyAggregates (StatsDatabase.data run.2)
     = monthlyAggregates (StatsDatabase.data db)
  /\ streak (StatsDatabase.data run.2) = streak (StatsDatabase.data db).
Proof.
  vm_compute. repeat split; try reflexivity. discriminate.
Qed.

(** A store whose durations are finite, with the aggregate of a day and a
    streak, is restored by the round trip. *)
Example export_import_restores_finite :
  let db :=
    default StatsDatabase.create
      (StatsBackend.aggregateDailyStats Samples.utcHours 5000
         (Some (Samples.storeAfter Samples.session))) in
  let text := StatsDatabase.exportData JSON.stringify Samples.now db in
  dom (dailyAggregates (StatsDatabase.data db)) = {[ 0 ]}
  /\ (StatsDatabase.importData JSON.parse true text StatsDatabase.create).1
     = Returned tt
  /\ StatsDatabase.data
       (StatsDatabase.importData JSON.parse true text StatsDatabase.create).2
     = StatsDatabase.data db.
Proof. vm_compute. repeat split; reflexivity. Qed.

(** ** Insertion-ordered maps *)

Section JsMapFacts.
Context {K V : Type} `{EqDecision K}.
Implicit Types (k : K) (v : V) (m : list (K * V)).

Lemma Map_get_set_eq k v m : Map_get k (Map_set k v m) = Some v.
Proof.
  induction m as [|[k' v'] m IH]; simpl.
  - by rewrite decide_True.
  - destruct (decide (k' = k)) as [->|Hne]; simpl.
    + by rewrite decide_True.
    + by rewrite decide_False.
Qed.

Lemma Map_get_set_ne k k' v m :
  k <> k' -> Map_get k' (Map_set k v m) = Map_get k' m.
Proof.
  intros Hne. induction m as [|[k0 v0] m IH]; simpl.
  - by rewrite decide_False.
  - destruct (decide (k0 = k)) as [->|Hne0]; simpl.
    + by rewrite !decide_False.
    + destruct (decide (k0 = k')); [done | exact IH].
Qed.

Lemma Map_get_set k k' v m :
  Map_get k' (Map_set k v m)
  = if decide (k = k') then Some v else Map_get k' m.
Proof.
  destruct (decide (k = k')) as [->|Hne].
  - apply Map_get_set_eq.
  - by apply Map_get_set_ne.
Qed.

Lemma Map_get_None k m : Map_get k m = None <-> k ∉ m.*1.
Proof.
  induction m as [|[k' v'] m IH]; simpl.
  - split; [intros _; apply not_elem_of_nil | done].
  - rewrite not_elem_of_cons. destruct (decide (k' = k)) as [->|Hne].
    + split; [done | intros [? _]; done].
    + rewrite IH. split; [intros ?; split; [congruence | done] | by intros []].
Qed.

Lemma Map_get_Some_elem k v m : Map_get k m = Some v -> (k, v) ∈ m.
Proof.
  induction m as [|[k' v'] m IH]; simpl; [done|].
  destruct (decide (k' = k)) as [->|Hne].
  - intros [= ->]. apply elem_of_cons. by left.
  - intros H. apply elem_of_cons. right. by apply IH.
Qed.

Lemma Map_elem_get k v m : NoDup m.*1 -> (k, v) ∈ m -> Map_get k m = Some v.
Proof.
  induction m as [|[k' v'] m IH]; simpl; intros Hnd Hin.
  - by apply elem_of_nil in Hin.
  - apply NoDup_cons in Hnd as [Hk Hnd].
    apply elem_of_cons in Hin as [[= <- <-]|Hin].
    + by rewrite decide_True.
    + destruct (decide (k' = k)) as [->|Hne]; [|by apply IH].
      exfalso. apply Hk. apply list_elem_of_fmap. by exists (k, v).
Qed.

Lemma Map_set_keys k v m :
  (Map_set k v m).*1 = if Map_has k m then m.*1 else m.*1 ++ [k].
Proof.
  unfold Map_has. induction m as [|[k' v'] m IH]; csimpl; [done|].
  destruct (decide (k' = k)) as [->|Hne]; csimpl; [done|].
  rewrite IH. by destruct (Map_get k m).
Qed.

Lemma Map_set_NoDup k v m : NoDup m.*1 -> NoDup (Map_set k v m).*1.
Proof.
  intros Hnd. rewrite Map_set_keys. unfold Map_has.
  destruct (Map_get k m) eqn:E; [done|].
  apply NoDup_app. split; [done|]. split; [|apply NoDup_singleton].
  intros x Hx Hx'. apply list_elem_of_singleton in Hx' as ->.
  by apply Map_get_None in E.
Qed.
End JsMapFacts.

(** ** mergeAggregate *)

Section MergeAggregate.
Context {K A : Type} `{Countable K} (minutes : A -> Q).

Lemma mergeAggregate_lookup (left right : gmap K A) (k : K) :
  StatsBackend.mergeAggregate minutes left right !! k
  = mergedAt minutes (left !! k) (right !! k).
Proof.
  unfold StatsBackend.mergeAggregate. revert k.
  apply (map_fold_weak_ind
           (fun result m => forall k, result !! k = mergedAt minutes (left !! k) (m !! k))).
  - intros k. rewrite lookup_empty. unfold mergedAt. by destruct (left !! k).
  - intros i x m r Hi IH k. unfold StatsBackend.mergeAggregateStep.
    destruct (decide (i = k)) as [->|Hne].
    + assert (r !! k = left !! k) as Hr.
      { rewrite IH, Hi. unfold mergedAt. by destruct (left !! k). }
      rewrite Hr, (lookup_insert_eq m). unfold mergedAt.
      destruct (left !! k) as [a|] eqn:El.
      * destruct (StatsBackend.truthyQ (minutes x)),
                 (StatsBackend.truthyQ (minutes a)); simpl;
          rewrite ?lookup_insert_eq; try done; by rewrite Hr.
      * by rewrite lookup_insert_eq.
    + rewrite (lookup_insert_ne m) by done. rewrite <- IH.
      destruct (r !! i); [case_match|]; by rewrite ?lookup_insert_ne.
Qed.

Lemma mergeAggregate_dom (left right : gmap K A) :
  dom (StatsBackend.mergeAggregate minutes left right) = dom left ∪ dom right.
Proof.
  apply set_eq. intros k. rewrite elem_of_union, !elem_of_dom.
  rewrite mergeAggregate_lookup. unfold mergedAt.
  unfold is_Some. destruct (left !! k), (right !! k); simpl; intuition eauto.
Qed.
End MergeAggregate.

Lemma truthyQ_true (q : Q) : StatsBackend.truthyQ q = true <-> ~ (q == 0)%Q.
Proof.
  unfold StatsBackend.truthyQ. rewrite negb_true_iff.
  rewrite <- Qeq_bool_iff. by destruct (Qeq_bool q 0).
Qed.

Lemma truthyQ_false (q : Q) : StatsBackend.truthyQ q = false <-> (q == 0)%Q.
Proof.
  unfold StatsBackend.truthyQ. rewrite negb_false_iff. apply Qeq_bool_iff.
Qed.

Lemma Qle_bool_false (a b : Q) : Qle_bool a b = false <-> (b < a)%Q.
Proof.
  split.
  - intros Hf. apply Qnot_le_lt. intros Hle.
    apply Qle_bool_iff in Hle. congruence.
  - intros Hlt. destruct (Qle_bool a b) eqn:E; [|done].
    apply Qle_bool_iff in E. by apply Qlt_not_le in Hlt.
Qed.

(** C2 (as the code has it).  A key held by one map only is kept as it is.
    For a key held by both, the merged map keeps the side with the larger
    [totalMinutes], the local (left) side on a tie, provided both totals are
    different from zero; when one of the two totals is zero the guard
    [value.totalMinutes && result[key].totalMinutes] fails and the local side
    is kept, whatever the other side reports. *)
Theorem mergeAggregate_keeps_larger {K A : Type} `{Countable K}
  (minutes : A -> Q) (left right : gmap K A) (k : K) :
  let merged := StatsBackend.mergeAggregate minutes left right in
  (left !! k = None -> merged !! k = right !! k)
  /\ (right !! k = None -> merged !! k = left !! k)
  /\ (forall a b, left !! k = Some a -> right !! k = Some b ->
      (~ (minutes a == 0)%Q -> ~ (minutes b == 0)%Q ->
       (minutes a < minutes b)%Q -> merged !! k = Some b)
      /\ (~ (minutes a == 0)%Q -> ~ (minutes b == 0)%Q ->
          (minutes b <= minutes a)%Q -> merged !! k = Some a)
      /\ ((minutes a == 0)%Q \/ (minutes b == 0)%Q -> merged !! k = Some a)).
Proof.
  intros merged. subst merged.
  rewrite mergeAggregate_lookup. unfold mergedAt.
  split; [by intros ->|]. split; [intros ->; by destruct (left !! k)|].
  intros a b -> ->. repeat split.
  - intros Ha Hb Hlt.
    apply truthyQ_true in Ha, Hb. apply Qle_bool_false in Hlt.
    by rewrite Ha, Hb, Hlt.
  - intros _ _ Hle. apply Qle_bool_iff in Hle. rewrite Hle.
    by rewrite andb_false_r.
  - intros [Hz|Hz]; apply truthyQ_false in Hz; rewrite Hz;
      by rewrite ?andb_false_r.
Qed.

Lemma mergeAggregate_keeps_larger_witness :
  StatsBackend.mergeAggregate da_totalMinutes
    {[ 1 := Samples.sampleDay 1 3%Q ]}
    {[ 1 := Samples.sampleDay 1 5%Q ]} !! 1
  = Some (Samples.sampleDay 1 5%Q).
Proof.
  refine (proj1 (proj2 (proj2 (mergeAggregate_keeps_larger da_totalMinutes
            {[ 1 := Samples.sampleDay 1 3%Q ]}
            {[ 1 := Samples.sampleDay 1 5%Q ]} 1))
            (Samples.sampleDay 1 3%Q) (Samples.sampleDay 1 5%Q)
            _ _) _ _ _).
  - apply lookup_singleton_eq.
  - apply lookup_singleton_eq.
  - simpl. discriminate.
  - simpl. discriminate.
  - simpl. reflexivity.
Defined.

(** C2, counterexample.  Both maps hold day 1; the local aggregate reports 0
    minutes and the remote one 5.  The merged map keeps the local aggregate,
    not the side with the larger [totalMinutes]. *)
Lemma mergeAggregate_zero_keeps_local :
  (da_totalMinutes (Samples.sampleDay 1 0%Q)
   < da_totalMinutes (Samples.sampleDay 1 5%Q))%Q
  /\ StatsBackend.mergeAggregate da_totalMinutes
       {[ 1 := Samples.sampleDay 1 0%Q ]}
       {[ 1 := Samples.sampleDay 1 5%Q ]} !! 1
     = Some (Samples.sampleDay 1 0%Q).
Proof.
  split; [reflexivity|].
  rewrite mergeAggregate_lookup, !lookup_singleton_eq. reflexivity.
Qed.

(** ** mergeExports *)

Lemma Map_set_keyed (r : PlayRecord) (m : list (string * PlayRecord)) :
  keyed m -> keyed (Map_set (StatsBackend.recordKey r) r m).
Proof.
  unfold keyed. induction 1 as [|[k v] m Hk Hm IH]; simpl.
  - by repeat constructor.
  - destruct (decide (k = StatsBackend.recordKey r)); by constructor.
Qed.

Lemma recordStep_fold (l : list PlayRecord) (m : list (string * PlayRecord)) :
  keyed m -> NoDup m.*1 ->
  let m' := foldl StatsBackend.recordStep m l in
  keyed m' /\ NoDup m'.*1
  /\ (forall k, k ∈ m'.*1 <-> k ∈ m.*1 \/ k ∈ StatsBackend.recordKey <$> l)
  /\ (forall e, e ∈ m' -> e ∈ m \/ e.2 ∈ l).
Proof.
  revert m. induction l as [|r l IH]; intros m Hk Hnd; simpl.
  - repeat split; try done.
    + intros Hin. by left.
    + intros [Hin|Hin]; [done | by apply elem_of_nil in Hin].
    + intros e He. by left.
  - unfold StatsBackend.recordStep at 2 4 6 8. unfold Map_has.
    destruct (Map_get (StatsBackend.recordKey r) m) as [v|] eqn:E; simpl.
    + destruct (IH m Hk Hnd) as (Hk' & Hnd' & Hkeys & Hvals).
      repeat split; try done.
      * intros Hin. apply Hkeys in Hin as [Hin|Hin]; [by left|].
        right. apply elem_of_cons. by right.
      * intros [Hin|Hin]; apply Hkeys; [by left|].
        apply elem_of_cons in Hin as [->|Hin]; [|by right].
        left. apply Map_get_Some_elem in E.
        apply list_elem_of_fmap. by exists (StatsBackend.recordKey r, v).
      * intros e He. apply Hvals in He as [He|He]; [by left|].
        right. apply elem_of_cons. by right.
    + pose proof (Map_set_keyed r m Hk) as Hk1.
      pose proof (Map_set_NoDup (StatsBackend.recordKey r) r m Hnd) as Hnd1.
      destruct (IH _ Hk1 Hnd1) as (Hk' & Hnd' & Hkeys & Hvals).
      assert ((Map_set (StatsBackend.recordKey r) r m).*1
              = m.*1 ++ [StatsBackend.recordKey r]) as Hset.
      { rewrite Map_set_keys. unfold Map_has. by rewrite E. }
      repeat split; try done.
      * intros Hin. apply Hkeys in Hin as [Hin|Hin].
        -- rewrite Hset in Hin. apply elem_of_app in Hin as [Hin|Hin];
             [by left|].
           apply list_elem_of_singleton in Hin as ->.
           right. apply elem_of_cons. by left.
        -- right. apply elem_of_cons. by right.
      * intros Hin. apply Hkeys. rewrite Hset.
        destruct Hin as [Hin|Hin].
        -- left. apply elem_of_app. by left.
        -- apply elem_of_cons in Hin as [->|Hin]; [|by right].
           left. apply elem_of_app. right. by apply list_elem_of_singleton.
      * intros e He. apply Hvals in He as [He|He].
        -- destruct e as [k v].
           destruct (decide (k = StatsBackend.recordKey r)) as [->|Hne].
           ++ right. apply elem_of_cons. left.
              apply (Map_elem_get _ _ _ Hnd1) in He.
              rewrite Map_get_set_eq in He. by simplify_eq.
           ++ left. apply Map_get_Some_elem.
              apply (Map_elem_get _ _ _ Hnd1) in He.
              by rewrite Map_get_set_ne in He.
        -- right. apply elem_of_cons. by right.
Qed.

(** The merged record list holds one record per key, takes its records from
    the two sides, and holds a record for the key of every record of either
    side. *)
Lemma mergeExports_records (now : Z) (local remote : StatsBackend.Export) :
  let merged := mergedRecords now local remote in
  NoDup (StatsBackend.recordKey <$> merged)
  /\ (forall r, r ∈ merged -> r ∈ bothSides local remote)
  /\ (forall k, k ∈ StatsBackend.recordKey <$> merged
              <-> k ∈ StatsBackend.recordKey <$> bothSides local remote).
Proof.
  unfold mergedRecords, StatsBackend.mergeExports. simpl.
  fold (bothSides local remote).
  destruct (recordStep_fold (bothSides local remote) [])
    as (Hk & Hnd & Hkeys & Hvals); [constructor | constructor |].
  set (m := foldl StatsBackend.recordStep [] (bothSides local remote)) in *.
  assert (StatsBackend.recordKey <$> m.*2 = m.*1) as Hfst.
  { clear -Hk. induction Hk as [|[k v] m Hkv _ IH]; csimpl; [done|].
    simpl in Hkv. by rewrite IH, Hkv. }
  rewrite Hfst. split; [done|]. split.
  - intros r Hr. apply list_elem_of_fmap in Hr as ([k v] & -> & He).
    apply Hvals in He as [He|He]; [by apply elem_of_nil in He | done].
  - intros k. rewrite Hkeys. split; [|by right].
    intros [Hin|Hin]; [by apply elem_of_nil in Hin | done].
Qed.

(** Merging in either order gives the same set of record keys and the same
    sets of aggregate keys. *)
Lemma mergeExports_keys_symmetric (now : Z) (a b : StatsBackend.Export) :
  (forall k, k ∈ StatsBackend.recordKey <$> mergedRecords now a b
           <-> k ∈ StatsBackend.recordKey <$> mergedRecords now b a)
  /\ dom (dailyAggregates (eb_data (StatsBackend.mergeExports now a b)))
     = dom (dailyAggregates (eb_data (StatsBackend.mergeExports now b a)))
  /\ dom (monthlyAggregates (eb_data (StatsBackend.mergeExports now a b)))
     = dom (monthlyAggregates (eb_data (StatsBackend.mergeExports now b a))).
Proof.
  split; [|split].
  - intros k.
    destruct (mergeExports_records now a b) as (_ & _ & Hab).
    destruct (mergeExports_records now b a) as (_ & _ & Hba).
    rewrite Hab, Hba. unfold bothSides. rewrite !fmap_app, !elem_of_app.
    tauto.
  - simpl. rewrite !mergeAggregate_dom. apply union_comm_L.
  - simpl. rewrite !mergeAggregate_dom. apply union_comm_L.
Qed.

(** C6.  The key of the record map joins the five identity fields with a
    vertical bar, so two records with different identity tuples can share a
    key when an id contains a bar (ids fall back to the song title and the
    artist name).  Here the local record has song 'a|b' by artist 'c', the
    remote one song 'a' by artist 'b|c', all else equal: the merge keeps one
    of the two, and which one depends on the order of the arguments. *)
Theorem mergeExports_key_collision :
  let x := Samples.play "a|b" "c" 1000 30 in
  let y := Samples.play "a" "b|c" 1000 30 in
  let A := Samples.exportOf 1 [x] in
  let B := Samples.exportOf 1 [y] in
  identity x <> identity y
  /\ mergedRecords 2 A B = [x]
  /\ mergedRecords 2 B A = [y].
Proof. split; [discriminate|]. split; reflexivity. Qed.

(** *** Keys are faithful when no id contains the separator *)

Lemma bar_split (s1 s2 t1 t2 : string) :
  noBar s1 = true -> noBar s2 = true ->
  (s1 ++ String "|" t1 = s2 ++ String "|" t2)%string ->
  s1 = s2 /\ t1 = t2.
Proof.
  revert s2. induction s1 as [|c s1 IH]; intros [|c2 s2]; simpl.
  - by intros _ _ [= ->].
  - intros _ H2 [= <- _]. by rewrite Ascii.eqb_refl in H2.
  - intros H1 _ [= -> _]. by rewrite Ascii.eqb_refl in H1.
  - intros [_ H1]%andb_true_iff [_ H2]%andb_true_iff [= -> Heq].
    destruct (IH s2 H1 H2 Heq) as [-> ->]. done.
Qed.

Lemma noBar_uint (d : Decimal.uint) : noBar (NilEmpty.string_of_uint d) = true.
Proof. induction d; simpl; done. Qed.

Lemma noBar_numStr (n : Z) : noBar (StatsBackend.numStr n) = true.
Proof.
  unfold StatsBackend.numStr, NilZero.string_of_int, NilZero.string_of_uint.
  destruct (Z.to_int n) as [d|d]; destruct d; simpl; try done;
    apply noBar_uint.
Qed.

Lemma numStr_inj (n m : Z) :
  StatsBackend.numStr n = StatsBackend.numStr m -> n = m.
Proof.
  unfold StatsBackend.numStr. intros Heq.
  apply DecimalZ.to_int_inj.
  assert (forall z, Z.to_int z <> Decimal.Pos Decimal.Nil
                    /\ Z.to_int z <> Decimal.Neg Decimal.Nil) as Hnn.
  { intros [|p|p]; simpl; split; try discriminate;
      intros [= Hp]; by apply DecimalPos.Unsigned.to_uint_nonnil in Hp. }
  destruct (Hnn n) as [Hn1 Hn2], (Hnn m) as [Hm1 Hm2].
  pose proof (NilZero.isi _ Hn1 Hn2) as H1.
  pose proof (NilZero.isi _ Hm1 Hm2) as H2.
  rewrite Heq in H1. congruence.
Qed.

Lemma noBar_durationStr (d : Duration) :
  noBar (StatsBackend.durationStr d) = true.
Proof. destruct d; [apply noBar_numStr | done | done]. Qed.

Lemma numStr_digits (n : Z) :
  StatsBackend.numStr n <> "Infinity"%string
  /\ StatsBackend.numStr n <> "null"%string.
Proof.
  unfold StatsBackend.numStr, NilZero.string_of_int, NilZero.string_of_uint.
  destruct (Z.to_int n) as [d|d]; destruct d; simpl; split; discriminate.
Qed.

Lemma durationStr_inj (a b : Duration) :
  StatsBackend.durationStr a = StatsBackend.durationStr b -> a = b.
Proof.
  destruct a as [n| |], b as [m| |]; simpl; intros Heq; try done.
  - by apply numStr_inj in Heq as ->.
  - by destruct (numStr_digits n).
  - by destruct (numStr_digits n).
  - by destruct (numStr_digits m) as [? _].
  - by destruct (numStr_digits m) as [_ ?].
Qed.

(** Two records whose song and artist ids are free of the separator have the
    same key only if they have the same identity. *)
Lemma recordKey_inj (r1 r2 : PlayRecord) :
  noBar (songId r1) = true -> noBar (artistId r1) = true ->
  noBar (songId r2) = true -> noBar (artistId r2) = true ->
  StatsBackend.recordKey r1 = StatsBackend.recordKey r2 ->
  identity r1 = identity r2.
Proof.
  intros Hs1 Ha1 Hs2 Ha2. unfold StatsBackend.recordKey, identity. simpl.
  intros Hkey.
  apply bar_split in Hkey as [-> Hkey]; [|done..].
  apply bar_split in Hkey as [-> Hkey]; [|done..].
  apply bar_split in Hkey as [Ht Hkey]; [|apply noBar_numStr..].
  apply bar_split in Hkey as [Hd Hkey]; [|apply noBar_numStr..].
  apply numStr_inj in Ht, Hd. apply durationStr_inj in Hkey. congruence.
Qed.

Lemma recordKey_identity (r : PlayRecord) :
  StatsBackend.recordKey r = keyOfIdentity (identity r).
Proof. reflexivity. Qed.

(** No identity occurs twice in the merged list; and when the ids of both
    sides are free of the separator, every identity of either side occurs
    in it. *)
Lemma mergeExports_identities (now : Z) (a b : StatsBackend.Export) :
  NoDup (identity <$> mergedRecords now a b)
  /\ (Forall (fun r => noBar (songId r) = true /\ noBar (artistId r) = true)
             (bothSides a b) ->
      forall r, r ∈ bothSides a b ->
                identity r ∈ identity <$> mergedRecords now a b).
Proof.
  destruct (mergeExports_records now a b) as (Hnd & Hsub & Hkeys).
  split.
  - apply (NoDup_fmap_1 keyOfIdentity). rewrite <- list_fmap_compose.
    erewrite list_fmap_ext; [exact Hnd|]. intros ? r _. reflexivity.
  - intros Hids r Hr.
    assert (StatsBackend.recordKey r
              ∈ StatsBackend.recordKey <$> mergedRecords now a b) as Hk.
    { apply Hkeys. apply list_elem_of_fmap. by exists r. }
    apply list_elem_of_fmap in Hk as (r' & Heq & Hr').
    apply list_elem_of_fmap. exists r'. split; [|done].
    rewrite Forall_forall in Hids.
    destruct (Hids r Hr) as [? ?], (Hids r' (Hsub r' Hr')) as [? ?].
    by apply recordKey_inj.
Qed.

(** ** computeStats: what the tallies hold *)

(** A map filled by [m.set(key, update(m.get(key), record))], one record
    after the other. *)
Section Accumulate.
Context {K V : Type} `{EqDecision K}.
Variable key : PlayRecord -> K.
Variable upd : option V -> PlayRecord -> V.

Lemma accStep_get (l : list PlayRecord) (m : list (K * V)) (k : K) :
  Map_get k (foldl (accStep key upd) m l)
  = foldl (fun o r => if decide (key r = k) then Some (upd o r) else o)
          (Map_get k m) l.
Proof.
  revert m. induction l as [|r l IH]; intros m; simpl; [done|].
  rewrite IH. f_equal. unfold accStep. rewrite Map_get_set.
  by destruct (decide (key r = k)) as [->|].
Qed.

Lemma accStep_NoDup (l : list PlayRecord) (m : list (K * V)) :
  NoDup m.*1 -> NoDup (foldl (accStep key upd) m l).*1.
Proof.
  revert m. induction l as [|r l IH]; intros m Hnd; simpl; [done|].
  apply IH. by apply Map_set_NoDup.
Qed.

(** An integer read off the entries that every update increases by [inc]. *)
Section Counter.
Variable cnt : V -> Z.
Variable inc : PlayRecord -> Z.
Hypothesis cnt_upd : forall o r, cnt (upd o r) = default 0 (cnt <$> o) + inc r.

Lemma accStep_count (l : list PlayRecord) (k : K) :
  default 0 (cnt <$> Map_get k (foldl (accStep key upd) [] l))
  = sumZ (fun r => bool_decide (key r = k)) inc l.
Proof.
  rewrite accStep_get. simpl.
  assert (forall o,
    default 0 (cnt <$> foldl (fun o r => if decide (key r = k)
                                         then Some (upd o r) else o) o l)
    = default 0 (cnt <$> o) + sumZ (fun r => bool_decide (key r = k)) inc l)
    as Hgen.
  { induction l as [|r l IH]; intros o; simpl; [lia|].
    rewrite IH. destruct (decide (key r = k)).
    - rewrite bool_decide_true by done. simpl. rewrite cnt_upd. lia.
    - rewrite bool_decide_false by done. lia. }
  rewrite Hgen. simpl. lia.
Qed.
End Counter.

(** The entry under a key is the fold of the updates over the records of
    that key, in the order of the list. *)
Lemma accStep_entry (l : list PlayRecord) (k : K) :
  Map_get k (foldl (accStep key upd) [] l)
  = foldl (fun o r => Some (upd o r)) None
          (filter (fun r => bool_decide (key r = k)) l).
Proof.
  rewrite accStep_get. simpl. generalize (@None V).
  induction l as [|r l IH]; intros o; simpl; [done|].
  rewrite filter_cons. destruct (decide (key r = k)).
  - rewrite bool_decide_true by done. simpl. apply IH.
  - rewrite bool_decide_false by done. apply IH.
Qed.
End Accumulate.

Lemma foldl_ext_all {A B : Type} (f g : A -> B -> A) (l : list B) (a : A) :
  (forall x y, f x y = g x y) -> foldl f a l = foldl g a l.
Proof.
  intros Hfg. revert a. induction l as [|y l IH]; intros a; simpl; [done|].
  by rewrite Hfg, IH.
Qed.

Lemma filter_all {A : Type} (P : A -> Prop) `{!forall x, Decision (P x)}
  (l : list A) : Forall P l -> filter P l = l.
Proof.
  induction 1 as [|x l Hx Hl IH]; [done|].
  by rewrite filter_cons, decide_True, IH.
Qed.

Section TallyFacts.
Variable getHours : Z -> nat.
Variable isoMonth : Z -> string.

Lemma tally_fold (l : list PlayRecord) (t : Tallies) :
  let t' := foldl (StatsBackend.tallyStep getHours isoMonth) t l in
  songPlayMap t' = foldl StatsBackend.songStep (songPlayMap t) l
  /\ artistPlayMap t' = foldl StatsBackend.artistStep (artistPlayMap t) l
  /\ clock t' = foldl (StatsBackend.clockStep getHours) (clock t) l
  /\ dailyMap t' = foldl StatsBackend.dailyStep (dailyMap t) l
  /\ monthlyArtists t'
     = foldl (StatsBackend.monthlyStep isoMonth) (monthlyArtists t) l
  /\ skipMap t' = foldl StatsBackend.skipStep (skipMap t) l.
Proof.
  revert t. induction l as [|r l IH]; intros t; simpl; [done|].
  apply (IH (StatsBackend.tallyStep getHours isoMonth t r)).
Qed.

Lemma songStep_acc m r : StatsBackend.songStep m r = accStep songId songUpd m r.
Proof.
  unfold StatsBackend.songStep, accStep. by destruct (Map_get (songId r) m).
Qed.

Lemma artistStep_acc m r :
  StatsBackend.artistStep m r = accStep artistId artistUpd m r.
Proof.
  unfold StatsBackend.artistStep, accStep.
  by destruct (Map_get (artistId r) m).
Qed.

Lemma skipStep_acc m r : StatsBackend.skipStep m r = accStep songId skipUpd m r.
Proof.
  unfold StatsBackend.skipStep, accStep. by destruct (Map_get (songId r) m).
Qed.

Lemma dailyStep_acc m r :
  StatsBackend.dailyStep m r
  = accStep (fun r => isoDate (timestamp r)) minutesUpd m r.
Proof. reflexivity. Qed.

Lemma songUpd_plays o r :
  se_plays (songUpd o r) = default 0 (se_plays <$> o) + qualifiedUnit r.
Proof.
  unfold qualifiedUnit.
  destruct o; simpl; destruct (StatsBackend.isQualifiedPlay r); lia.
Qed.



Lemma songUpd_minutes (l : list PlayRecord) (e : SongEntry) :
  se_minutes <$> foldl (fun o r => Some (songUpd o r)) (Some e) l
  = Some (addMinutes (se_minutes e) l).
Proof.
  revert e. induction l as [|r l IH]; intros e; simpl; [done|].
  by rewrite IH.
Qed.


End TallyFacts.

(** *** The totals in words *)

Lemma sumZ_qualified (sel : PlayRecord -> bool) (l : list PlayRecord) :
  sumZ sel qualifiedUnit l = qualifiedPlays sel l.
Proof.
  unfold qualifiedPlays, qualifiedUnit, StatsBackend.isQualifiedPlay.
  induction l as [|r l IH]; simpl; [done|].
  rewrite IH. rewrite filter_cons.
  destruct (sel r), (30 <=? durationListened r); simpl; lia.
Qed.

(** *** The listening clock *)

Lemma clock_fold (getHours : Z -> nat) (l : list PlayRecord)
  (c : list Number.t) (h : nat) :
  foldl (StatsBackend.clockStep getHours) c l !! h
  = (fun m => addMinutes m
                (filter (fun r => bool_decide (getHours (timestamp r) = h)) l))
      <$> c !! h.
Proof.
  revert c. induction l as [|r l IH]; intros c.
  - simpl. by destruct (c !! h).
  - change (foldl (StatsBackend.clockStep getHours) c (r :: l))
      with (foldl (StatsBackend.clockStep getHours)
                  (StatsBackend.clockStep getHours c r) l).
    rewrite IH, filter_cons. unfold StatsBackend.clockStep.
    destruct (decide (getHours (timestamp r) = h)) as [Heq|Hne].
    + rewrite (bool_decide_true _ Heq), Heq, list_lookup_alter_eq.
      by destruct (c !! h).
    + rewrite (bool_decide_false _ Hne).
      by rewrite list_lookup_alter_ne by done.
Qed.

(** *** The artists of a month *)

Lemma Map_set_set {K V} `{EqDecision K} (k : K) (v v' : V) (m : list (K * V)) :
  Map_set k v (Map_set k v' m) = Map_set k v m.
Proof.
  induction m as [|[k0 v0] m IH]; simpl.
  - by rewrite decide_True.
  - destruct (decide (k0 = k)) as [->|Hne]; simpl.
    + by rewrite decide_True.
    + rewrite decide_False by done. by rewrite IH.
Qed.

Lemma monthlyStep_acc (isoMonth : Z -> string) m r :
  StatsBackend.monthlyStep isoMonth m r
  = accStep (fun r => isoMonth (timestamp r)) monthUpd m r.
Proof.
  unfold StatsBackend.monthlyStep, accStep, monthUpd, Map_has.
  destruct (Map_get (isoMonth (timestamp r)) m) eqn:E; simpl.
  - by rewrite E.
  - by rewrite Map_get_set_eq, Map_set_set.
Qed.



Lemma elem_of_top {A : Type} (gt : A -> A -> bool) (n : nat) (l : list A)
  (x : A) : x ∈ take n (sortBy gt l) -> x ∈ l.
Proof.
  intros Hx. apply (subseteq_take n) in Hx. by rewrite sortBy_perm in Hx.
Qed.



(** ** ensureAccessToken *)

Section AccessToken.
Import StatsBackend.

Lemma ensureAccessToken_refresh_journal (now : Z) (config : StatsConfig)
  (net : Request -> Outcome Response) (st : t) :
  persistedFresh now config = false -> sessionFresh now st = false ->
  canRefresh config st = true ->
  journal (ensureAccessToken now config net st).2
  = journal st ++ [refreshRequest config st].
Proof.
  unfold persistedFresh, sessionFresh, canRefresh, ensureAccessToken.
  intros -> -> Hcan.
  apply andb_true_iff in Hcan as [-> Hor]. apply orb_true_iff in Hor.
  assert (negb (truthy (cloudSyncRefreshToken config))
          && negb (truthy (sessionRefreshToken st)) = false) as ->.
  { destruct Hor as [-> | ->]; by rewrite ?andb_false_r. }
  simpl. unfold bind, fetch, refreshRequest. simpl.
  destruct (net _) as [response|msg]; [|done].
  destruct (resp_ok response); simpl; [|done].
  unfold await. destruct (resp_json response) as [json|msg]; [|done].
  destruct (truthy (access_token json)); done.
Qed.

(** C8.  Called with a configuration that names a client id, which is how
    [syncDriveNow] calls it, [ensureAccessToken] returns the persisted access
    token when it is present and expires more than 60 seconds from now,
    otherwise the session token under the same rule.  Otherwise it fails with
    the missing-refresh-token error, before any request, if and only if
    neither a persisted nor a session refresh token exists; and when one
    exists it sends exactly one refresh request, and when the provider
    answers with an access token it stores that token in the session and in
    the configuration and returns it. *)
Theorem ensureAccessToken_cases (now : Z) (config : StatsConfig)
  (net : Request -> Outcome Response) (st : t)
  (Hclient : truthy (cloudSyncClientId config) = true) :
  let run := ensureAccessToken now config net st in
  (persistedFresh now config = true ->
   run = (Returned (default ""%string (cloudSyncAccessToken config)), st))
  /\ (persistedFresh now config = false -> sessionFresh now st = true ->
      run = (Returned (default ""%string (sessionAccessToken st)), st))
  /\ (persistedFresh now config = false -> sessionFresh now st = false ->
      (run = (Thrown missingRefreshToken, st)
       <-> truthy (cloudSyncRefreshToken config) = false
           /\ truthy (sessionRefreshToken st) = false)
      /\ (truthy (cloudSyncRefreshToken config) = true
          \/ truthy (sessionRefreshToken st) = true ->
          journal run.2 = journal st ++ [refreshRequest config st]
          /\ forall response json token,
               net (refreshRequest config st) = Returned response ->
               resp_ok response = true ->
               resp_json response = Returned json ->
               access_token json = Some token -> token <> ""%string ->
               run.1 = Returned token
               /\ sessionAccessToken run.2 = Some token
               /\ cloudSyncAccessToken (store run.2) = Some token)).
Proof.
  intros run.
  split; [|split].
  - subst run. unfold persistedFresh, ensureAccessToken. by intros ->.
  - subst run. unfold persistedFresh, sessionFresh, ensureAccessToken.
    by intros -> ->.
  - intros Hp Hs.
    assert (truthy (cloudSyncRefreshToken config) = true
            \/ truthy (sessionRefreshToken st) = true ->
            canRefresh config st = true) as Hcan.
    { unfold canRefresh. rewrite Hclient. simpl.
      intros [-> | ->]; by rewrite ?orb_true_r. }
    split; [split|].
    + intros Heq.
      destruct (truthy (cloudSyncRefreshToken config)) eqn:Hr;
        destruct (truthy (sessionRefreshToken st)) eqn:Hsr; try done.
      all: pose proof (ensureAccessToken_refresh_journal now config net st
                         Hp Hs (Hcan ltac:(auto))) as Hj.
      all: fold run in Hj; rewrite Heq in Hj; simpl in Hj.
      all: apply (f_equal length) in Hj; rewrite length_app in Hj.
      all: simpl in Hj; lia.
    + intros [Hr Hsr]. subst run.
      unfold persistedFresh, sessionFresh in Hp, Hs.
      unfold ensureAccessToken. by rewrite Hp, Hs, Hclient, Hr, Hsr.
    + intros Hor. split.
      { apply ensureAccessToken_refresh_journal; auto. }
      intros response json token Hnet Hok Hjson Htoken Hne. subst run.
      unfold persistedFresh, sessionFresh in Hp, Hs.
      unfold ensureAccessToken. rewrite Hp, Hs, Hclient.
      assert (negb (truthy (cloudSyncRefreshToken config))
              && negb (truthy (sessionRefreshToken st)) = false) as ->.
      { destruct Hor as [-> | ->]; by rewrite ?andb_false_r. }
      simpl. unfold bind, fetch. fold (refreshRequest config st).
      rewrite Hnet, Hok. simpl. unfold await. rewrite Hjson, Htoken. simpl.
      destruct (String.eqb_spec token ""); [done|]. simpl. done.
Qed.

End AccessToken.

(** The scenario of an expired access token with a valid refresh token: one
    refresh request, and the token of the provider's answer is returned. *)
Lemma ensureAccessToken_cases_witness :
  let config := Samples.configOf (Some "client") (Some "refresh")
                  (Some "old-token") (Some (Samples.now - 1000)) None None in
  let st := Samples.stateOf (Samples.dbOf []) config in
  let run := StatsBackend.ensureAccessToken Samples.now config
               (Samples.net None) st in
  StatsBackend.journal run.2
  = [StatsBackend.TokenRefresh "client" "" "refresh"]
  /\ run.1 = Returned "fresh-token"%string.
Proof.
  pose proof (proj2 (proj2 (proj2 (ensureAccessToken_cases Samples.now
    (Samples.configOf (Some "client") (Some "refresh") (Some "old-token")
       (Some (Samples.now - 1000)) None None)
    (Samples.net None)
    (Samples.stateOf (Samples.dbOf [])
       (Samples.configOf (Some "client") (Some "refresh") (Some "old-token")
          (Some (Samples.now - 1000)) None None))
    eq_refl)) eq_refl eq_refl) (or_introl eq_refl)) as [Hjournal Htoken].
  split; [exact Hjournal|].
  exact (proj1 (Htoken _ _ "fresh-token"%string eq_refl eq_refl eq_refl
                  eq_refl ltac:(discriminate))).
Defined.

(** ** The reconciliation pass *)

Section Reconcile.
Import StatsBackend.
Variable JSON_stringify : ExportBundle -> string.
Variable JSON_parse : string -> ParseResult.
Variable sha256 : string -> string.

Lemma importLocal_parsed (written : bool) (jsonData : string) (p : Parsed)
  (st : t) (d : StatsDatabase.t) :
  db st = Some d -> JSON_parse jsonData = ParsedValue p ->
  exists d',
    importLocal JSON_parse written jsonData st
    = (Returned tt,
       {| db := Some d'; isSyncing := isSyncing st;
          sessionAccessToken := sessionAccessToken st;
          sessionAccessTokenExpiry := sessionAccessTokenExpiry st;
          sessionRefreshToken := sessionRefreshToken st;
          store := store st; journal := journal st |})
    /\ StatsDatabase.data d' = importedSchema p.
Proof.
  intros Hdb Hparse. unfold importLocal, StatsDatabase.importData.
  rewrite Hdb, Hparse. eexists. split; [reflexivity|].
  by destruct written.
Qed.

(** C1 (as the code has it).  When the local hash equals the recorded
    [lastHash] and the remote hash differs, the pass does not merge; whether
    it pulls or pushes is decided by the [exportDate]s alone.  If the remote
    export carries the greater [exportDate], the pass pulls: it imports the
    remote bundle, persists the remote hash as [lastHash] and uploads
    nothing.  Otherwise it pushes: it uploads the local export, leaves the
    local store alone and, when the upload succeeds, persists the local
    hash. *)
Theorem reconcile_remote_only_changed (now : Z) (written : bool)
  (config : StatsConfig) (net : Request -> Outcome Response)
  (accessToken fileId localJson localHash : string) (localParsed : Export)
  (remoteJson remoteHash : string) (st : t) (d : StatsDatabase.t) :
  db st = Some d ->
  cloudSyncLastHash config = Some localHash ->
  remoteHash <> localHash ->
  let remoteParsed := parseExport JSON_parse remoteJson in
  let run := reconcile JSON_stringify JSON_parse sha256 now written config net
               accessToken fileId localJson localHash localParsed
               remoteJson remoteHash st in
  (exportDate localParsed < exportDate remoteParsed ->
   forall p, JSON_parse remoteJson = ParsedValue p ->
     run.1 = Returned (resultOk "Cloud sync pulled updates.")
     /\ (exists d', db run.2 = Some d'
                    /\ StatsDatabase.data d' = importedSchema p)
     /\ cloudSyncLastHash (store run.2) = Some remoteHash
     /\ journal run.2 = journal st)
  /\ (exportDate remoteParsed <= exportDate localParsed ->
      journal run.2 = journal st ++ [DriveUpdate accessToken fileId localJson]
      /\ db run.2 = db st
      /\ forall response,
           net (DriveUpdate accessToken fileId localJson) = Returned response ->
           resp_ok response = true ->
           run.1 = Returned (resultOk "Cloud sync pushed updates.")
           /\ cloudSyncLastHash (store run.2) = Some localHash).
Proof.
  intros Hdb Hlast Hne remoteParsed run.
  assert (truthy (Some (orEmpty (cloudSyncLastHash config)))
          && negb (String.eqb localHash (orEmpty (cloudSyncLastHash config)))
          = false) as HlocalSame.
  { rewrite Hlast. unfold orEmpty, orElse. simpl.
    destruct (String.eqb_spec localHash ""%string) as [->|Hnz]; simpl; [done|].
    destruct (String.eqb_spec localHash ""%string); [done|]. simpl.
    by rewrite String.eqb_refl. }
  subst run. unfold reconcile. rewrite HlocalSame. simpl.
  fold remoteParsed. split.
  - intros Hnewer p Hparse.
    apply Z.ltb_lt in Hnewer. rewrite Hnewer.
    destruct (importLocal_parsed written remoteJson p st d Hdb Hparse)
      as (d' & Himp & Hdata).
    unfold bind. rewrite Himp. simpl.
    repeat split; try done. by exists d'.
  - intros Holder. apply Z.ltb_ge in Holder. rewrite Holder.
    unfold bind, uploadDriveFile, bind, fetch. simpl.
    split; [|split].
    + destruct (net _) as [response|msg]; [|done].
      by destruct (resp_ok response).
    + destruct (net _) as [response|msg]; [|done].
      by destruct (resp_ok response).
    + intros response -> ->. done.
Qed.

(** C3 (as the code has it).  For a text that [JSON.parse] rejects,
    [parseExport] does not raise: it returns [exportDate] 0 with the empty
    canonical schema (no records, empty aggregate maps, no streak), and a
    reconciliation whose remote text is such a text still reports success
    when its upload succeeds, the local [exportDate] is not negative and the
    merged bundle survives the JSON round trip.  [StatsDatabase.importData]
    has no such fallback: on the same text it raises the parse error and
    leaves the document as it was. *)
Theorem parseExport_fallback (jsonData msg : string) :
  JSON_parse jsonData = SyntaxError msg ->
  parseExport JSON_parse jsonData = {| exportDate := 0; data := emptyParsed |}
  /\ importedSchema emptyParsed = emptySchema
  /\ (forall written d,
      StatsDatabase.importData JSON_parse written jsonData d = (Thrown msg, d))
  /\ (forall now written config net accessToken fileId localJson localHash
             localParsed remoteHash st d,
      db st = Some d ->
      0 <= exportDate localParsed ->
      (forall content, exists response,
         net (DriveUpdate accessToken fileId content) = Returned response
         /\ resp_ok response = true) ->
      let merged :=
        mergeExports now localParsed (parseExport JSON_parse jsonData) in
      JSON_parse (JSON_stringify merged) = ParsedValue (parsedOfBundle merged) ->
      exists result,
        (reconcile JSON_stringify JSON_parse sha256 now written config net
           accessToken fileId localJson localHash localParsed
           jsonData remoteHash st).1 = Returned result
        /\ ok result = true).
Proof.
  intros Hbad.
  assert (parseExport JSON_parse jsonData
          = {| exportDate := 0; data := emptyParsed |}) as Hfallback.
  { unfold parseExport. by rewrite Hbad. }
  split; [exact Hfallback|]. split; [reflexivity|]. split.
  { intros written d. unfold StatsDatabase.importData. by rewrite Hbad. }
  intros now written config net accessToken fileId localJson localHash
         localParsed remoteHash st d Hdb Hdate Hnet merged Hrt.
  unfold reconcile. fold merged.
  destruct (_ && _ && _).
  - destruct (importLocal_parsed written (JSON_stringify merged) _ st d Hdb Hrt)
      as (d' & Himp & _).
    destruct (Hnet (JSON_stringify merged)) as (response & Hresp & Hok).
    unfold bind at 1. rewrite Himp.
    unfold bind, uploadDriveFile, bind, fetch. simpl.
    rewrite Hresp, Hok. simpl. by eexists.
  - rewrite Hfallback. simpl.
    destruct (Z.ltb_spec (exportDate localParsed) 0); [lia|].
    destruct (Hnet localJson) as (response & Hresp & Hok).
    unfold bind, uploadDriveFile, bind, fetch. simpl.
    rewrite Hresp, Hok. simpl. by eexists.
Qed.

End Reconcile.

(** A pull (remote export newer than the local one) and a push (remote export
    older), both with the local hash equal to the recorded one. *)
Lemma reconcile_remote_only_changed_witness :
  let older := Samples.emptyExportText Samples.earlier in
  let newer := Samples.emptyExportText Samples.now in
  ((Samples.reconcileAt Samples.earlier older newer).1
   = Returned (StatsBackend.resultOk "Cloud sync pulled updates.")
   /\ StatsBackend.journal (Samples.reconcileAt Samples.earlier older newer).2
      = [])
  /\ ((Samples.reconcileAt Samples.now newer older).1
      = Returned (StatsBackend.resultOk "Cloud sync pushed updates.")
      /\ StatsBackend.journal (Samples.reconcileAt Samples.now newer older).2
         = [StatsBackend.DriveUpdate "token" "file-1" newer]).
Proof.
  intros older newer. split.
  - destruct (reconcile_remote_only_changed Samples.stringify Samples.parse
                Samples.sha256 Samples.earlier true (Samples.syncConfig older)
                (Samples.net (Some newer)) "token" "file-1" older
                (Samples.sha256 older)
                (StatsBackend.parseExport Samples.parse older)
                newer (Samples.sha256 newer) (Samples.syncState older)
                Samples.syncDb eq_refl eq_refl
                ltac:(vm_compute; discriminate)) as [Hpull _].
    destruct (Hpull ltac:(vm_compute; reflexivity) _ eq_refl)
      as (Hres & _ & _ & Hj).
    split; [exact Hres | exact Hj].
  - destruct (reconcile_remote_only_changed Samples.stringify Samples.parse
                Samples.sha256 Samples.now true (Samples.syncConfig newer)
                (Samples.net (Some older)) "token" "file-1" newer
                (Samples.sha256 newer)
                (StatsBackend.parseExport Samples.parse newer)
                older (Samples.sha256 older) (Samples.syncState newer)
                Samples.syncDb eq_refl eq_refl
                ltac:(vm_compute; discriminate)) as [_ Hpush].
    destruct (Hpush ltac:(vm_compute; discriminate)) as (Hj & _ & Hres).
    split; [|exact Hj].
    exact (proj1 (Hres _ eq_refl eq_refl)).
Defined.

(** C1, counterexample.  A whole pass: the local export hashes to the
    recorded [lastHash], the remote file differs from it and was exported
    earlier.  Only the remote snapshot changed, yet the pass uploads the
    local export over it and keeps the local hash; nothing is imported. *)
Lemma driveSync_remote_changed_is_pushed :
  let localText := Samples.emptyExportText Samples.now in
  let remoteText := Samples.emptyExportText Samples.earlier in
  let config :=
    Samples.configOf (Some "client") (Some "refresh") (Some "token")
      (Some (Samples.now + 3600000)) (Some "file-1")
      (Some (Samples.sha256 localText)) in
  let st := Samples.stateOf (Samples.dbOf []) config in
  let run := StatsBackend.driveSync Samples.stringify Samples.parse
               Samples.sha256 Samples.now true
               (Samples.net (Some remoteText)) st in
  StatsDatabase.exportData Samples.stringify Samples.now (Samples.dbOf [])
  = localText
  /\ StatsBackend.cloudSyncLastHash config = Some (Samples.sha256 localText)
  /\ Samples.sha256 remoteText <> Samples.sha256 localText
  /\ run.1 = Returned (StatsBackend.resultOk "Cloud sync pushed updates.")
  /\ StatsBackend.journal run.2
     = [StatsBackend.DriveDownload "token" "file-1";
        StatsBackend.DriveUpdate "token" "file-1" localText]
  /\ StatsBackend.db run.2 = StatsBackend.db st
  /\ StatsBackend.cloudSyncLastHash (StatsBackend.store run.2)
     = Some (Samples.sha256 localText).
Proof.
  split; [reflexivity|]. split; [reflexivity|].
  split; [vm_compute; discriminate|].
  repeat split; vm_compute; reflexivity.
Qed.

Lemma parseExport_fallback_witness :
  let localText := Samples.emptyExportText Samples.now in
  StatsBackend.parseExport Samples.parse Samples.notJson
  = {| StatsBackend.exportDate := 0;
       StatsBackend.data := StatsBackend.emptyParsed |}
  /\ exists result,
       (Samples.reconcileAt Samples.now localText Samples.notJson).1
       = Returned result
       /\ StatsBackend.ok result = true.
Proof.
  intros localText.
  destruct (parseExport_fallback Samples.stringify Samples.parse
              Samples.sha256 Samples.notJson "Unexpected token" eq_refl)
    as (Hfallback & _ & _ & Hsync).
  split; [exact Hfallback|].
  apply (Hsync Samples.now true (Samples.syncConfig localText)
               (Samples.net (Some Samples.notJson)) "token"%string
               "file-1"%string localText (Samples.sha256 localText)
               (StatsBackend.parseExport Samples.parse localText)
               (Samples.sha256 Samples.notJson)
               (Samples.syncState localText) Samples.syncDb eq_refl).
  - vm_compute. discriminate.
  - intros content. eexists. split; reflexivity.
  - vm_compute. reflexivity.
Defined.

(** C3, counterexample.  [importData] on a text that is not JSON: the call
    raises the parse error, and the store keeps its record instead of
    falling back to the empty schema. *)
Lemma importData_raises_on_malformed_export :
  Samples.parse Samples.notJson = SyntaxError "Unexpected token"
  /\ StatsDatabase.importData Samples.parse true Samples.notJson
       (Samples.dbOf [Samples.play "s" "a" 100 40])
     = (Thrown "Unexpected token",
        Samples.dbOf [Samples.play "s" "a" 100 40])
  /\ StatsDatabase.data (Samples.dbOf [Samples.play "s" "a" 100 40])
     <> emptySchema.
Proof. split; [reflexivity|]. split; [reflexivity|]. discriminate. Qed.

(** ** The model at work *)

(** The sort keeps the order of records with equal timestamps. *)
Example getPlayRecords_stable :
  StatsDatabase.getPlayRecords None None
    (Samples.dbOf [Samples.play "a" "x" 5 40; Samples.play "b" "x" 9 40;
                   Samples.play "c" "x" 5 40])
  = [Samples.play "b" "x" 9 40; Samples.play "a" "x" 5 40;
     Samples.play "c" "x" 5 40].
Proof. reflexivity. Qed.

(** A first pass: no file id is recorded and none is found, so the file is
    created from the local export. *)
Example driveSync_first_pass :
  let config := Samples.configOf (Some "client") (Some "refresh")
                  (Some "token") (Some (Samples.now + 3600000)) None None in
  let run := StatsBackend.driveSync Samples.stringify Samples.parse
               Samples.sha256 Samples.now true (Samples.net None)
               (Samples.stateOf (Samples.dbOf []) config) in
  run.1 = Returned (StatsBackend.resultOk "Cloud sync initialized.")
  /\ StatsBackend.journal run.2
     = [StatsBackend.DriveList "token";
        StatsBackend.DriveCreate "token"
          (Samples.emptyExportText Samples.now)]
  /\ StatsBackend.cloudSyncFileId (StatsBackend.store run.2) = Some "file-1"%string
  /\ StatsBackend.isSyncing run.2 = false.
Proof. repeat split; vm_compute; reflexivity. Qed.

(** A pass whose remote text is not JSON: nothing was recorded as the last
    hash, the local export is the newer one and is pushed. *)
Example driveSync_malformed_remote :
  let config := Samples.configOf (Some "client") (Some "refresh")
                  (Some "token") (Some (Samples.now + 3600000))
                  (Some "file-1") None in
  let run := StatsBackend.driveSync Samples.stringify Samples.parse
               Samples.sha256 Samples.now true
               (Samples.net (Some Samples.notJson))
               (Samples.stateOf (Samples.dbOf []) config) in
  run.1 = Returned (StatsBackend.resultOk "Cloud sync pushed updates.").
Proof. vm_compute. reflexivity. Qed.

(** * Further properties of the code *)

(** ** The sort is stable *)

Lemma insertBy_filter {A : Type} (gt : A -> A -> bool) (P : A -> bool)
  (x : A) (l : list A) :
  (forall y, P x = true -> P y = true -> gt x y = false) ->
  filter P (insertBy gt x l) = filter P (x :: l).
Proof.
  intros Hgt. induction l as [|y l IH]; simpl; [done|].
  destruct (gt x y) eqn:E; [|done].
  rewrite (filter_cons _ y), IH, !filter_cons.
  destruct (P x) eqn:Hx, (P y) eqn:Hy; simpl; try done.
  rewrite Hgt in E; done.
Qed.

Lemma sortBy_filter {A : Type} (gt : A -> A -> bool) (P : A -> bool)
  (l : list A) :
  (forall x y, P x = true -> P y = true -> gt x y = false) ->
  filter P (sortBy gt l) = filter P l.
Proof.
  intros Hgt. induction l as [|x l IH]; [done|].
  unfold sortBy in *. simpl.
  rewrite insertBy_filter by (intros; by apply Hgt).
  by rewrite !filter_cons, IH.
Qed.

(** ** StatsDatabase *)

(** X1.  Whatever the bounds, [getPlayRecords] returns stored records only,
    newest first, and records with the same timestamp come in the order of
    the log; without bounds it returns every stored record. *)
Theorem getPlayRecords_order (startDate endDate : option Z)
  (db : StatsDatabase.t) :
  let result := StatsDatabase.getPlayRecords startDate endDate db in
  let stored := playRecords (StatsDatabase.data db) in
  StronglySorted notOlder result
  /\ (forall ts, filter (fun r => bool_decide (timestamp r = ts)) result
                 `sublist_of` stored)
  /\ StatsDatabase.getPlayRecords None None db ≡ₚ stored.
Proof.
  intros result stored. split; [apply getPlayRecords_newest_first|].
  split; [|apply getPlayRecords_all].
  intros ts. subst result. unfold StatsDatabase.getPlayRecords.
  rewrite sortBy_filter.
  - fold stored. repeat case_match; repeat (etrans; [apply sublist_filter|]);
      done.
  - intros x y Hx Hy. apply bool_decide_eq_true in Hx, Hy.
    unfold StatsDatabase.newerFirst. apply Z.ltb_ge. lia.
Qed.

Lemma addPlayRecord_records (r : PlayRecord) (d : StatsDatabase.t) :
  exists stored,
    playRecords (StatsDatabase.data (StatsDatabase.addPlayRecord r d))
    = playRecords (StatsDatabase.data d) ++ [stored]
    /\ recordId stored
       = Some (Z.of_nat (S (length (playRecords (StatsDatabase.data d)))))
    /\ sameEvent stored r.
Proof.
  eexists. split; [reflexivity|]. split.
  - simpl. f_equal. lia.
  - by repeat split.
Qed.

(** X2.  For every store, [addPlayRecord] appends the event, with all its
    fields, under the id [length + 1], whatever ids the stored records carry;
    it marks the document dirty and leaves the aggregates and the streak
    alone.  A log whose ids count 1, 2, ... therefore keeps counting. *)
Theorem addPlayRecord_numbered (r : PlayRecord) (d : StatsDatabase.t) :
  let d' := StatsDatabase.addPlayRecord r d in
  (exists stored,
     playRecords (StatsDatabase.data d')
     = playRecords (StatsDatabase.data d) ++ [stored]
     /\ recordId stored
        = Some (Z.of_nat (length (playRecords (StatsDatabase.data d))) + 1)
     /\ sameEvent stored r)
  /\ StatsDatabase.isDirty d' = true
  /\ dailyAggregates (StatsDatabase.data d')
     = dailyAggregates (StatsDatabase.data d)
  /\ monthlyAggregates (StatsDatabase.data d')
     = monthlyAggregates (StatsDatabase.data d)
  /\ streak (StatsDatabase.data d') = streak (StatsDatabase.data d)
  /\ (numbered d -> numbered d').
Proof.
  intros d'.
  destruct (addPlayRecord_records r d) as (stored & Hrec & Hid & Hsame).
  fold d' in Hrec. split; [|repeat split; try done].
  - exists stored. split; [done|]. split; [|done]. rewrite Hid. f_equal. lia.
  - intros Hnum. unfold numbered in *.
    rewrite Hrec, fmap_app, Hnum, length_app. simpl.
    rewrite Nat.add_1_r, seq_S, fmap_app. simpl. by rewrite Hid.
Qed.

(** A store that holds one record under the id 7, as an import can leave it:
    the next record is stored under the id 2. *)
Lemma addPlayRecord_numbered_witness :
  let kept := Samples.withId 7 (Samples.play "s" "a" 100 40) in
  recordId <$> playRecords (StatsDatabase.data
     (StatsDatabase.addPlayRecord (Samples.play "t" "a" 200 50)
        (Samples.dbOf [kept])))
  = [Some 7; Some 2].
Proof.
  destruct (proj1 (addPlayRecord_numbered (Samples.play "t" "a" 200 50)
                     (Samples.dbOf [Samples.withId 7
                                      (Samples.play "s" "a" 100 40)])))
    as (stored & Hrec & Hid & _).
  cbv zeta. rewrite Hrec, fmap_app. simpl. by rewrite Hid.
Defined.

(** ** Export and import through JSON *)

Lemma toPlayRecord_ofPlayRecord (r : PlayRecord) :
  JSON.toPlayRecord (JSON.ofPlayRecord r) = throughJson r.
Proof.
  destruct r as [id song title artist name image album thumb ts listened
                   total skip done].
  unfold JSON.toPlayRecord, JSON.ofPlayRecord, throughJson.
  destruct id, image, album, thumb, total; cbn; rewrite ?Z.div_1_r;
    reflexivity.
Qed.

Lemma throughJson_fixed (l : list PlayRecord) :
  throughJson <$> l = l
  <-> Forall (fun r => totalDuration r <> Infinity) l.
Proof.
  induction l as [|r l IH]; csimpl.
  - split; [constructor | done].
  - rewrite Forall_cons. split.
    + intros [= Hr Hl]. split; [|by apply IH].
      intros Hinf. apply (f_equal totalDuration) in Hr. simpl in Hr.
      by rewrite Hinf in Hr.
    + intros [Hr Hl]. f_equal; [|by apply IH].
      destruct r as [? ? ? ? ? ? ? ? ? ? total ? ?]. unfold throughJson.
      simpl in *. by destruct total.
Qed.

(** X21.  The play records through an export and an import.  For every
    store whose exported text reads back as the value that was written, as
    a JSON text does, importing the export succeeds and installs the play
    records in their order, each with all its fields, except that a
    duration of [Infinity] has become [null].  So the play records are
    those of the exporting store exactly when none of them holds the
    duration [Infinity]. *)
Theorem export_import_play_records (written : bool) (now : Z)
  (db target : StatsDatabase.t) :
  let bundle := {| eb_version := 1; eb_exportDate := now;
                   eb_data := StatsDatabase.data db |} in
  JSON.read (JSON.stringify bundle) = Some (JSON.ofBundle bundle) ->
  exists db',
    StatsDatabase.importData JSON.parse written
      (StatsDatabase.exportData JSON.stringify now db) target
    = (Returned tt, db')
    /\ playRecords (StatsDatabase.data db')
       = throughJson <$> playRecords (StatsDatabase.data db)
    /\ (playRecords (StatsDatabase.data db')
        = playRecords (StatsDatabase.data db)
        <-> Forall (fun r => totalDuration r <> Infinity)
                   (playRecords (StatsDatabase.data db))).
Proof.
  intros bundle Hread.
  unfold StatsDatabase.importData, StatsDatabase.exportData, JSON.parse.
  fold bundle. rewrite Hread.
  assert (JSON.toParsed (JSON.ofBundle bundle)
          = {| p_version := p_version (JSON.toParsed (JSON.ofBundle bundle));
               p_exportDate :=
                 p_exportDate (JSON.toParsed (JSON.ofBundle bundle));
               p_playRecords :=
                 Some (throughJson <$> playRecords (StatsDatabase.data db));
               p_dailyAggregates :=
                 p_dailyAggregates (JSON.toParsed (JSON.ofBundle bundle));
               p_monthlyAggregates :=
                 p_monthlyAggregates (JSON.toParsed (JSON.ofBundle bundle));
               p_streak := p_streak (JSON.toParsed (JSON.ofBundle bundle)) |})
    as Hparsed.
  { unfold JSON.toParsed at 1. cbn [JSON.field JSON.ofBundle JSON.get
      String.eqb Ascii.eqb Bool.eqb eb_data bundle].
    f_equal. f_equal.
    induction (playRecords (StatsDatabase.data db)) as [|r l IH]; [done|].
    cbn [List.map]. csimpl. by rewrite toPlayRecord_ofPlayRecord, IH. }
  cbn [JSON.ofBundle]. rewrite Hparsed. eexists. split; [reflexivity|].
  assert (playRecords
            (StatsDatabase.data
               (StatsDatabase.save written
                  (StatsDatabase.markDirty
                     {| StatsDatabase.data :=
                          {| playRecords :=
                               default []
                                 (Some (throughJson
                                          <$> playRecords (StatsDatabase.data db)));
                             dailyAggregates :=
                               default ∅
                                 (p_dailyAggregates
                                    (JSON.toParsed (JSON.ofBundle bundle)));
                             monthlyAggregates :=
                               default ∅
                                 (p_monthlyAggregates
                                    (JSON.toParsed (JSON.ofBundle bundle)));
                             streak :=
                               p_streak (JSON.toParsed (JSON.ofBundle bundle)) |};
                        StatsDatabase.isDirty := StatsDatabase.isDirty target |})))
          = throughJson <$> playRecords (StatsDatabase.data db)) as Hrec.
  { by destruct written. }
  split; [exact Hrec|]. cbn [p_playRecords p_dailyAggregates
    p_monthlyAggregates p_streak]. rewrite Hrec. apply throughJson_fixed.
Qed.

(** A store with a song, a live stream and the aggregate of their day, 1.7
    minutes: the record of the live stream comes back with the duration
    [null]. *)
Lemma export_import_play_records_witness :
  exists db',
    StatsDatabase.importData JSON.parse true
      (StatsDatabase.exportData JSON.stringify Samples.now Samples.mixedDb)
      StatsDatabase.create
    = (Returned tt, db')
    /\ totalDuration <$> playRecords (StatsDatabase.data Samples.mixedDb)
       = [Seconds 200; Infinity]
    /\ totalDuration <$> playRecords (StatsDatabase.data db')
       = [Seconds 200; Null].
Proof.
  destruct (export_import_play_records true Samples.now Samples.mixedDb
              StatsDatabase.create)
    as (db' & Hrun & Hrec & _).
  { vm_compute. reflexivity. }
  exists db'. split; [exact Hrun|]. split; [reflexivity|].
  rewrite Hrec. reflexivity.
Defined.

(** ** The streak over a run of events *)

Lemma addRecord_streak_step (r : PlayRecord) (o : option StatsDatabase.t)
  (c l : Z) :
  streakCount o = Some c -> streakDate o = Some l ->
  streakCount (StatsBackend.addRecord r o)
  = Some (if isoDate (timestamp r) - l =? 1 then c + 1
          else if 1 <? isoDate (timestamp r) - l then 1 else c)
  /\ streakDate (StatsBackend.addRecord r o)
     = Some (if 1 <=? isoDate (timestamp r) - l
             then isoDate (timestamp r) else l).
Proof.
  destruct o as [d|]; [|done]. intros Hc Hl.
  destruct (addRecord_streak r d) as [Ha Hb].
  unfold streakDate. rewrite Ha, Hb.
  unfold streakDate in Hl. simpl in Hc, Hl.
  destruct (StatsDatabase.getStreak d) as [s|]; [|done].
  simpl in *. by simplify_eq.
Qed.

Lemma addRecords_streak (events : list PlayRecord)
  (o : option StatsDatabase.t) (c l : Z) :
  streakCount o = Some c -> streakDate o = Some l -> 1 <= c ->
  exists c' l',
    streakCount (addRecords events o) = Some c'
    /\ streakDate (addRecords events o) = Some l'
    /\ 1 <= c' <= c + Z.of_nat (length events)
    /\ l <= l'
    /\ Forall (fun r => isoDate (timestamp r) <= l') events
    /\ (l' = l \/ Exists (fun r => isoDate (timestamp r) = l') events).
Proof.
  revert o c l. induction events as [|r events IH]; intros o c l Hc Hl Hpos.
  - exists c, l. simpl. repeat split; first [done | lia | by left].
  - destruct (addRecord_streak_step r o c l Hc Hl) as [Hc1 Hl1].
    destruct (IH _ _ _ Hc1 Hl1) as (c' & l' & Hc' & Hl' & Hb & Hle & Hall & Hex).
    { repeat case_match; lia. }
    exists c', l'. unfold addRecords in *. simpl.
    split; [exact Hc'|]. split; [exact Hl'|].
    assert (l <= l' /\ isoDate (timestamp r) <= l') as [? ?].
    { destruct (Z.leb_spec 1 (isoDate (timestamp r) - l)); lia. }
    split. { simpl length. repeat case_match; lia. }
    split; [done|]. split; [by constructor|].
    destruct Hex as [->|Hex].
    + destruct (Z.leb_spec 1 (isoDate (timestamp r) - l)).
      * right. by apply Exists_cons_hd.
      * by left.
    + right. by apply Exists_cons_tl.
Qed.

(** X3.  After any run of events on a store without a streak, a streak
    exists; its date is the latest calendar date among the events, so it
    never moves back, and its count is at least 1 and at most the number of
    events. *)
Theorem streak_after_events (events : list PlayRecord) (d : StatsDatabase.t) :
  StatsDatabase.getStreak d = None -> events <> [] ->
  exists c l,
    streakCount (addRecords events (Some d)) = Some c
    /\ streakDate (addRecords events (Some d)) = Some l
    /\ 1 <= c <= Z.of_nat (length events)
    /\ Forall (fun r => isoDate (timestamp r) <= l) events
    /\ Exists (fun r => isoDate (timestamp r) = l) events.
Proof.
  intros Hnone Hne. destruct events as [|r events]; [done|].
  destruct (addRecord_streak r d) as [Hc Hl]. rewrite Hnone in Hc, Hl.
  destruct (addRecords_streak events _ _ _ Hc Hl ltac:(lia))
    as (c' & l' & Hc' & Hl' & Hb & Hle & Hall & Hex).
  exists c', l'. unfold addRecords in *. simpl.
  split; [exact Hc'|]. split; [exact Hl'|].
  split. { simpl length. lia. }
  split; [by constructor|].
  destruct Hex as [->|Hex]; [by apply Exists_cons_hd | by apply Exists_cons_tl].
Qed.

Lemma streak_after_events_witness :
  exists c l,
    streakCount (addRecords [Samples.play "s" "a" (2 * msPerDay) 40;
                             Samples.play "s" "a" 1000 40]
                            (Some (Samples.dbOf []))) = Some c
    /\ streakDate (addRecords [Samples.play "s" "a" (2 * msPerDay) 40;
                               Samples.play "s" "a" 1000 40]
                              (Some (Samples.dbOf []))) = Some l
    /\ 1 <= c <= 2 /\ l = 2.
Proof.
  destruct (streak_after_events
              [Samples.play "s" "a" (2 * msPerDay) 40;
               Samples.play "s" "a" 1000 40]
              (Samples.dbOf []) eq_refl ltac:(discriminate))
    as (c & l & Hc & Hl & Hb & _ & _).
  exists c, l. split; [exact Hc|]. split; [exact Hl|]. split; [exact Hb|].
  vm_compute in Hl. congruence.
Defined.

(** ** The records of the day *)

Lemma isoDate_bounds (ts day : Z) :
  isoDate ts = day
  <-> dateTime day <= ts <= dateTime day + 24 * 60 * 60 * 1000 - 1.
Proof.
  unfold isoDate, dateTime, msPerDay.
  pose proof (Z.div_mod ts 86400000 ltac:(lia)) as Hdm.
  pose proof (Z.mod_pos_bound ts 86400000 ltac:(lia)) as Hb.
  change (24 * 60 * 60 * 1000) with 86400000. lia.
Qed.

(** X4.  [aggregateDailyStats] works on the records of the current UTC day:
    on any day but 1970-01-01 the records it reads are exactly the stored
    records whose timestamp falls on the day of [now].  On 1970-01-01 the
    start of the day is 0, which [getPlayRecords] takes for a missing bound,
    and every stored record is read. *)
Theorem recordsOfToday_utc_day (now : Z) (d : StatsDatabase.t) :
  let stored := playRecords (StatsDatabase.data d) in
  (isoDate now <> 0 ->
   StatsBackend.recordsOfToday now d
   ≡ₚ filter (fun r => bool_decide (isoDate (timestamp r) = isoDate now))
             stored)
  /\ (isoDate now = 0 -> StatsBackend.recordsOfToday now d ≡ₚ stored).
Proof.
  intros stored. unfold StatsBackend.recordsOfToday.
  unfold StatsDatabase.getPlayRecords. fold stored. split.
  - intros Hday. simpl.
    destruct (Z.eqb_spec (dateTime (isoDate now)) 0) as [Hz|_].
    { unfold dateTime, msPerDay in Hz. lia. }
    destruct (Z.eqb_spec (dateTime (isoDate now) + 24 * 60 * 60 * 1000 - 1) 0)
      as [Hz|_].
    { unfold dateTime, msPerDay in Hz. lia. }
    simpl. rewrite sortBy_perm.
    erewrite list_filter_iff; [done|].
    intros r. simpl. rewrite !bool_decide_spec. symmetry. apply isoDate_bounds.
  - intros Hday. rewrite Hday. simpl. apply sortBy_perm.
Qed.

Lemma recordsOfToday_utc_day_witness :
  StatsBackend.recordsOfToday (3 * msPerDay + 5)
    (Samples.dbOf [Samples.play "s" "a" 1000 40;
                   Samples.play "s" "a" (3 * msPerDay + 1) 40])
  ≡ₚ [Samples.play "s" "a" (3 * msPerDay + 1) 40].
Proof.
  exact (proj1 (recordsOfToday_utc_day (3 * msPerDay + 5)
                  (Samples.dbOf [Samples.play "s" "a" 1000 40;
                                 Samples.play "s" "a" (3 * msPerDay + 1) 40]))
               ltac:(vm_compute; discriminate)).
Defined.

(** ** Maps of counters *)

Lemma accStep_keys {K V : Type} `{EqDecision K} (key : PlayRecord -> K)
  (upd : option V -> PlayRecord -> V) (l : list PlayRecord)
  (m : list (K * V)) (k : K) :
  k ∈ (foldl (accStep key upd) m l).*1 <-> k ∈ m.*1 \/ k ∈ key <$> l.
Proof.
  revert m. induction l as [|r l IH]; intros m; csimpl.
  - split; [by left | intros [?|Hin]; [done | by apply elem_of_nil in Hin]].
  - rewrite IH. unfold accStep. rewrite Map_set_keys, elem_of_cons.
    unfold Map_has. destruct (Map_get (key r) m) as [v|] eqn:E.
    + apply Map_get_Some_elem in E.
      assert (key r ∈ m.*1) by (apply list_elem_of_fmap; by exists (key r, v)).
      split; [tauto|]. intros [?|[->|?]]; tauto.
    + rewrite elem_of_app, list_elem_of_singleton. tauto.
Qed.

Lemma sumZ_ones (sel : PlayRecord -> bool) (l : list PlayRecord) :
  sumZ sel (fun _ => 1) l = plays sel l.
Proof.
  unfold plays. induction l as [|r l IH]; simpl; [done|].
  rewrite IH, filter_cons. destruct (sel r); simpl; lia.
Qed.

(** The map filled by [m.set(key, (m.get(key) || 0) + 1)], one record after
    the other: an entry per key, holding the number of its records. *)
Lemma countMap_entries {K : Type} `{EqDecision K} (key : PlayRecord -> K)
  (l : list PlayRecord) :
  let m := foldl (fun m r => bumpZ (key r) 1 m) [] l in
  NoDup m.*1
  /\ (forall k, k ∈ m.*1 <-> k ∈ key <$> l)
  /\ (forall k n, (k, n) ∈ m ->
        n = plays (fun r => bool_decide (key r = k)) l /\ k ∈ key <$> l).
Proof.
  intros m.
  assert (m = foldl (accStep key (fun o _ => default 0 o + 1)) [] l) as Hm.
  { subst m. by apply foldl_ext_all. }
  assert (NoDup m.*1) as Hnd.
  { rewrite Hm. by apply accStep_NoDup, NoDup_nil. }
  assert (forall k, k ∈ m.*1 <-> k ∈ key <$> l) as Hkeys.
  { intros k. rewrite Hm, accStep_keys. split; [|by right].
    intros [Hin|?]; [by apply elem_of_nil in Hin | done]. }
  split; [done|]. split; [done|].
  intros k n Hin. split.
  - rewrite <- sumZ_ones.
    rewrite <- (accStep_count key (fun o _ => default 0 o + 1)
                  Datatypes.id (fun _ => 1)).
    + rewrite <- Hm. by rewrite (Map_elem_get k n m Hnd Hin).
    + intros [?|] ?; reflexivity.
  - apply Hkeys. apply list_elem_of_fmap. by exists (k, n).
Qed.

Lemma StronglySorted_take {A : Type} (R : relation A) (n : nat) (l : list A) :
  StronglySorted R l -> StronglySorted R (take n l).
Proof.
  intros H. revert n. induction H as [|x l Hl IH Hx]; intros [|n]; simpl;
    try constructor; [apply IH | by apply Forall_take].
Qed.

Lemma StronglySorted_fmap {A B : Type} (f : A -> B) (R : relation B)
  (l : list A) :
  StronglySorted (fun a b => R (f a) (f b)) l -> StronglySorted R (f <$> l).
Proof.
  induction 1 as [|x l Hl IH Hx]; csimpl; constructor; [done|].
  by apply Forall_fmap.
Qed.

Lemma find_first {A : Type} (f : A -> bool) (l : list A) (x : A) :
  x ∈ l -> f x = true -> exists y, List.find f l = Some y /\ f y = true.
Proof.
  intros Hin Hf. destruct (List.find f l) as [y|] eqn:E.
  - exists y. split; [done|]. by apply List.find_some in E as [_ ?].
  - apply list_elem_of_In in Hin.
    pose proof (List.find_none f l E x Hin). congruence.
Qed.

(** ** The daily aggregate *)

Lemma plays_all (sel : PlayRecord -> bool) (l : list PlayRecord) :
  Forall (fun r => sel r = true) l -> plays sel l = Z.of_nat (length l).
Proof.
  unfold plays. induction 1 as [|r l Hr _ IH]; [done|].
  rewrite filter_cons, Hr. simpl. lia.
Qed.

Lemma skipCount_fold (l : list PlayRecord) (n : Z) :
  foldl (fun n r => if skipped r then n + 1 else n) n l = n + plays skipped l.
Proof.
  unfold plays. revert n. induction l as [|r l IH]; intros n; simpl; [lia|].
  rewrite IH, filter_cons. destruct (skipped r); simpl; lia.
Qed.

Lemma total_alter (i : nat) (k : list Z) :
  total (alter (fun n => n + 1) i k)
  = total k + (if bool_decide (i < length k)%nat then 1 else 0).
Proof.
  unfold total. revert i. induction k as [|x k IH]; intros [|i]; cbn.
  - done.
  - done.
  - rewrite bool_decide_true by lia. lia.
  - rewrite IH. repeat case_bool_decide; lia.
Qed.

Lemma hourly_fold (getHours : Z -> nat) (l : list PlayRecord) (c : list Z) :
  let c' := foldl (fun h r => alter (fun n => n + 1) (getHours (timestamp r)) h)
                  c l in
  length c' = length c
  /\ total c'
     = total c
       + plays (fun r => bool_decide (getHours (timestamp r) < length c)%nat) l
  /\ forall h, (h < length c)%nat ->
       default 0 (c' !! h)
       = default 0 (c !! h)
         + plays (fun r => bool_decide (getHours (timestamp r) = h)) l.
Proof.
  unfold plays. revert c. induction l as [|r l IH]; intros c; simpl.
  - repeat split; intros; lia.
  - destruct (IH (alter (fun n => n + 1) (getHours (timestamp r)) c))
      as (Hlen & Htot & Hget).
    rewrite length_alter in Hlen, Htot, Hget.
    split; [done|]. rewrite !filter_cons. split.
    + rewrite Htot. clear.
      rewrite total_alter. case_bool_decide; simpl; lia.
    + intros h Hh. rewrite (Hget h Hh), filter_cons.
      case_bool_decide as Hd; simpl.
      * rewrite Hd, list_lookup_alter_eq.
        destruct (lookup_lt_is_Some_2 c h Hh) as [x ->]. simpl. lia.
      * rewrite list_lookup_alter_ne by done. lia.
Qed.

(** X5.  The daily aggregate counts every record of the day, whatever its
    duration: [songsPlayed] is the number of records, [skipCount] the number
    of skipped ones, the 24 hourly slots hold the numbers of records per
    local hour and add up to [songsPlayed], [uniqueSongs] and
    [uniqueArtists] are the numbers of distinct ids, and [totalMinutes] is
    the number that the doubles give: the minutes of all the records added
    up from 0 in the order of the list, times ten, rounded, and divided by
    ten. *)
Theorem dailyAggregateOf_counts (getHours : Z -> nat) (today : Z)
  (records : list PlayRecord) :
  let agg := StatsBackend.dailyAggregateOf getHours today records in
  da_date agg = today
  /\ da_songsPlayed agg = Z.of_nat (length records)
  /\ da_skipCount agg = plays skipped records
  /\ 0 <= da_skipCount agg <= da_songsPlayed agg
  /\ length (da_hourlyBreakdown agg) = 24%nat
  /\ (forall h, (h < 24)%nat ->
        default 0 (da_hourlyBreakdown agg !! h)
        = plays (fun r => bool_decide (getHours (timestamp r) = h)) records)
  /\ (Forall (fun r => (getHours (timestamp r) < 24)%nat) records ->
      total (da_hourlyBreakdown agg) = da_songsPlayed agg)
  /\ da_uniqueSongs agg
     = Z.of_nat (length (remove_dups (songId <$> records)))
  /\ da_uniqueArtists agg
     = Z.of_nat (length (remove_dups (artistId <$> records)))
  /\ da_uniqueSongs agg <= da_songsPlayed agg
  /\ da_totalMinutes agg
     = Number.value
         (Number.div
            (Number.ofZ
               (Math_round
                  (Number.mul (listenedMinutes (fun _ => true) records)
                              (Number.ofZ 10))))
            (Number.ofZ 10)).
Proof.
  intros agg. subst agg. unfold StatsBackend.dailyAggregateOf.
  cbn [da_date da_songsPlayed da_skipCount da_hourlyBreakdown da_uniqueSongs
       da_uniqueArtists da_totalMinutes].
  destruct (hourly_fold getHours records (replicate 24 0))
    as (Hlen & Htot & Hget).
  rewrite length_replicate in Hlen, Htot, Hget.
  assert (forall (l : list string),
            size (list_to_set l : gset string) = length (remove_dups l))
    as Hsize.
  { intros l. rewrite <- (size_list_to_set (C := gset string) (remove_dups l))
      by apply NoDup_remove_dups.
    f_equal. apply set_eq. intros x.
    by rewrite !elem_of_list_to_set, elem_of_remove_dups. }
  assert (forall (l : list string), (length (remove_dups l) <= length l)%nat)
    as Hdups.
  { intros l. apply submseteq_length, NoDup_submseteq;
      [apply NoDup_remove_dups|]. intros x. by rewrite elem_of_remove_dups. }
  split; [done|]. split; [done|].
  rewrite skipCount_fold. split; [done|]. split.
  { unfold plays. pose proof (length_filter skipped records). lia. }
  split; [done|]. split.
  { intros h Hh. rewrite (Hget h Hh), lookup_replicate_2 by done. simpl. lia. }
  split.
  { intros Hall. rewrite Htot. unfold plays.
    assert (total (replicate 24 0) = 0) as -> by reflexivity.
    fold (plays (fun r => bool_decide (getHours (timestamp r) < 24)%nat)
                records).
    rewrite plays_all; [lia|].
    eapply Forall_impl; [exact Hall|]. intros r Hr. simpl.
    by apply bool_decide_eq_true. }
  rewrite !Hsize. split; [done|]. split; [done|]. split.
  { specialize (Hdups (songId <$> records)). rewrite length_fmap in Hdups. lia. }
  unfold listenedMinutes, addMinutes.
  by rewrite filter_all by by apply Forall_forall.
Qed.

Lemma dailyAggregateOf_counts_witness :
  let agg := StatsBackend.dailyAggregateOf Samples.utcHours 0
               [Samples.play "s" "a" 1000 5; Samples.play "t" "a" 3600000 40] in
  total (da_hourlyBreakdown agg) = da_songsPlayed agg.
Proof.
  apply (proj1 (proj2 (proj2 (proj2 (proj2 (proj2 (proj2
           (dailyAggregateOf_counts Samples.utcHours 0
              [Samples.play "s" "a" 1000 5;
               Samples.play "t" "a" 3600000 40])))))))).
  repeat constructor.
Defined.

(** A record of 1 second and one of 80 seconds: the sum of the two quotients
    times ten is just below 13.5, so the aggregate holds the double 1.3. *)
Example dailyAggregateOf_tenths :
  da_totalMinutes
    (StatsBackend.dailyAggregateOf Samples.utcHours 0
       [Samples.play "s" "a" 1000 1; Samples.play "t" "a" 2000 80])
  = Number.value (Number.div (Number.ofZ 13) (Number.ofZ 10)).
Proof. vm_compute. reflexivity. Qed.

Lemma topCounts_facts {K : Type} `{EqDecision K} (key : PlayRecord -> K)
  (n : nat) (l : list PlayRecord) :
  let top := take n (sortBy byCountDesc
                       (foldl (fun m r => bumpZ (key r) 1 m) [] l)) in
  (length top <= n)%nat
  /\ StronglySorted (fun a b => b.2 <= a.2) top
  /\ NoDup top.*1
  /\ forall e, e ∈ top ->
       e.2 = plays (fun r => bool_decide (key r = e.1)) l /\ 1 <= e.2
       /\ exists r, List.find (fun r => bool_decide (key r = e.1)) l = Some r
                    /\ key r = e.1.
Proof.
  intros top. subst top.
  destruct (countMap_entries key l) as (Hnd & Hkeys & Hent).
  set (m := foldl (fun m r => bumpZ (key r) 1 m) [] l) in *.
  split. { rewrite length_take. lia. }
  split.
  { apply StronglySorted_take, sortBy_sorted.
    - intros x y z. lia.
    - intros x y. unfold byCountDesc. rewrite Z.ltb_ge. lia.
    - intros x y. unfold byCountDesc. rewrite Z.ltb_lt. lia. }
  split.
  { rewrite fmap_take. eapply sublist_NoDup; [|apply sublist_take].
    by rewrite sortBy_perm. }
  intros [k c] He. apply elem_of_top in He. simpl.
  destruct (Hent k c He) as [Hc Hk]. split; [done|].
  apply list_elem_of_fmap in Hk as (r & -> & Hr).
  destruct (find_first (fun r0 => bool_decide (key r0 = key r)) l r Hr)
    as (y & Hfind & Hy); [by apply bool_decide_eq_true|].
  split.
  - rewrite Hc. unfold plays.
    assert (r ∈ filter (fun r0 : PlayRecord => bool_decide (key r0 = key r)) l)
      as Hin.
    { apply list_elem_of_filter. split; [|done]. by apply bool_decide_pack. }
    destruct (filter _ l); [by apply elem_of_nil in Hin | simpl; lia].
  - exists y. split; [done|]. by apply bool_decide_eq_true in Hy.
Qed.

(** X6.  The top lists of the daily aggregate hold at most ten entries with
    distinct ids, ordered by play count, largest first.  An entry's [plays]
    is the number of the day's records with its id, short plays included,
    and its title (or name) is read off the first record with that id. *)
Theorem dailyAggregateOf_top_lists (getHours : Z -> nat) (today : Z)
  (records : list PlayRecord) :
  let agg := StatsBackend.dailyAggregateOf getHours today records in
  ((length (da_topSongs agg) <= 10)%nat
   /\ StronglySorted (fun a b => ts_plays b <= ts_plays a) (da_topSongs agg)
   /\ NoDup (ts_id <$> da_topSongs agg)
   /\ forall s, s ∈ da_topSongs agg ->
        ts_plays s = plays (fun r => bool_decide (songId r = ts_id s)) records
        /\ 1 <= ts_plays s
        /\ exists r, List.find (fun r => bool_decide (songId r = ts_id s))
                               records = Some r
                     /\ ts_title s = songTitle r)
  /\ ((length (da_topArtists agg) <= 10)%nat
      /\ StronglySorted (fun a b => ta_plays b <= ta_plays a)
                        (da_topArtists agg)
      /\ NoDup (ta_id <$> da_topArtists agg)
      /\ forall a, a ∈ da_topArtists agg ->
           ta_plays a
           = plays (fun r => bool_decide (artistId r = ta_id a)) records
           /\ 1 <= ta_plays a
           /\ exists r, List.find (fun r => bool_decide (artistId r = ta_id a))
                                  records = Some r
                        /\ ta_name a = artistName r).
Proof.
  intros agg. subst agg. unfold StatsBackend.dailyAggregateOf.
  cbn [da_topSongs da_topArtists]. split.
  - destruct (topCounts_facts songId 10 records) as (Hlen & Hsort & Hnd & Hent).
    split; [by rewrite length_fmap|]. split.
    { apply StronglySorted_fmap. exact Hsort. }
    split. { rewrite <- list_fmap_compose. exact Hnd. }
    intros s Hs. apply list_elem_of_fmap in Hs as (e & -> & He).
    destruct (Hent e He) as (Hp & Hpos & r & Hfind & Hkey).
    cbn [ts_plays ts_id ts_title]. split; [done|]. split; [done|].
    exists r. split; [done|]. unfold StatsBackend.titleOf. by rewrite Hfind.
  - destruct (topCounts_facts artistId 10 records)
      as (Hlen & Hsort & Hnd & Hent).
    split; [by rewrite length_fmap|]. split.
    { apply StronglySorted_fmap. exact Hsort. }
    split. { rewrite <- list_fmap_compose. exact Hnd. }
    intros a Ha. apply list_elem_of_fmap in Ha as (e & -> & He).
    destruct (Hent e He) as (Hp & Hpos & r & Hfind & Hkey).
    cbn [ta_plays ta_id ta_name]. split; [done|]. split; [done|].
    exists r. split; [done|]. unfold StatsBackend.nameOf. by rewrite Hfind.
Qed.

(** ** The synchronisation pass *)

Section SyncPass.
Import StatsBackend.
Variable JSON_stringify : ExportBundle -> string.
Variable JSON_parse : string -> ParseResult.
Variable sha256 : string -> string.

Local Ltac in_list :=
  solve [repeat first [apply list_elem_of_here | apply list_elem_of_further]].

Lemma wp_ret {A} (a : A) (Q : Outcome A -> t -> Prop) (st : t) :
  Q (Returned a) st -> wp (ret a) Q st.
Proof. done. Qed.

Lemma wp_throw {A} (msg : string) (Q : Outcome A -> t -> Prop) (st : t) :
  Q (Thrown msg) st -> wp (throw msg) Q st.
Proof. done. Qed.

Lemma wp_bind {A B} (m : M A) (k : A -> M B) (Q : Outcome B -> t -> Prop)
  (st : t) :
  wp m (fun o st1 =>
          match o with
          | Returned a => wp (k a) Q st1
          | Thrown msg => Q (Thrown msg) st1
          end) st ->
  wp (bind m k) Q st.
Proof.
  unfold wp, bind. by destruct (m st) as [[a|msg] st1].
Qed.

Lemma wp_await {A} (o : Outcome A) (Q : Outcome A -> t -> Prop) (st : t) :
  Q o st -> wp (await o) Q st.
Proof. done. Qed.

Lemma wp_mono {A} (m : M A) (Q Q' : Outcome A -> t -> Prop) (st : t) :
  wp m Q st -> (forall o st', Q o st' -> Q' o st') -> wp m Q' st.
Proof. unfold wp. auto. Qed.

Lemma wp_fetch (net : Request -> Outcome Response) (rq : Request)
  (Q : Outcome Response -> t -> Prop) (st : t) :
  Q (net rq) (sent rq st) -> wp (fetch net rq) Q st.
Proof. done. Qed.

Lemma writes_sent (rq : Request) (st : t) :
  writes (sent rq st) = (writes st + if isWrite rq then 1 else 0)%nat.
Proof.
  unfold writes, sent. cbn [journal].
  rewrite filter_app, length_app, filter_cons, filter_nil.
  by destruct (isWrite rq).
Qed.

Lemma frame_refl (st : t) : frame false 0 st st.
Proof. repeat split; auto. Qed.

Lemma frame_trans (b1 b2 : bool) (n1 n2 : nat) (st1 st2 st3 : t) :
  frame b1 n1 st1 st2 -> frame b2 n2 st2 st3 ->
  frame (b1 || b2) (n1 + n2) st1 st3.
Proof.
  intros (Hs1 & Hm1 & Hw1 & Hd1) (Hs2 & Hm2 & Hw2 & Hd2).
  repeat split; [congruence | congruence | lia |].
  intros [-> ->]%orb_false_iff. rewrite Hd2, Hd1; done.
Qed.

(** The token step keeps the frame: a refresh is no write, and its patch
    touches the token fields and the error only. *)
Lemma ensureAccessToken_frame (now : Z) (config : StatsConfig)
  (net : Request -> Outcome Response) (st : t) :
  frame false 0 st (ensureAccessToken now config net st).2.
Proof.
  unfold ensureAccessToken.
  repeat (match goal with |- context [if ?b then _ else _] =>
            destruct b end; [apply frame_refl|]).
  unfold bind, fetch. cbn beta iota.
  set (rq := TokenRefresh _ _ _).
  assert (frame false 0 st (sent rq st)) as Hsent.
  { repeat split; auto. rewrite writes_sent. simpl. lia. }
  destruct (net rq) as [response|msg]; [|exact Hsent].
  destruct (negb (resp_ok response)); [exact Hsent|].
  unfold await. destruct (resp_json response) as [json|msg]; [|exact Hsent].
  destruct (negb (truthy (access_token json))); [exact Hsent|].
  destruct Hsent as (Hs & Hm & Hw & Hd). repeat split; auto.
Qed.

Lemma exportLocal_frame (now : Z) (st : t) :
  (exportLocal JSON_stringify now st).2 = st.
Proof. unfold exportLocal. by destruct (db st). Qed.

Lemma importLocal_frame (written : bool) (jsonData : string) (st : t) :
  frame true 0 st (importLocal JSON_parse written jsonData st).2.
Proof.
  unfold importLocal. destruct (db st) as [d|] eqn:Hd.
  - destruct (StatsDatabase.importData _ _ _ _) as [[[]|msg] d'];
      repeat split; auto; done.
  - repeat split; auto; done.
Qed.

Lemma findDriveFile_frame (net : Request -> Outcome Response)
  (accessToken : string) (st : t) :
  frame false 0 st (findDriveFile net accessToken st).2.
Proof.
  unfold findDriveFile, bind, fetch, await. cbn beta iota.
  set (rq := DriveList _).
  assert (frame false 0 st (sent rq st)) as Hsent.
  { repeat split; auto. rewrite writes_sent. simpl. lia. }
  destruct (net rq) as [response|msg]; [|exact Hsent].
  destruct (negb (resp_ok response)); [exact Hsent|].
  by destruct (resp_json response).
Qed.

Lemma downloadDriveFile_frame (net : Request -> Outcome Response)
  (accessToken fileId : string) (st : t) :
  frame false 0 st (downloadDriveFile net accessToken fileId st).2.
Proof.
  unfold downloadDriveFile, bind, fetch, await. cbn beta iota.
  set (rq := DriveDownload _ _).
  assert (frame false 0 st (sent rq st)) as Hsent.
  { repeat split; auto. rewrite writes_sent. simpl. lia. }
  destruct (net rq) as [response|msg]; [|exact Hsent].
  destruct (negb (resp_ok response)); [exact Hsent|].
  by destruct (resp_text response).
Qed.

Lemma createDriveFile_frame (net : Request -> Outcome Response)
  (accessToken content : string) (st : t) :
  frame false 1 st (createDriveFile net accessToken content st).2.
Proof.
  unfold createDriveFile, bind, fetch, await. cbn beta iota.
  set (rq := DriveCreate _ _).
  assert (frame false 1 st (sent rq st)) as Hsent.
  { repeat split; auto. by rewrite writes_sent. }
  destruct (net rq) as [response|msg]; [|exact Hsent].
  by destruct (negb (resp_ok response)).
Qed.

Lemma uploadDriveFile_frame (net : Request -> Outcome Response)
  (accessToken fileId content : string) (st : t) :
  frame false 1 st (uploadDriveFile net accessToken fileId content st).2.
Proof.
  unfold uploadDriveFile, bind, fetch. cbn beta iota.
  set (rq := DriveUpdate _ _ _).
  assert (frame false 1 st (sent rq st)) as Hsent.
  { repeat split; auto. by rewrite writes_sent. }
  destruct (net rq) as [response|msg]; [|exact Hsent].
  by destruct (negb (resp_ok response)).
Qed.

(** A step that keeps a frame, followed by a continuation. *)
Lemma wp_frame {A B} (m : M A) (k : A -> M B) (b : bool) (n : nat)
  (Q : Outcome B -> t -> Prop) (st : t) :
  frame b n st (m st).2 ->
  (forall st1 msg, frame b n st st1 -> Q (Thrown msg) st1) ->
  (forall st1 a, frame b n st st1 -> wp (k a) Q st1) ->
  wp (bind m k) Q st.
Proof.
  intros Hf Ht Hk. apply wp_bind. unfold wp.
  destruct (m st) as [[a|msg] st1]; cbn [fst snd] in *.
  - exact (Hk st1 a Hf).
  - exact (Ht st1 msg Hf).
Qed.

(** The end of every successful branch: the patch is stored and the result
    returned. *)
Lemma wp_done (now : Z) (st0 st : t) (b : bool) (n : nat) (msg hash : string)
  (patch : StatsConfig -> StatsConfig) :
  frame b n st0 st ->
  (n <= 1)%nat ->
  (msg, (b, n)) ∈ passKinds ->
  (forall c, cloudSyncLastError (patch c) = Some ""%string
             /\ cloudSyncLastSyncTime (patch c) = Some now
             /\ cloudSyncLastHash (patch c) = Some hash) ->
  wp (setConfig patch ;;; ret (resultOk msg)) (syncPost now st0) st.
Proof.
  intros (Hs & Hm & Hw & Hd) Hn Hk Hp. unfold wp, bind, setConfig, ret.
  cbn [fst snd]. unfold syncPost, writes in *. cbn [isSyncing journal store db].
  destruct (Hp (store st)) as (He & Ht & Hh).
  repeat split; auto; [lia|].
  exists b, n. auto.
Qed.

Lemma failed_post (now : Z) (st0 st : t) (b : bool) (n : nat) (msg : string) :
  frame b n st0 st -> (n <= 1)%nat -> syncPost now st0 (Thrown msg) st.
Proof.
  intros (Hs & Hm & Hw & Hd) Hn. unfold syncPost. repeat split; auto. lia.
Qed.

Lemma passKinds_elem (msg : string) (b : bool) (n : nat) :
  bool_decide ((msg, (b, n)) ∈ passKinds) = true -> (msg, (b, n)) ∈ passKinds.
Proof. apply bool_decide_eq_true_1. Qed.

Lemma reconcile_post (now : Z) (written : bool) (config : StatsConfig)
  (net : Request -> Outcome Response) (accessToken fileId : string)
  (localJson localHash : string) (localParsed : Export)
  (remoteJson remoteHash : string) (st0 st : t) :
  frame false 0 st0 st ->
  wp (reconcile JSON_stringify JSON_parse sha256 now written config net
        accessToken fileId localJson localHash localParsed
        remoteJson remoteHash)
     (syncPost now st0) st.
Proof.
  intros Hf. unfold reconcile.
  destruct (_ && _).
  - eapply wp_frame; [apply importLocal_frame| |].
    + intros st1 msg H1.
      eapply failed_post; [exact (frame_trans _ _ _ _ _ _ _ Hf H1)|lia].
    + intros st1 _ H1.
      pose proof (frame_trans _ _ _ _ _ _ _ Hf H1) as H01.
      eapply wp_frame; [apply uploadDriveFile_frame| |].
      * intros st2 msg H2.
        eapply failed_post; [exact (frame_trans _ _ _ _ _ _ _ H01 H2)|lia].
      * intros st2 _ H2.
        eapply wp_done;
          [exact (frame_trans _ _ _ _ _ _ _ H01 H2) | simpl; lia
          | by apply passKinds_elem | done].
  - destruct (_ <? _).
    + eapply wp_frame; [apply importLocal_frame| |].
      * intros st1 msg H1.
        eapply failed_post; [exact (frame_trans _ _ _ _ _ _ _ Hf H1)|lia].
      * intros st1 _ H1.
        eapply wp_done;
          [exact (frame_trans _ _ _ _ _ _ _ Hf H1) | simpl; lia
          | by apply passKinds_elem | done].
    + eapply wp_frame; [apply uploadDriveFile_frame| |].
      * intros st1 msg H1.
        eapply failed_post; [exact (frame_trans _ _ _ _ _ _ _ Hf H1)|lia].
      * intros st1 _ H1.
        eapply wp_done;
          [exact (frame_trans _ _ _ _ _ _ _ Hf H1) | simpl; lia
          | by apply passKinds_elem | done].
Qed.

(** The part of the [try] block that follows the choice of the file id. *)
Lemma syncFile_post (now : Z) (written : bool) (config : StatsConfig)
  (net : Request -> Outcome Response) (accessToken localJson fileId : string)
  (st0 st : t) :
  frame false 0 st0 st ->
  wp (if negb (truthy (Some fileId)) then
        created <- createDriveFile net accessToken localJson ;;
        setConfig (patchCreated (created_id created) now (sha256 localJson)) ;;;
        ret (resultOk "Cloud sync initialized.")
      else
        remoteJson <- downloadDriveFile net accessToken fileId ;;
        if negb (truthy remoteJson) then
          uploadDriveFile net accessToken fileId localJson ;;;
          setConfig (patchSynced now (sha256 localJson)) ;;;
          ret (resultOk "Cloud sync updated.")
        else
          if String.eqb (sha256 (default ""%string remoteJson))
                        (sha256 localJson) then
            setConfig (patchSynced now (sha256 localJson)) ;;;
            ret (resultOk "Cloud sync up to date.")
          else
            reconcile JSON_stringify JSON_parse sha256 now written config net
              accessToken fileId localJson (sha256 localJson)
              (parseExport JSON_parse localJson)
              (default ""%string remoteJson)
              (sha256 (default ""%string remoteJson)))
     (syncPost now st0) st.
Proof.
  intros Hf. destruct (negb _).
  - eapply wp_frame; [apply createDriveFile_frame| |].
    + intros st1 msg H1.
      eapply failed_post; [exact (frame_trans _ _ _ _ _ _ _ Hf H1)|lia].
    + intros st1 created H1.
      eapply wp_done;
        [exact (frame_trans _ _ _ _ _ _ _ Hf H1) | simpl; lia
        | by apply passKinds_elem | done].
  - eapply wp_frame; [apply downloadDriveFile_frame| |].
    + intros st1 msg H1.
      eapply failed_post; [exact (frame_trans _ _ _ _ _ _ _ Hf H1)|lia].
    + intros st1 remoteJson H1.
      pose proof (frame_trans _ _ _ _ _ _ _ Hf H1) as H01.
      destruct (negb _).
      * eapply wp_frame; [apply uploadDriveFile_frame| |].
        -- intros st2 msg H2.
           eapply failed_post; [exact (frame_trans _ _ _ _ _ _ _ H01 H2)|lia].
        -- intros st2 _ H2.
           eapply wp_done;
             [exact (frame_trans _ _ _ _ _ _ _ H01 H2) | simpl; lia
             | by apply passKinds_elem | done].
      * destruct (String.eqb _ _).
        -- eapply wp_done;
             [exact H01 | simpl; lia | by apply passKinds_elem | done].
        -- by apply reconcile_post.
Qed.

(** The [try] block as a whole. *)
Lemma syncBody_post (now : Z) (written : bool) (config : StatsConfig)
  (net : Request -> Outcome Response) (st : t) :
  wp (syncBody JSON_stringify JSON_parse sha256 now written config net)
     (syncPost now st) st.
Proof.
  unfold syncBody.
  eapply wp_frame; [apply ensureAccessToken_frame| |].
  { intros st1 msg H1. eapply failed_post; [exact H1|lia]. }
  intros st1 accessToken H1.
  apply wp_bind. unfold wp at 1.
  pose proof (exportLocal_frame now st1) as He.
  destruct (exportLocal JSON_stringify now st1) as [[localJson|msg] st2].
  2:{ cbn [fst snd] in *. subst st2. eapply failed_post; [exact H1|lia]. }
  cbn [fst snd] in *. subst st2.
  apply wp_bind. destruct (truthy (cloudSyncFileId config)).
  - apply wp_ret. by apply syncFile_post.
  - eapply wp_frame; [apply findDriveFile_frame| |].
    + intros st2 msg H2.
      eapply failed_post; [exact (frame_trans _ _ _ _ _ _ _ H1 H2)|lia].
    + intros st2 found H2. apply wp_ret.
      apply syncFile_post. exact (frame_trans _ _ _ _ _ _ _ H1 H2).
Qed.

(** The two ways a call ends: it is refused and changes nothing, or the
    [try] block has run from a ready, connected backend. *)
Lemma syncDriveNow_cases (now : Z) (written : bool) (config : StatsConfig)
  (net : Request -> Outcome Response) (st : t) :
  exists r st',
    syncDriveNow JSON_stringify JSON_parse sha256 now written config net st
    = (Returned r, st')
    /\ isSyncing st' = isSyncing st
    /\ ((st' = st /\ ok r = false
         /\ message r ∈ ["Sync already in progress."%string;
                         "Database not ready."%string;
                         "Cloud sync is disabled."%string;
                         "Connect Google Drive first."%string])
        \/ (isSyncing st = false /\ db st <> None
            /\ cloudSyncEnabled config = true
            /\ (writes st' <= writes st + 1)%nat
            /\ ((ok r = true
                 /\ cloudSyncLastError (store st') = Some ""%string
                 /\ cloudSyncLastSyncTime (store st') = Some now
                 /\ is_Some (cloudSyncLastHash (store st'))
                 /\ exists replaces sent,
                      (message r, (replaces, sent)) ∈ passKinds
                      /\ writes st' = (writes st + sent)%nat
                      /\ (replaces = false -> db st' = db st))
                \/ (r = resultFailed "Cloud sync failed."
                    /\ syncMeta st' = syncMeta st
                    /\ exists msg, msg <> ""%string
                         /\ cloudSyncLastError (store st') = Some msg)))).
Proof.
  unfold syncDriveNow.
  destruct (isSyncing st) eqn:Hbusy.
  { eexists _, _. split; [reflexivity|]. split; [done|].
    left. repeat split. in_list. }
  destruct (db st) as [d|] eqn:Hdb.
  2:{ eexists _, _. split; [reflexivity|]. split; [done|].
      left. repeat split. in_list. }
  destruct (cloudSyncEnabled config) eqn:Hen.
  2:{ eexists _, _. split; [reflexivity|]. split; [done|].
      left. repeat split. in_list. }
  cbn [negb].
  destruct (negb (truthy (cloudSyncClientId config))).
  { eexists _, _. split; [reflexivity|]. split; [done|].
    left. repeat split. in_list. }
  destruct (_ && _).
  { eexists _, _. split; [reflexivity|]. split; [done|].
    left. repeat split. in_list. }
  unfold bind, setSyncing, finallyIdle, tryCatch. cbn beta iota.
  set (st1 := {| db := db st; isSyncing := true |}).
  pose proof (syncBody_post now written config net st1) as Hpost.
  unfold wp in Hpost.
  destruct (syncBody _ _ _ _ _ _ _ st1) as [[r|msg] st2].
  - cbn [fst snd] in Hpost.
    destruct Hpost as (_ & Hw & Hok & He & Ht & Hh & b & n & Hk & Hn & Hd).
    eexists _, _. split; [reflexivity|]. split; [done|].
    right. split; [done|]. split; [done|]. split; [done|].
    split; [exact Hw|]. left.
    split; [done|]. split; [exact He|]. split; [exact Ht|].
    split; [exact Hh|]. exists b, n.
    split; [done|]. split; [exact Hn|]. intros Hb. by rewrite <- Hdb, (Hd Hb).
  - cbn [fst snd] in Hpost. destruct Hpost as (_ & Hw & Hm).
    unfold syncFailed, bind, setConfig, ret. cbn beta iota.
    eexists _, _. split; [reflexivity|]. split; [done|].
    right. split; [done|]. split; [done|]. split; [done|].
    split; [exact Hw|]. right.
    split; [done|]. split; [exact Hm|].
    cbn [store]. eexists. split; [|reflexivity].
    cbn [truthy]. destruct (String.eqb_spec msg ""); cbn [negb]; done.
Qed.

(** X7.  A call of [syncDriveNow] never throws and leaves the [isSyncing]
    flag as it found it: whatever the network answers, and whether the pass
    fails or not, a result is returned and a pass that started has reset the
    flag.  A call made while a pass is running is refused without touching
    the state. *)
Theorem syncDriveNow_returns_and_resets (now : Z) (written : bool)
  (config : StatsConfig) (net : Request -> Outcome Response) (st : t) :
  let run := syncDriveNow JSON_stringify JSON_parse sha256 now written
               config net st in
  (exists r, run.1 = Returned r)
  /\ isSyncing run.2 = isSyncing st
  /\ (isSyncing st = true ->
      run = (Returned (resultFailed "Sync already in progress."), st)).
Proof.
  intros run. subst run.
  assert (isSyncing st = true ->
          syncDriveNow JSON_stringify JSON_parse sha256 now written
            config net st
          = (Returned (resultFailed "Sync already in progress."), st))
    as Hbusy.
  { intros Hbusy. unfold syncDriveNow. by rewrite Hbusy. }
  destruct (syncDriveNow_cases now written config net st)
    as (r & st' & Hrun & Hs & _).
  rewrite Hrun in *. repeat split; eauto.
Qed.

(** X8.  The preconditions of a pass.  When the database is not open, sync
    is disabled, the client id is missing, or neither a refresh token nor a
    stored or session access token is at hand, the call is refused: the
    result is not [ok], no request is sent and nothing is stored. *)
Theorem syncDriveNow_refused (now : Z) (written : bool)
  (config : StatsConfig) (net : Request -> Outcome Response) (st : t) :
  db st = None
  \/ cloudSyncEnabled config = false
  \/ truthy (cloudSyncClientId config) = false
  \/ (truthy (cloudSyncRefreshToken config) = false
      /\ truthy (cloudSyncAccessToken config) = false
      /\ truthy (sessionAccessToken st) = false) ->
  exists msg,
    syncDriveNow JSON_stringify JSON_parse sha256 now written config net st
    = (Returned (resultFailed msg), st)
    /\ msg ∈ ["Sync already in progress."%string;
              "Database not ready."%string;
              "Cloud sync is disabled."%string;
              "Connect Google Drive first."%string].
Proof.
  intros Hguard. unfold syncDriveNow.
  destruct (isSyncing st); [eexists; split; [reflexivity|in_list]|].
  destruct (db st); [|eexists; split; [reflexivity|in_list]].
  destruct (cloudSyncEnabled config);
    [|eexists; split; [reflexivity|in_list]].
  cbn [negb].
  destruct (truthy (cloudSyncClientId config));
    [|eexists; split; [reflexivity|in_list]].
  cbn [negb].
  destruct Hguard as [?|[?|[?|(-> & -> & ->)]]]; try done.
  eexists; split; [reflexivity|in_list].
Qed.

(** X9.  A pass that reports success has recorded it: the last error is
    cleared, the time of the pass is the last sync time and a hash is
    stored.  Success is only reported by a pass that started, that is on an
    idle backend with an open database and sync enabled. *)
Theorem syncDriveNow_success_recorded (now : Z) (written : bool)
  (config : StatsConfig) (net : Request -> Outcome Response) (st : t)
  (r : SyncResult) (st' : t) :
  syncDriveNow JSON_stringify JSON_parse sha256 now written config net st
  = (Returned r, st') ->
  ok r = true ->
  cloudSyncLastError (store st') = Some ""%string
  /\ cloudSyncLastSyncTime (store st') = Some now
  /\ is_Some (cloudSyncLastHash (store st'))
  /\ isSyncing st = false /\ db st <> None /\ cloudSyncEnabled config = true.
Proof.
  intros Hrun Hok.
  destruct (syncDriveNow_cases now written config net st)
    as (r0 & st0 & Hrun0 & _ & Hcases).
  rewrite Hrun in Hrun0. injection Hrun0 as <- <-.
  destruct Hcases as [(_ & Hno & _)|(Hidle & Hdb & Hen & _ & Hpass)];
    [congruence|].
  destruct Hpass as [(_ & He & Ht & Hh & _)|(-> & _)]; [|done].
  repeat split; auto.
Qed.

(** X10.  A call that does not report success never advances the
    synchronisation metadata: the recorded hash, the last sync time and the
    file id are those of before.  Either nothing at all has changed (the
    call was refused), or the pass failed, the result says
    ['Cloud sync failed.'] and a non-empty error message is stored. *)
Theorem syncDriveNow_failure_keeps_metadata (now : Z) (written : bool)
  (config : StatsConfig) (net : Request -> Outcome Response) (st : t)
  (r : SyncResult) (st' : t) :
  syncDriveNow JSON_stringify JSON_parse sha256 now written config net st
  = (Returned r, st') ->
  ok r = false ->
  syncMeta st' = syncMeta st
  /\ (st' = st
      \/ (message r = "Cloud sync failed."%string
          /\ exists msg, msg <> ""%string
               /\ cloudSyncLastError (store st') = Some msg)).
Proof.
  intros Hrun Hok.
  destruct (syncDriveNow_cases now written config net st)
    as (r0 & st0 & Hrun0 & _ & Hcases).
  rewrite Hrun in Hrun0. injection Hrun0 as <- <-.
  destruct Hcases as [(-> & _)|(_ & _ & _ & _ & Hpass)]; [by split; [|left]|].
  destruct Hpass as [(Hyes & _)|(-> & Hm & Hmsg)]; [congruence|].
  split; [done|]. by right.
Qed.

(** X11.  What a pass does, by the message it returns.  Any call sends at
    most one write request (a create or an update) to Drive.  A successful
    pass returns one of six messages; 'up to date' and 'pulled updates' send
    no write request, the other four send exactly one; and the local
    document is replaced only by 'merged changes' and 'pulled updates'. *)
Theorem syncDriveNow_writes_and_document (now : Z) (written : bool)
  (config : StatsConfig) (net : Request -> Outcome Response) (st : t)
  (r : SyncResult) (st' : t) :
  syncDriveNow JSON_stringify JSON_parse sha256 now written config net st
  = (Returned r, st') ->
  (writes st' <= writes st + 1)%nat
  /\ (ok r = true ->
      message r ∈ ["Cloud sync initialized."%string;
                   "Cloud sync updated."%string;
                   "Cloud sync up to date."%string;
                   "Cloud sync merged changes."%string;
                   "Cloud sync pulled updates."%string;
                   "Cloud sync pushed updates."%string]
      /\ writes st'
         = (writes st
            + if bool_decide (message r ∈ ["Cloud sync up to date."%string;
                                           "Cloud sync pulled updates."%string])
              then 0 else 1)%nat
      /\ (message r ∉ ["Cloud sync merged changes."%string;
                       "Cloud sync pulled updates."%string] ->
          db st' = db st)).
Proof.
  intros Hrun.
  destruct (syncDriveNow_cases now written config net st)
    as (r0 & st0 & Hrun0 & _ & Hcases).
  rewrite Hrun in Hrun0. injection Hrun0 as <- <-.
  destruct Hcases as [(-> & Hno & _)|(_ & _ & _ & Hw & Hpass)].
  { split; [lia|]. congruence. }
  split; [done|]. intros Hok.
  destruct Hpass as [(_ & _ & _ & _ & b & n & Hk & Hn & Hd)|(-> & _)]; [|done].
  unfold passKinds in Hk.
  repeat (apply elem_of_cons in Hk as [Hk|Hk];
          [injection Hk as -> -> ->;
           (split; [in_list|]); (split; [exact Hn|]);
           first [ intros _; by apply Hd
                 | intros Hnot; exfalso; apply Hnot; in_list ]|]).
  by apply elem_of_nil in Hk.
Qed.

End SyncPass.

(** A first pass on a connected backend succeeds. *)
Lemma syncDriveNow_success_recorded_witness :
  StatsBackend.cloudSyncLastSyncTime
    (StatsBackend.store (Samples.passOf Samples.firstConfig (Samples.net None)).2)
  = Some Samples.now.
Proof.
  refine (proj1 (proj2
    (syncDriveNow_success_recorded Samples.stringify Samples.parse
       Samples.sha256 Samples.now true Samples.firstConfig (Samples.net None)
       (Samples.stateOf Samples.syncDb Samples.firstConfig)
       (StatsBackend.resultOk "Cloud sync initialized.")
       (Samples.passOf Samples.firstConfig (Samples.net None)).2 _ _)));
    vm_compute; reflexivity.
Defined.

(** A backend that was never connected is refused. *)
Lemma syncDriveNow_refused_witness :
  exists msg,
    Samples.passOf Samples.blankConfig Samples.offline
    = (Returned (StatsBackend.resultFailed msg),
       Samples.stateOf Samples.syncDb Samples.blankConfig)
    /\ msg ∈ ["Sync already in progress."%string;
              "Database not ready."%string;
              "Cloud sync is disabled."%string;
              "Connect Google Drive first."%string].
Proof.
  apply (syncDriveNow_refused Samples.stringify Samples.parse Samples.sha256
           Samples.now true Samples.blankConfig Samples.offline
           (Samples.stateOf Samples.syncDb Samples.blankConfig)).
  right. right. left. reflexivity.
Defined.

(** A pass whose token refresh is rejected by the network fails. *)
Lemma syncDriveNow_failure_keeps_metadata_witness :
  syncMeta (Samples.passOf Samples.staleConfig Samples.offline).2
  = syncMeta (Samples.stateOf Samples.syncDb Samples.staleConfig).
Proof.
  refine (proj1
    (syncDriveNow_failure_keeps_metadata Samples.stringify Samples.parse
       Samples.sha256 Samples.now true Samples.staleConfig Samples.offline
       (Samples.stateOf Samples.syncDb Samples.staleConfig)
       (StatsBackend.resultFailed "Cloud sync failed.")
       (Samples.passOf Samples.staleConfig Samples.offline).2 _ _));
    vm_compute; reflexivity.
Defined.

(** The first pass sends its one write request. *)
Lemma syncDriveNow_writes_and_document_witness :
  (writes (Samples.passOf Samples.firstConfig (Samples.net None)).2
   <= writes (Samples.stateOf Samples.syncDb Samples.firstConfig) + 1)%nat.
Proof.
  refine (proj1
    (syncDriveNow_writes_and_document Samples.stringify Samples.parse
       Samples.sha256 Samples.now true Samples.firstConfig (Samples.net None)
       (Samples.stateOf Samples.syncDb Samples.firstConfig)
       (StatsBackend.resultOk "Cloud sync initialized.")
       (Samples.passOf Samples.firstConfig (Samples.net None)).2 _));
    vm_compute; reflexivity.
Defined.

(** ** The rankings of computeStats *)

Lemma filter_ext_elem {A : Type} (P Q : A -> Prop)
  `{!forall x, Decision (P x)} `{!forall x, Decision (Q x)} (l : list A) :
  (forall x, x ∈ l -> P x <-> Q x) -> filter P l = filter Q l.
Proof.
  induction l as [|x l IH]; intros Hext; [done|].
  rewrite !filter_cons, IH by (intros y Hy; apply Hext; by right).
  pose proof (Hext x (list_elem_of_here _ _)) as Hx.
  destruct (decide (P x)), (decide (Q x)); try done; tauto.
Qed.

Lemma filter_fmap {A B : Type} (f : A -> B) (P : B -> Prop)
  `{!forall x, Decision (P x)} (l : list A) :
  filter P (f <$> l) = f <$> filter (fun x => P (f x)) l.
Proof.
  induction l as [|x l IH]; [done|]. csimpl.
  rewrite !filter_cons, IH. by destruct (decide (P (f x))).
Qed.

Lemma StronglySorted_elem {A : Type} (R R' : relation A) (l : list A) :
  StronglySorted R l ->
  (forall a b, a ∈ l -> b ∈ l -> R a b -> R' a b) ->
  StronglySorted R' l.
Proof.
  induction 1 as [|x l Hl IH Hx]; intros H; constructor.
  - apply IH. intros a b Ha Hb. apply H; by right.
  - rewrite Forall_forall in *. intros y Hy.
    apply H; [by left | by right | by apply Hx].
Qed.

(** The keys of a [Map] are kept in the order of their first [set]. *)
Lemma accStep_firstSeen {K V : Type} `{EqDecision K} (key : PlayRecord -> K)
  (upd : option V -> PlayRecord -> V) (l : list PlayRecord) :
  (foldl (accStep key upd) [] l).*1 = firstSeen (key <$> l).
Proof.
  assert (forall m,
    (foldl (accStep key upd) m l).*1
    = m.*1 ++ filter (fun k => k ∉ m.*1) (firstSeen (key <$> l))) as Hgen.
  { induction l as [|r l IH]; intros m; csimpl.
    - by rewrite filter_nil, app_nil_r.
    - rewrite IH.
      assert ((accStep key upd m r).*1
              = if Map_has (key r) m then m.*1 else m.*1 ++ [key r]) as ->.
      { unfold accStep. apply Map_set_keys. }
      unfold Map_has. rewrite filter_cons.
      destruct (Map_get (key r) m) as [v|] eqn:E.
      + apply Map_get_Some_elem in E.
        assert (key r ∈ m.*1) as Hin.
        { apply list_elem_of_fmap. by exists (key r, v). }
        rewrite decide_False by (intros Hn; by apply Hn).
        f_equal. rewrite list_filter_filter. apply list_filter_iff.
        intros k. split; [|tauto]. intros Hk. split; [done|]. by intros ->.
      + apply Map_get_None in E. rewrite decide_True by done.
        rewrite <- app_assoc. simpl. do 2 f_equal.
        rewrite list_filter_filter. apply list_filter_iff.
        intros k. rewrite elem_of_app, list_elem_of_singleton. tauto. }
  rewrite Hgen. simpl. apply filter_all.
  apply Forall_forall. intros k _. apply not_elem_of_nil.
Qed.

(** A field that the first update sets and the later ones keep is that of
    the first record with the key. *)
Lemma accStep_first {K V T : Type} `{EqDecision K} (key : PlayRecord -> K)
  (upd : option V -> PlayRecord -> V) (fld : V -> T) (init : PlayRecord -> T)
  (l : list PlayRecord) (k : K) (v : V) :
  (forall v0 r, fld (upd (Some v0) r) = fld v0) ->
  (forall r, fld (upd None r) = init r) ->
  Map_get k (foldl (accStep key upd) [] l) = Some v ->
  exists r, List.find (fun r => bool_decide (key r = k)) l = Some r
            /\ fld v = init r.
Proof.
  intros Hkeep Hinit. rewrite accStep_get. simpl.
  assert (forall o,
    foldl (fun o r => if decide (key r = k) then Some (upd o r) else o) o l
    = Some v ->
    match o with
    | Some v0 => fld v = fld v0
    | None => exists r, List.find (fun r => bool_decide (key r = k)) l = Some r
                        /\ fld v = init r
    end) as Hgen.
  { induction l as [|r l IH]; intros o; simpl.
    - intros ->. done.
    - intros Hv. apply IH in Hv.
      destruct (decide (key r = k)) as [Hk|Hk].
      + rewrite bool_decide_true by done.
        destruct o as [v0|]; [by rewrite Hv, Hkeep|].
        exists r. by rewrite Hv, Hinit.
      + rewrite bool_decide_false by done. done. }
  apply (Hgen None).
Qed.

(** The order of doubles is that of the reals they stand for, with the two
    infinities at the ends. *)
Local Ltac number_order :=
  cbn [Number.lt andb negb] in *; try done;
  rewrite ?negb_true_iff, ?negb_false_iff in *;
  repeat match goal with
         | H : Qle_bool _ _ = false |- _ => apply Qle_bool_false in H
         | H : Qle_bool _ _ = true |- _ => apply Qle_bool_iff in H
         end;
  try (apply Qle_bool_false); try (apply Qle_bool_iff); lra.

Lemma Number_lt_trans (x y z : Number.t) :
  Number.lt x y = true -> Number.lt y z = true -> Number.lt x z = true.
Proof.
  destruct x as [sx|[]| |sx mx ex], y as [sy|[]| |sy my ey],
    z as [sz|[]| |sz mz ez]; intros Hxy Hyz; number_order.
Qed.

Lemma Number_lt_irrefl (x : Number.t) : Number.lt x x = false.
Proof. destruct x as [sx|[]| |sx mx ex]; number_order. Qed.

Lemma Number_lt_keeps (a e e' : Number.t) :
  Number.lt a e = false -> Number.lt a e' = true -> Number.lt e' e = false.
Proof.
  destruct a as [sa|[]| |sa ma ea], e as [se|[]| |se me ee],
    e' as [se'|[]| |se' me' ee']; intros Hae Hae'; number_order.
Qed.

(** What is rounded to a double without a sign is not negative. *)
Lemma binary_round_aux_nonneg (m e : Z) (l : location) :
  (0 <= Number.value (binary_round_aux 53 1024 false m e l))%Q.
Proof.
  unfold binary_round_aux.
  destruct (shr_fexp 53 1024 m e l) as [mrs' e'].
  destruct (shr_fexp 53 1024 _ e' loc_Exact) as [mrs'' e''].
  destruct (shr_m mrs'') as [|p|p]; [done| |done].
  destruct (e'' <=? 1024 - 53); [|done].
  cbn [Number.value]. rewrite Qred_correct.
  apply Qmult_le_0_compat; [done|].
  by apply Qpower_0_le.
Qed.

Lemma Number_percentage_nonneg (k n : Z) :
  0 <= k -> 0 < n ->
  0 <= Math_round (Number.mul (Number.div (Number.ofZ k) (Number.ofZ n))
                              (Number.ofZ 100)).
Proof.
  intros Hk Hn. unfold Math_round.
  assert (0 <= Number.value
                 (Number.mul (Number.div (Number.ofZ k) (Number.ofZ n))
                             (Number.ofZ 100)))%Q as Hv.
  { assert (forall z, 0 <= z -> exists x, Number.ofZ z = x
              /\ match x with
                 | S754_zero s | S754_infinity s | S754_finite s _ _ => s = false
                 | S754_nan => True
                 end) as HofZ.
    { intros [|p|p] Hz; [by eexists| |lia].
      eexists. split; [reflexivity|].
      unfold Number.ofZ, binary_normalize, binary_round.
      destruct (shl_align _ _ _) as [mz ez]. unfold binary_round_aux.
      destruct (shr_fexp 53 1024 _ _ _) as [mrs' e'].
      destruct (shr_fexp 53 1024 _ e' loc_Exact) as [mrs'' e''].
      destruct (shr_m mrs''); [done| |done]. by destruct (_ <=? _). }
    destruct (HofZ k Hk) as (x & -> & Hx).
    destruct (HofZ n (Z.lt_le_incl _ _ Hn)) as (y & -> & Hy).
    assert (exists q, Number.div x y = q
              /\ match q with
                 | S754_zero s | S754_infinity s | S754_finite s _ _ => s = false
                 | S754_nan => True
                 end) as (q & -> & Hq).
    { eexists. split; [reflexivity|].
      destruct x as [sx|sx| |sx mx ex], y as [sy|sy| |sy my ey];
        simpl in Hx, Hy; subst; try done.
      unfold Number.div, SFdiv.
      destruct (SFdiv_core_binary _ _ _ _ _ _) as [[mz ez] lz].
      unfold binary_round_aux. cbn [xorb].
      destruct (shr_fexp 53 1024 _ _ _) as [mrs' e'].
      destruct (shr_fexp 53 1024 _ e' loc_Exact) as [mrs'' e''].
      destruct (shr_m mrs''); [done| |done]. by destruct (_ <=? _). }
    destruct q as [sq|sq| |sq mq eq]; simpl in Hq; subst; try done.
    change (Number.ofZ 100) with (S754_finite false 7036874417766400 (-46)).
    unfold Number.mul, SFmul. cbn [xorb]. apply binary_round_aux_nonneg. }
  apply Qfloor_resp_le in Hv as Hf.
  assert (0 <= Qfloor (Number.value
            (Number.mul (Number.div (Number.ofZ k) (Number.ofZ n))
                        (Number.ofZ 100)) + (1 # 2))).
  { change 0 with (Qfloor 0). apply Qfloor_resp_le. lra. }
  done.
Qed.

Section StatsFacts.
Variable getHours : Z -> nat.
Variable isoMonth : Z -> string.
Variable getFullYear : Z -> Z.
Variable localeCompare : string -> string -> Z.

Lemma tally_acc (l : list PlayRecord) :
  let t := StatsBackend.tally getHours isoMonth l in
  songPlayMap t = foldl (accStep songId songUpd) [] l
  /\ artistPlayMap t = foldl (accStep artistId artistUpd) [] l
  /\ skipMap t = foldl (accStep songId skipUpd) [] l
  /\ dailyMap t
     = foldl (accStep (fun r => isoDate (timestamp r)) minutesUpd) [] l
  /\ monthlyArtists t
     = foldl (accStep (fun r => isoMonth (timestamp r)) monthUpd) [] l.
Proof.
  intros t.
  destruct (tally_fold getHours isoMonth l StatsBackend.emptyTallies)
    as (Hsong & Hartist & _ & Hdaily & Hmonth & Hskip).
  fold (StatsBackend.tally getHours isoMonth l) in *.
  fold t in Hsong, Hartist, Hdaily, Hmonth, Hskip.
  rewrite Hsong, Hartist, Hskip, Hdaily, Hmonth.
  repeat split; apply foldl_ext_all;
    auto using songStep_acc, artistStep_acc, skipStep_acc, dailyStep_acc,
               monthlyStep_acc.
Qed.

(** The entries of [songPlayMap]. *)
Lemma songPlayMap_entries (l : list PlayRecord) :
  let m := songPlayMap (StatsBackend.tally getHours isoMonth l) in
  NoDup m.*1
  /\ m.*1 = firstSeen (songId <$> l)
  /\ forall id e, (id, e) ∈ m ->
       se_plays e = qualifiedPlays (ofSongId id) l
       /\ entryMinutes (ofSongId id) l = Some (se_minutes e)
       /\ exists r, List.find (ofSongId id) l = Some r
                    /\ se_title e = songTitle r
                    /\ se_artist e = artistName r.
Proof.
  intros m. subst m. destruct (tally_acc l) as (-> & _).
  assert (NoDup (foldl (accStep songId songUpd) [] l).*1) as Hnd.
  { by apply accStep_NoDup, NoDup_nil. }
  split; [done|]. split; [apply accStep_firstSeen|].
  intros id e He. apply (Map_elem_get _ _ _ Hnd) in He. unfold ofSongId.
  split.
  { rewrite <- sumZ_qualified.
    rewrite <- (accStep_count songId songUpd se_plays qualifiedUnit
                  songUpd_plays l id). by rewrite He. }
  split.
  { rewrite accStep_entry in He. unfold entryMinutes.
    destruct (filter _ l) as [|r rest]; [done|]. simpl in He.
    apply (f_equal (fmap se_minutes)) in He.
    by rewrite songUpd_minutes in He. }
  destruct (accStep_first songId songUpd
              (fun e => (se_title e, se_artist e))
              (fun r => (songTitle r, artistName r)) l id e)
    as (r & Hfind & Heq); [done | done | done |].
  exists r. split; [done|]. by injection Heq.
Qed.

(** X12.  The top songs of [computeStats].  Each song of the log is ranked
    once; the ranking is ordered by qualified plays, largest first, and songs
    with the same number of plays stay in the order in which the newest-first
    scan of the log first meets them, so that a tie goes to the song played
    most recently.  [topSongs] is the first five of the ranking and [anthem]
    its head.  The title and the artist shown are those of the newest record
    of the song, and its minutes are the rounded sum, in doubles and in the
    order of the scan, of the minutes of its records. *)
Theorem computeStats_top_songs (now : Z) (d : StatsDatabase.t) :
  let allRecords := StatsDatabase.getPlayRecords None None d in
  let count id := qualifiedPlays (ofSongId id) allRecords in
  exists stats ranking,
    StatsBackend.computeStats getHours isoMonth getFullYear localeCompare
                              now (Some d) = Returned stats
    /\ ss_id <$> topSongs stats = take 5 ranking
    /\ an_id <$> anthem stats = head ranking
    /\ ranking ≡ₚ firstSeen (songId <$> allRecords)
    /\ StronglySorted (fun a b => count b <= count a) ranking
    /\ (forall n, filter (fun id => count id = n) ranking
                  = filter (fun id => count id = n)
                           (firstSeen (songId <$> allRecords)))
    /\ (forall s, s ∈ topSongs stats ->
        ss_plays s = count (ss_id s)
        /\ Math_round <$> entryMinutes (ofSongId (ss_id s)) allRecords
           = Some (ss_minutes s)
        /\ exists r, List.find (ofSongId (ss_id s)) allRecords = Some r
                     /\ ss_title s = songTitle r
                     /\ ss_artist s = artistName r).
Proof.
  intros allRecords count.
  destruct (songPlayMap_entries allRecords) as (Hnd & Hkeys & Hent).
  set (m := songPlayMap (StatsBackend.tally getHours isoMonth allRecords)) in *.
  set (sorted := sortBy StatsBackend.bySongPlaysDesc m).
  assert (forall e, e ∈ sorted -> se_plays e.2 = count e.1) as Hcount.
  { intros [id e] He. apply Hent. unfold sorted in He.
    by rewrite sortBy_perm in He. }
  eexists _, sorted.*1. split; [reflexivity|].
  cbn [topSongs anthem]. fold allRecords. fold m. fold sorted.
  split. { rewrite <- list_fmap_compose, fmap_take. done. }
  split. { destruct sorted as [|[id e] rest]; done. }
  split. { unfold sorted. by rewrite sortBy_perm, Hkeys. }
  split.
  { assert (StronglySorted
              (fun a b : string * SongEntry => se_plays b.2 <= se_plays a.2)
              sorted) as Hsorted.
    { apply sortBy_sorted.
      - intros x y z. lia.
      - intros x y. unfold StatsBackend.bySongPlaysDesc.
        rewrite Z.ltb_ge. lia.
      - intros x y. unfold StatsBackend.bySongPlaysDesc.
        rewrite Z.ltb_lt. lia. }
    apply StronglySorted_fmap.
    eapply StronglySorted_elem; [exact Hsorted|].
    intros a b Ha Hb Hab. cbv beta.
    rewrite <- (Hcount a Ha), <- (Hcount b Hb). exact Hab. }
  split.
  { intros n. rewrite <- Hkeys, !filter_fmap. f_equal.
    rewrite (filter_ext_elem _ (fun e => bool_decide (se_plays e.2 = n)) sorted).
    2:{ intros e He. rewrite <- (Hcount e He).
        split; [apply bool_decide_pack | apply bool_decide_unpack]. }
    rewrite (filter_ext_elem _ (fun e => bool_decide (se_plays e.2 = n)) m).
    2:{ intros e He. rewrite <- (Hcount e).
        - split; [apply bool_decide_pack | apply bool_decide_unpack].
        - unfold sorted. by rewrite sortBy_perm. }
    apply (sortBy_filter _ (fun e => bool_decide (se_plays e.2 = n))).
    intros x y Hx Hy. apply bool_decide_eq_true in Hx, Hy.
    unfold StatsBackend.bySongPlaysDesc. apply Z.ltb_ge. lia. }
  intros s Hs. apply list_elem_of_fmap in Hs as ([id e] & -> & He).
  apply elem_of_top in He. cbn [ss_id ss_plays ss_minutes ss_title ss_artist
    fst snd].
  destruct (Hent id e He) as (Hp & Hm & r & Hfind & Ht & Ha).
  split; [done|]. split; [by rewrite Hm|]. by exists r.
Qed.



Lemma skipUpd_skips o r :
  sk_skips (skipUpd o r)
  = default 0 (sk_skips <$> o) + (if skipped r then 1 else 0).
Proof. destruct o; simpl; destruct (skipped r); lia. Qed.

Lemma sumZ_flags (sel flag : PlayRecord -> bool) (l : list PlayRecord) :
  sumZ sel (fun r => if flag r then 1 else 0) l
  = plays (fun r => sel r && flag r) l.
Proof.
  unfold plays. induction l as [|r l IH]; simpl; [done|].
  rewrite IH, filter_cons. destruct (sel r), (flag r); simpl; lia.
Qed.

Lemma plays_pos (sel : PlayRecord -> bool) (l : list PlayRecord)
  (r : PlayRecord) : r ∈ l -> sel r = true -> 1 <= plays sel l.
Proof.
  intros Hr Hsel. unfold plays.
  assert (r ∈ filter sel l) as Hin.
  { apply list_elem_of_filter. split; [by rewrite Hsel | done]. }
  destruct (filter sel l); [by apply elem_of_nil in Hin | simpl; lia].
Qed.

Lemma plays_bounds (sel : PlayRecord -> bool) (l : list PlayRecord) :
  0 <= plays sel l <= Z.of_nat (length l).
Proof. unfold plays. pose proof (length_filter sel l). lia. Qed.

(** The entries of [skipMap]. *)
Lemma skipMap_entries (l : list PlayRecord) :
  let m := skipMap (StatsBackend.tally getHours isoMonth l) in
  NoDup m.*1
  /\ (forall id, id ∈ m.*1 <-> id ∈ songId <$> l)
  /\ forall id e, (id, e) ∈ m ->
       sk_skips e = plays (fun r => ofSongId id r && skipped r) l
       /\ exists r, List.find (ofSongId id) l = Some r
                    /\ sk_title e = songTitle r
                    /\ sk_artist e = artistName r.
Proof.
  intros m. subst m. destruct (tally_acc l) as (_ & _ & -> & _).
  assert (NoDup (foldl (accStep songId skipUpd) [] l).*1) as Hnd.
  { by apply accStep_NoDup, NoDup_nil. }
  split; [done|]. split.
  { intros id. rewrite accStep_keys. split; [|by right].
    intros [Hin|?]; [by apply elem_of_nil in Hin | done]. }
  intros id e He. apply (Map_elem_get _ _ _ Hnd) in He. unfold ofSongId.
  split.
  { rewrite <- sumZ_flags.
    rewrite <- (accStep_count songId skipUpd sk_skips _ skipUpd_skips l id).
    by rewrite He. }
  destruct (accStep_first songId skipUpd
              (fun e => (sk_title e, sk_artist e))
              (fun r => (songTitle r, artistName r)) l id e)
    as (r & Hfind & Heq); [done | done | done |].
  exists r. split; [done|]. by injection Heq.
Qed.

(** X14.  The skip statistics of [computeStats].  [skipRate] is the
    percentage of skipped records among all records as the doubles give it,
    the quotient times 100, rounded and capped at 100; it lies between 0 and
    100.  [skipStats] lists at most ten
    songs, each once, ordered by skips, largest first; a listed song has at
    least one skipped record, its [skips] is the number of its skipped
    records, and its title and artist are those of its newest record.  As
    long as fewer than ten songs are listed, every song with a skipped record
    is listed. *)
Theorem computeStats_skips (now : Z) (d : StatsDatabase.t) :
  let allRecords := StatsDatabase.getPlayRecords None None d in
  let skips id := plays (fun r => ofSongId id r && skipped r) allRecords in
  exists stats,
    StatsBackend.computeStats getHours isoMonth getFullYear localeCompare
                              now (Some d) = Returned stats
    /\ skipRate stats
       = Z.min 100
           (Math_round
              (Number.mul
                 (Number.div
                    (Number.ofZ (plays skipped allRecords))
                    (Number.ofZ (Z.max 1 (Z.of_nat (length allRecords)))))
                 (Number.ofZ 100)))
    /\ 0 <= skipRate stats <= 100
    /\ (length (skipStats stats) <= 10)%nat
    /\ NoDup (st_songId <$> skipStats stats)
    /\ StronglySorted (fun a b => st_skips b <= st_skips a) (skipStats stats)
    /\ (forall s, s ∈ skipStats stats ->
        st_skips s = skips (st_songId s) /\ 1 <= st_skips s
        /\ exists r, List.find (ofSongId (st_songId s)) allRecords = Some r
                     /\ st_title s = songTitle r
                     /\ st_artist s = artistName r)
    /\ ((length (skipStats stats) < 10)%nat ->
        forall r, r ∈ allRecords -> skipped r = true ->
                  songId r ∈ st_songId <$> skipStats stats).
Proof.
  intros allRecords skips.
  destruct (skipMap_entries allRecords) as (Hnd & Hkeys & Hent).
  set (m := skipMap (StatsBackend.tally getHours isoMonth allRecords)) in *.
  set (kept := filter (fun e : string * SkipEntry =>
                         bool_decide (0 < sk_skips e.2)) m).
  set (sorted := sortBy StatsBackend.bySkipsDesc kept).
  assert (forall e, e ∈ sorted -> e ∈ m /\ 0 < sk_skips e.2) as Hsorted_in.
  { intros e He. unfold sorted in He. rewrite sortBy_perm in He.
    apply list_elem_of_filter in He as [Hpos He].
    split; [done|]. by apply bool_decide_unpack in Hpos. }
  eexists. split; [reflexivity|].
  cbn [skipRate skipStats]. fold allRecords. fold m. fold kept. fold sorted.
  split; [reflexivity|].
  split.
  { pose proof (Number_percentage_nonneg
                  (Z.of_nat (length (filter skipped allRecords)))
                  (Z.max 1 (Z.of_nat (length allRecords)))) as Hrate.
    lia. }
  split. { rewrite length_fmap, length_take. lia. }
  split.
  { rewrite <- list_fmap_compose.
    change (st_songId ∘ _) with (fst : string * SkipEntry -> string).
    rewrite fmap_take. eapply sublist_NoDup; [|apply sublist_take].
    unfold sorted. rewrite sortBy_perm. unfold kept.
    eapply sublist_NoDup; [exact Hnd|]. apply fmap_sublist, sublist_filter. }
  split.
  { apply StronglySorted_fmap, StronglySorted_take.
    apply (sortBy_sorted StatsBackend.bySkipsDesc).
    - intros x y z. cbn [st_skips]. lia.
    - intros x y. unfold StatsBackend.bySkipsDesc. cbn [st_skips].
      rewrite Z.ltb_ge. lia.
    - intros x y. unfold StatsBackend.bySkipsDesc. cbn [st_skips].
      rewrite Z.ltb_lt. lia. }
  split.
  { intros s Hs. apply list_elem_of_fmap in Hs as ([id e] & -> & He).
    apply (subseteq_take 10) in He. apply Hsorted_in in He as [He Hpos].
    cbn [st_songId st_skips st_title st_artist fst snd] in *.
    destruct (Hent id e He) as (Hs & r & Hfind & Ht & Ha).
    split; [done|]. split; [lia|]. by exists r. }
  intros Hlen r Hr Hskipped.
  rewrite length_fmap, length_take in Hlen.
  rewrite <- list_fmap_compose.
  change (st_songId ∘ _) with (fst : string * SkipEntry -> string).
  rewrite take_ge by lia.
  assert (songId r ∈ m.*1) as Hin.
  { apply Hkeys, list_elem_of_fmap. by exists r. }
  apply list_elem_of_fmap in Hin as ([id e] & Hid & He). simpl in Hid. subst id.
  apply list_elem_of_fmap. exists (songId r, e). split; [done|].
  unfold sorted. rewrite sortBy_perm. apply list_elem_of_filter.
  split; [|done]. apply bool_decide_pack. cbn [snd].
  destruct (Hent _ _ He) as (-> & _).
  pose proof (plays_pos (fun r0 => ofSongId (songId r) r0 && skipped r0)
                allRecords r Hr) as Hpos.
  unfold ofSongId in *. rewrite bool_decide_true, Hskipped in Hpos by done.
  specialize (Hpos eq_refl). lia.
Qed.

(** The entries of [dailyMap]. *)
Lemma dailyMap_entries (l : list PlayRecord) :
  let m := dailyMap (StatsBackend.tally getHours isoMonth l) in
  (forall date, date ∈ m.*1 <-> date ∈ (fun r => isoDate (timestamp r)) <$> l)
  /\ forall date q, (date, q) ∈ m ->
       bumpedMinutes (fun r => bool_decide (isoDate (timestamp r) = date)) l
       = Some q.
Proof.
  intros m. subst m. destruct (tally_acc l) as (_ & _ & _ & -> & _).
  split.
  { intros date. rewrite accStep_keys. split; [|by right].
    intros [Hin|?]; [by apply elem_of_nil in Hin | done]. }
  intros date q He.
  apply Map_elem_get in He; [|by apply accStep_NoDup, NoDup_nil].
  by rewrite accStep_entry in He.
Qed.

(** The scan for the day with the most minutes keeps the first day that no
    other day exceeds, and nothing when no day has a positive total. *)
Lemma peakStep_fold (l seen : list (Z * Number.t))
  (acc : option (Z * Z) * Number.t) :
  (forall e, e ∈ seen -> Number.lt acc.2 e.2 = false) ->
  match acc.1 with
  | None => acc.2 = Number.zero
  | Some (date, shown) =>
      (date, acc.2) ∈ seen /\ shown = Math_round acc.2
      /\ Number.lt Number.zero acc.2 = true
  end ->
  let acc' := foldl StatsBackend.peakStep acc l in
  (forall e, e ∈ seen ++ l -> Number.lt acc'.2 e.2 = false)
  /\ match acc'.1 with
     | None => acc'.2 = Number.zero
     | Some (date, shown) =>
         (date, acc'.2) ∈ seen ++ l /\ shown = Math_round acc'.2
         /\ Number.lt Number.zero acc'.2 = true
     end.
Proof.
  revert seen acc. induction l as [|e l IH]; intros seen acc Hle Hacc;
    cbn [foldl].
  - rewrite app_nil_r. done.
  - replace (seen ++ e :: l) with ((seen ++ [e]) ++ l)
      by (by rewrite <- app_assoc).
    apply IH; unfold StatsBackend.peakStep.
    + intros e' [He'|He']%elem_of_app.
      * specialize (Hle e' He').
        destruct (Number.lt acc.2 e.2) eqn:E; cbn [fst snd]; [|done].
        by apply (Number_lt_keeps acc.2).
      * apply list_elem_of_singleton in He' as ->.
        destruct (Number.lt acc.2 e.2) eqn:E; cbn [fst snd]; [|done].
        apply Number_lt_irrefl.
    + destruct (Number.lt acc.2 e.2) eqn:E; cbn [fst snd].
      * split. { apply elem_of_app. right. destruct e. by left. }
        split; [done|].
        destruct acc as [[[date shown]|] mx]; cbn [fst snd] in *.
        -- destruct Hacc as (_ & _ & Hpos).
           by apply (Number_lt_trans _ mx).
        -- by subst mx.
      * destruct acc as [[[date shown]|] mx]; cbn [fst snd] in *; [|done].
        destruct Hacc as (Hin & Hq). split; [|done].
        apply elem_of_app. by left.
Qed.

(** X15.  The peak day and the listening clock of [computeStats].  The total
    of a day is the sum, in doubles, of the minutes of its records in the
    order of the scan.  The peak day is a day of the log with a positive
    total that the total of no day exceeds, shown with that total rounded;
    there is none exactly when no day has a positive total.  With hours
    below 24, as [getHours] answers them, the clock has 24 entries, the
    rounded sums of the minutes of each hour. *)
Theorem computeStats_peak_day_and_clock (now : Z) (d : StatsDatabase.t) :
  let allRecords := StatsDatabase.getPlayRecords None None d in
  let minutes date :=
    default Number.zero
      (bumpedMinutes (fun r => bool_decide (isoDate (timestamp r) = date))
                     allRecords) in
  exists stats,
    StatsBackend.computeStats getHours isoMonth getFullYear localeCompare
                              now (Some d) = Returned stats
    /\ match peakListeningDay stats with
       | None =>
           forall r, r ∈ allRecords ->
             Number.lt Number.zero (minutes (isoDate (timestamp r))) = false
       | Some (date, shown) =>
           (exists r, r ∈ allRecords /\ isoDate (timestamp r) = date)
           /\ Number.lt Number.zero (minutes date) = true
           /\ shown = Math_round (minutes date)
           /\ forall r, r ∈ allRecords ->
                Number.lt (minutes date) (minutes (isoDate (timestamp r)))
                = false
       end
    /\ (Forall (fun r => (getHours (timestamp r) < 24)%nat) allRecords ->
        length (listeningClock stats) = 24%nat
        /\ forall h, (h < 24)%nat ->
             listeningClock stats !! h
             = Some (Math_round
                       (listenedMinutes
                          (fun r => bool_decide (getHours (timestamp r) = h))
                          allRecords))).
Proof.
  intros allRecords minutes.
  destruct (dailyMap_entries allRecords) as (Hkeys & Hent).
  set (t := StatsBackend.tally getHours isoMonth allRecords) in *.
  eexists. split; [reflexivity|].
  cbn [peakListeningDay listeningClock]. fold allRecords. fold t.
  split.
  { destruct (peakStep_fold (dailyMap t) [] (None, Number.zero))
      as [Hle Hpeak].
    { intros e He. by apply elem_of_nil in He. }
    { reflexivity. }
    cbv zeta in Hle, Hpeak. cbn [app] in Hle, Hpeak.
    assert (forall date q, (date, q) ∈ dailyMap t -> minutes date = q)
      as Hmin.
    { intros date q Hin. unfold minutes. by rewrite (Hent date q Hin). }
    assert (forall r, r ∈ allRecords ->
              (isoDate (timestamp r), minutes (isoDate (timestamp r)))
                ∈ dailyMap t) as Hday.
    { intros r Hr.
      assert (isoDate (timestamp r) ∈ (dailyMap t).*1) as Hin.
      { apply Hkeys, list_elem_of_fmap. by exists r. }
      apply list_elem_of_fmap in Hin as ([date q] & Hd & He).
      simpl in Hd. subst date. by rewrite (Hmin _ _ He). }
    destruct (foldl StatsBackend.peakStep (None, Number.zero) (dailyMap t))
      as [[[date shown]|] mx]; cbn [fst snd] in *.
    - destruct Hpeak as (Hin & -> & Hpos).
      rewrite (Hmin _ _ Hin).
      split.
      { assert (date ∈ (dailyMap t).*1) as Hk.
        { apply list_elem_of_fmap. by exists (date, mx). }
        apply Hkeys in Hk. apply list_elem_of_fmap in Hk as (r & -> & Hr).
        by exists r. }
      split; [done|]. split; [done|].
      intros r Hr. exact (Hle _ (Hday r Hr)).
    - subst mx. intros r Hr. exact (Hle _ (Hday r Hr)). }
  intros _.
  destruct (tally_fold getHours isoMonth allRecords StatsBackend.emptyTallies)
    as (_ & _ & Hclock & _).
  fold (StatsBackend.tally getHours isoMonth allRecords) in Hclock.
  fold t in Hclock. cbn [StatsBackend.emptyTallies clock] in Hclock.
  assert (length (clock t) = 24%nat) as Hlen.
  { rewrite Hclock. clear.
    assert (forall c, length (foldl (StatsBackend.clockStep getHours) c
                                    allRecords) = length c) as Hgen.
    { induction allRecords as [|r l IH]; intros c; simpl; [done|].
      rewrite IH. unfold StatsBackend.clockStep. apply length_alter. }
    by rewrite Hgen, length_replicate. }
  split; [by rewrite length_fmap|].
  intros h Hh. rewrite list_lookup_fmap, Hclock, clock_fold.
  by rewrite lookup_replicate_2 by done.
Qed.

(** [find] on a sorted list returns the least of the elements it accepts. *)
Lemma find_sorted {A : Type} (R : relation A) (f : A -> bool) (l : list A)
  (x : A) :
  (forall a, R a a) ->
  StronglySorted R l -> List.find f l = Some x ->
  x ∈ l /\ f x = true /\ forall y, y ∈ l -> f y = true -> R x y.
Proof.
  intros Hrefl. induction 1 as [|a l Hl IH Ha]; simpl; [done|].
  destruct (f a) eqn:E.
  - intros [= <-]. split; [by left|]. split; [done|].
    intros y [->|Hy]%elem_of_cons _; [apply Hrefl|].
    rewrite Forall_forall in Ha. by apply Ha.
  - intros Hfind. destruct (IH Hfind) as (Hx & Hfx & Hmin).
    split; [by right|]. split; [done|].
    intros y [->|Hy]%elem_of_cons Hfy; [congruence|]. by apply Hmin.
Qed.

(** X16.  The first songs of [computeStats].  [firstSongEver] is read off a
    stored record with the least timestamp, and is absent only for an empty
    log.  [firstSongThisYear] is read off a record with the least timestamp
    among those of the current local year, and is absent exactly when the
    log has no record of that year.  [firstSongThisMonth] is never
    computed. *)
Theorem computeStats_first_songs (now : Z) (d : StatsDatabase.t) :
  let stored := playRecords (StatsDatabase.data d) in
  exists stats,
    StatsBackend.computeStats getHours isoMonth getFullYear localeCompare
                              now (Some d) = Returned stats
    /\ match firstSongEver stats with
       | None => stored = []
       | Some f =>
           exists r, r ∈ stored /\ f = StatsBackend.firstSongOf r
                     /\ forall r', r' ∈ stored -> timestamp r <= timestamp r'
       end
    /\ match firstSongThisYear stats with
       | None =>
           forall r, r ∈ stored ->
                     getFullYear (timestamp r) <> getFullYear now
       | Some f =>
           exists r, r ∈ stored /\ f = StatsBackend.firstSongOf r
                     /\ getFullYear (timestamp r) = getFullYear now
                     /\ forall r', r' ∈ stored ->
                           getFullYear (timestamp r') = getFullYear now ->
                           timestamp r <= timestamp r'
       end
    /\ firstSongThisMonth stats = None.
Proof.
  intros stored.
  set (allRecords := StatsDatabase.getPlayRecords None None d).
  set (sorted := sortBy StatsBackend.oldestFirst allRecords).
  assert (sorted ≡ₚ stored) as Hperm.
  { unfold sorted. rewrite sortBy_perm. apply getPlayRecords_all. }
  assert (StronglySorted (fun a b => timestamp a <= timestamp b) sorted)
    as Hsorted.
  { apply sortBy_sorted.
    - intros x y z. lia.
    - intros x y. unfold StatsBackend.oldestFirst. rewrite Z.ltb_ge. lia.
    - intros x y. unfold StatsBackend.oldestFirst. rewrite Z.ltb_lt. lia. }
  eexists. split; [reflexivity|].
  cbn [firstSongEver firstSongThisYear firstSongThisMonth].
  fold allRecords. fold sorted.
  split; [|split; [|done]].
  - destruct sorted as [|r rest] eqn:E; simpl.
    + symmetry in Hperm. by apply Permutation_nil_r in Hperm.
    + exists r. split; [rewrite <- Hperm; by left|]. split; [done|].
      intros r' Hr'. rewrite <- Hperm in Hr'.
      apply elem_of_cons in Hr' as [->|Hr']; [done|].
      apply StronglySorted_inv in Hsorted as [_ Hall].
      rewrite Forall_forall in Hall. by apply Hall.
  - destruct (List.find _ sorted) as [r|] eqn:E; simpl.
    + apply (find_sorted (fun a b => timestamp a <= timestamp b)) in E
        as (Hr & Hyear & Hmin); [|intros a; lia|done].
      apply Z.eqb_eq in Hyear.
      exists r. split; [by rewrite <- Hperm|]. split; [done|].
      split; [done|]. intros r' Hr' Hy. apply Hmin; [by rewrite Hperm|].
      by apply Z.eqb_eq.
    + intros r Hr Hy. rewrite <- Hperm in Hr. apply list_elem_of_In in Hr.
      pose proof (List.find_none _ _ E r Hr) as Hn. simpl in Hn.
      apply Z.eqb_neq in Hn. done.
Qed.

(** X17.  On a store without records [computeStats] returns the empty
    snapshot: every total is 0, every list is empty, the clock holds 24
    zeros, and only the streak is read from the store. *)
Theorem computeStats_empty (now : Z) (d : StatsDatabase.t) :
  playRecords (StatsDatabase.data d) = [] ->
  StatsBackend.computeStats getHours isoMonth getFullYear localeCompare
                            now (Some d)
  = Returned
      {| totalMinutes := 0; totalSongs := 0; topSongs := []; topArtists := [];
         anthem := None; peakListeningDay := None;
         listeningClock := replicate 24 0;
         sd_currentStreak :=
           match StatsDatabase.getStreak d with
           | Some s => currentStreak s
           | None => 0
           end;
         firstSongEver := None; firstSongThisYear := None;
         firstSongThisMonth := None; monthlyObsessions := [];
         skipStats := []; skipRate := 0 |}.
Proof.
  intros Hempty.
  assert (StatsDatabase.getPlayRecords None None d = []) as Hall.
  { pose proof (getPlayRecords_all d) as Hperm. rewrite Hempty in Hperm.
    by apply Permutation_nil_r. }
  unfold StatsBackend.computeStats. rewrite Hall. reflexivity.
Qed.



End StatsFacts.

(** The sums are those of doubles.  Plays of 84, 84 and 42 seconds, scanned
    newest first, add up to 3.4999999999999996 minutes, shown as 3, for the
    total, for the song and for the obsession of the month.  An artist with
    plays of 12 and of 6 seconds, 0.30000000000000004 minutes, stands ahead
    of an artist met earlier with one play of 18 seconds, 0.3 minutes.  And
    23 skipped records of 40 make 57.49999999999999 percent, shown as 57. *)
Example computeStats_in_doubles :
  (fun stats => (totalMinutes stats, ss_minutes <$> topSongs stats,
                 ob_minutes <$> monthlyObsessions stats))
    <$> Samples.statsOf [Samples.play "s" "a" 1000 84;
                         Samples.play "s" "a" 2000 84;
                         Samples.play "s" "a" 3000 42]
  = Some (3, [3], [3])
  /\ (fun stats => sa_id <$> topArtists stats)
       <$> Samples.statsOf [Samples.play "s" "a" 1000 6;
                            Samples.play "t" "a" 2000 12;
                            Samples.play "u" "b" 3000 18]
     = Some ["a"%string; "b"%string]
  /\ skipRate
       <$> Samples.statsOf
             (((fun k => Samples.skippedPlay "s" "a" (Z.of_nat k) 40)
                 <$> seq 0 23)
              ++ ((fun k => Samples.play "t" "a" (Z.of_nat k) 40)
                    <$> seq 23 17))
     = Some 57.
Proof. vm_compute. repeat split; reflexivity. Qed.

Lemma computeStats_empty_witness :
  totalSongs <$> (match StatsBackend.computeStats Samples.utcHours
                          Samples.utcMonth Samples.utcYear
                          Samples.compareStrings Samples.now
                          (Some (Samples.dbOf [])) with
                  | Returned stats => Some stats
                  | Thrown _ => None
                  end)
  = Some 0.
Proof.
  rewrite (computeStats_empty Samples.utcHours Samples.utcMonth
             Samples.utcYear Samples.compareStrings Samples.now
             (Samples.dbOf []) eq_refl).
  reflexivity.
Defined.

(** ** The tracker of the renderer *)

Lemma Qfloor_ge (n : Z) (q : Q) : (inject_Z n <= q)%Q -> n <= Qfloor q.
Proof.
  intros Hle. rewrite <- (Qfloor_Z n). by apply Qfloor_resp_le.
Qed.

(** A finite time that is not below 30 holds 30 whole seconds. *)
Lemma Math_floor_kept (x : Number.t) :
  Number.isFinite x = true -> Number.lt x (Number.ofZ 30) = false ->
  30 <= Math_floor x.
Proof.
  intros Hfin Hlt. unfold Math_floor. apply Qfloor_ge.
  assert (Number.value (Number.ofZ 30) == 30)%Q as H30 by reflexivity.
  destruct x as [sx|sx| |sx mx ex]; try done.
  all: change (Number.ofZ 30) with (S754_finite false 8444249301319680 (-48))
         in Hlt, H30.
  all: cbn [Number.lt] in Hlt; apply negb_false_iff, Qle_bool_iff in Hlt.
  all: change (inject_Z 30) with 30%Q; lra.
Qed.

Lemma keptPlay_qualified (r : PlayRecord) :
  keptPlay r -> StatsBackend.isQualifiedPlay r = true.
Proof.
  intros (_ & acc & Hfin & Hdur & H30 & _).
  unfold StatsBackend.isQualifiedPlay. rewrite Hdur.
  by apply Z.leb_le, Math_floor_kept.
Qed.

(** [savePreviousPlay] hands over at most one record, and a record it hands
    over is a kept play; [isCompleted] is only passed when the duration
    times 0.95 was reached. *)
Lemma savePreviousPlay_invoked (isCompleted : bool) (tr : Tracker.t) :
  finitePlayback tr = true ->
  (isCompleted = true ->
   forall cp, Tracker.currentPlayback tr = Some cp ->
     Number.ge (Tracker.accumulatedTime cp)
               (Number.mul (Duration_toNumber (Tracker.cp_totalDuration cp))
                           Tracker.completedThreshold) = true) ->
  let tr' := Tracker.savePreviousPlay isCompleted tr in
  Tracker.currentPlayback tr' = None
  /\ Tracker.ipc tr' = Tracker.ipc tr
  /\ exists new,
       Tracker.invoked tr' = Tracker.invoked tr ++ new
       /\ Forall keptPlay new
       /\ (length new <= 1)%nat
       /\ (Tracker.ipc tr = false -> new = [])
       /\ Forall (fun r => completed r = isCompleted
                    /\ exists cp, Tracker.currentPlayback tr = Some cp
                         /\ timestamp r = Tracker.startTime cp
                         /\ totalDuration r = Tracker.cp_totalDuration cp)
                 new.
Proof.
  intros Hfin Hdone tr'. subst tr'.
  unfold Tracker.savePreviousPlay, finitePlayback in *.
  assert (forall l : list PlayRecord,
            exists new : list PlayRecord,
              l = l ++ new /\ Forall keptPlay new /\ (length new <= 1)%nat
              /\ (Tracker.ipc tr = false -> new = [])
              /\ Forall (fun r => completed r = isCompleted
                           /\ exists cp, Tracker.currentPlayback tr = Some cp
                                /\ timestamp r = Tracker.startTime cp
                                /\ totalDuration r
                                   = Tracker.cp_totalDuration cp) new)
    as Hnone.
  { intros l. exists []. rewrite app_nil_r. repeat split; auto. }
  destruct (Tracker.currentPlayback tr) as [cp|] eqn:Ecp.
  2:{ split; [done|]. split; [done|]. apply Hnone. }
  destruct (Number.lt (Tracker.accumulatedTime cp) (Number.ofZ 30)) eqn:E30;
    cbn [Tracker.currentPlayback Tracker.ipc Tracker.invoked Tracker.cleared].
  { split; [done|]. split; [done|]. apply Hnone. }
  split; [done|]. split; [done|].
  destruct (Tracker.ipc tr); [|apply Hnone].
  eexists [_]. split; [reflexivity|].
  split; [|split; [simpl; lia|split; [done|]]].
  - apply Forall_cons; split; [|by apply Forall_nil].
    split; [done|]. exists (Tracker.accumulatedTime cp).
    cbn [durationListened skipped completed totalDuration].
    split; [done|]. split; [done|]. split; [done|]. split.
    + intros Hskip. apply andb_true_iff in Hskip as [Hskip Hlt].
      apply andb_true_iff in Hskip as [Hskip Hpos].
      apply andb_true_iff in Hskip as [_ Hnot].
      apply negb_true_iff in Hnot. done.
    + intros ->. by apply Hdone.
  - apply Forall_cons; split; [|by apply Forall_nil].
    cbn [completed timestamp totalDuration]. split; [done|]. by exists cp.
Qed.

(** A step hands over at most one record, a kept play that started with the
    playback in progress, and none while [ipc] is not set. *)
Lemma step_invoked (tr : Tracker.t) (e : Tracker.Event) :
  finitePlayback tr = true -> finiteRun [e] tr = true ->
  finitePlayback (Tracker.step tr e) = true
  /\ exists new,
       Tracker.invoked (Tracker.step tr e) = Tracker.invoked tr ++ new
       /\ Forall keptPlay new
       /\ (length new <= 1)%nat
       /\ (Tracker.ipc tr = false -> new = [])
       /\ Forall (fun r => exists cp, Tracker.currentPlayback tr = Some cp
                            /\ timestamp r = Tracker.startTime cp) new.
Proof.
  intros Hfin Hstep.
  assert (exists new : list PlayRecord,
            Tracker.invoked tr = Tracker.invoked tr ++ new
            /\ Forall keptPlay new /\ (length new <= 1)%nat
            /\ (Tracker.ipc tr = false -> new = [])
            /\ Forall (fun r => exists cp, Tracker.currentPlayback tr = Some cp
                                 /\ timestamp r = Tracker.startTime cp) new)
    as Hnone.
  { exists []. rewrite app_nil_r. repeat split; auto. }
  destruct e as [info started updated cached|now playing|isSkip|forId url| |];
    cbn [Tracker.step].
  - unfold Tracker.checkForSongChange.
    destruct info as [songInfo|]; [|by split].
    destruct (Tracker.currentPlayback tr) as [cp|] eqn:Ecp.
    + destruct (negb _ || negb _).
      * destruct (savePreviousPlay_invoked false tr Hfin)
          as (-> & _ & new & Hnew & Hk & Hlen & Hipc & Hr); [done|].
        split; [done|]. cbn [Tracker.invoked]. exists new.
        split; [done|]. split; [done|]. split; [done|]. split; [done|].
        eapply Forall_impl; [exact Hr|].
        intros r (_ & cp' & Heq & ? & _). rewrite Ecp in Heq. by exists cp'.
      * rewrite Ecp. destruct (negb _); cbn [Tracker.invoked]; [by split|].
        split; [done | exact Hnone].
    + rewrite Ecp. cbn [Tracker.invoked]. by split.
  - unfold Tracker.updatePlaybackProgress.
    destruct (Tracker.currentPlayback tr) as [cp|] eqn:Ecp; [|by split].
    cbn [finiteRun] in Hstep. rewrite Ecp, andb_true_r in Hstep.
    cbn [Tracker.cp_totalDuration Tracker.accumulatedTime].
    destruct (Number.ge _ _) eqn:E95.
    + match goal with
      | |- context [Tracker.savePreviousPlay true ?t0] =>
          destruct (savePreviousPlay_invoked true t0)
            as (Hcleared & _ & new & Hnew & Hk & Hlen & Hipc & Hr)
      end.
      { exact Hstep. }
      { intros _ cp' [= <-]. exact E95. }
      split; [unfold finitePlayback; by rewrite Hcleared|].
      cbn [Tracker.invoked Tracker.ipc Tracker.currentPlayback] in *.
      exists new. repeat split; auto.
      eapply Forall_impl; [exact Hr|].
      intros r (_ & cp' & [= <-] & Ht & _). by exists cp.
    + split; [exact Hstep|]. cbn [Tracker.invoked]. exact Hnone.
  - unfold Tracker.skipClick. destruct isSkip; by split.
  - unfold Tracker.setArtistImage.
    destruct (Tracker.currentPlayback tr) as [cp|] eqn:Ecp; [|by split].
    destruct (String.eqb _ _); [|by split].
    split; [|exact Hnone]. unfold finitePlayback in *.
    by rewrite Ecp in Hfin.
  - by split.
  - by split.
Qed.

(** The records handed over during a run. *)
Lemma run_invoked (events : list Tracker.Event) (tr : Tracker.t) :
  finitePlayback tr = true -> finiteRun events tr = true ->
  exists new,
    Tracker.invoked (Tracker.run events tr) = Tracker.invoked tr ++ new
    /\ Forall keptPlay new
    /\ (length new <= length events)%nat.
Proof.
  unfold Tracker.run. revert tr.
  induction events as [|e events IH]; intros tr Hfin Hrun.
  - exists []. rewrite app_nil_r. repeat split; auto.
  - assert (finiteRun [e] tr = true /\ finiteRun events (Tracker.step tr e) = true)
      as [Hstep Hrest].
    { cbn [finiteRun] in *. apply andb_true_iff in Hrun as [-> ->].
      by rewrite andb_true_r. }
    destruct (step_invoked tr e Hfin Hstep)
      as (Hfin' & new1 & Hnew1 & Hk1 & Hlen1 & _).
    destruct (IH (Tracker.step tr e) Hfin' Hrest) as (new2 & Hnew2 & Hk2 & Hlen2).
    exists (new1 ++ new2). cbn [foldl]. rewrite Hnew2, Hnew1, <- app_assoc.
    split; [done|]. split; [by apply Forall_app|].
    rewrite length_app. simpl. lia.
Qed.

(** X19.  Whatever the observer, the timers and the user do, in whatever
    order, and as long as the accumulated seconds stay finite, every record
    that the tracker hands to the backend is a kept play: it has no id yet;
    it holds the whole seconds of an accumulated time that was not below
    30, so at least 30; it is marked skipped only if it was not completed,
    its duration is positive and the accumulated time was below the
    duration times 0.65; and it is marked completed only if the accumulated
    time had reached the duration times 0.95, all in doubles.  So every such
    record is a qualified play of [computeStats]; and no more records are
    handed over than there were events. *)
Theorem tracker_hands_over_kept_plays (events : list Tracker.Event)
  (tr : Tracker.t) :
  finitePlayback tr = true -> finiteRun events tr = true ->
  exists new,
    Tracker.invoked (Tracker.run events tr) = Tracker.invoked tr ++ new
    /\ Forall keptPlay new
    /\ Forall (fun r => StatsBackend.isQualifiedPlay r = true) new
    /\ (length new <= length events)%nat.
Proof.
  intros Hfin Hrun.
  destruct (run_invoked events tr Hfin Hrun) as (new & Hnew & Hk & Hlen).
  exists new. split; [done|]. split; [done|]. split; [|done].
  eapply Forall_impl; [exact Hk|]. apply keptPlay_qualified.
Qed.

Lemma tracker_hands_over_kept_plays_witness :
  Forall keptPlay (Tracker.invoked (Tracker.run Samples.session Tracker.loaded)).
Proof.
  destruct (tracker_hands_over_kept_plays Samples.session Tracker.loaded
              eq_refl eq_refl) as (new & Hnew & Hk & _).
  rewrite Hnew. exact Hk.
Defined.

Lemma addRecord_log (r : PlayRecord) (d : StatsDatabase.t) :
  exists d',
    StatsBackend.addRecord r (Some d) = Some d'
    /\ playRecords (StatsDatabase.data d')
       = playRecords (StatsDatabase.data (StatsDatabase.addPlayRecord r d)).
Proof.
  unfold StatsBackend.addRecord, StatsBackend.updateStreak.
  destruct (StatsDatabase.getStreak _) as [s|]; [|by eexists].
  destruct (_ =? 1); [by eexists|]. destruct (1 <? _); by eexists.
Qed.

Lemma addRecords_durations (events : list PlayRecord) (d : StatsDatabase.t) :
  exists d',
    addRecords events (Some d) = Some d'
    /\ durationListened <$> playRecords (StatsDatabase.data d')
       = (durationListened <$> playRecords (StatsDatabase.data d))
         ++ (durationListened <$> events).
Proof.
  unfold addRecords. revert d.
  induction events as [|r events IH]; intros d; cbn [foldl].
  - exists d. csimpl. by rewrite app_nil_r.
  - destruct (addRecord_log r d) as (d1 & -> & Hlog).
    destruct (IH d1) as (d' & -> & Hd').
    exists d'. split; [done|]. rewrite Hd', Hlog.
    destruct (addPlayRecord_records r d) as (stored & -> & _ & Hsame).
    rewrite fmap_app, <- app_assoc. csimpl.
    destruct Hsame as (_ & _ & _ & _ & _ & _ & _ & _ & -> & _). done.
Qed.

(** X20.  The tracker and the backend together.  When the store is fed by
    the tracker alone, through the [add-play-record] handler, and the
    accumulated seconds stay finite, every stored record counts as a play:
    [totalSongs] of [computeStats] is the number of records handed over, and
    the 30-second threshold of the statistics never sets a stored record
    aside. *)
Theorem tracker_records_all_count (getHours : Z -> nat)
  (isoMonth : Z -> string) (getFullYear : Z -> Z)
  (localeCompare : string -> string -> Z) (now : Z)
  (events : list Tracker.Event) :
  finiteRun events Tracker.loaded = true ->
  let records := Tracker.invoked (Tracker.run events Tracker.loaded) in
  exists d stats,
    addRecords records (Some StatsDatabase.create) = Some d
    /\ StatsBackend.computeStats getHours isoMonth getFullYear localeCompare
                                 now (Some d) = Returned stats
    /\ length (playRecords (StatsDatabase.data d)) = length records
    /\ totalSongs stats = Z.of_nat (length records)
    /\ Forall (fun r => StatsBackend.isQualifiedPlay r = true)
              (playRecords (StatsDatabase.data d)).
Proof.
  intros Hrun records. subst records.
  destruct (run_invoked events Tracker.loaded eq_refl Hrun)
    as (new & Hnew & Hk & _).
  cbn [Tracker.invoked Tracker.loaded app] in Hnew. rewrite Hnew.
  destruct (addRecords_durations new StatsDatabase.create)
    as (d & Hd & Hdur).
  cbn [StatsDatabase.create StatsDatabase.data emptySchema playRecords]
    in Hdur. csimpl in Hdur.
  assert (Forall (fun r => StatsBackend.isQualifiedPlay r = true)
                 (playRecords (StatsDatabase.data d))) as Hall.
  { assert (Forall (fun n => 30 <= n)
                   (durationListened <$> playRecords (StatsDatabase.data d)))
      as Hn.
    { rewrite Hdur. apply Forall_fmap.
      eapply Forall_impl; [exact Hk|]. intros r Hr.
      apply keptPlay_qualified in Hr.
      by apply Z.leb_le in Hr. }
    rewrite Forall_fmap in Hn. eapply Forall_impl; [exact Hn|].
    intros r H30. unfold StatsBackend.isQualifiedPlay. by apply Z.leb_le. }
  assert (length (playRecords (StatsDatabase.data d)) = length new) as Hlen.
  { rewrite <- (length_fmap durationListened), Hdur. apply length_fmap. }
  eexists d, _. split; [done|]. split; [reflexivity|].
  split; [done|]. split; [|done].
  cbn [totalSongs].
  pose proof (getPlayRecords_all d) as Hperm.
  rewrite filter_all.
  - by rewrite Hperm, Hlen.
  - rewrite Hperm. eapply Forall_impl; [exact Hall|].
    intros r Hr. by rewrite Hr.
Qed.

Lemma tracker_records_all_count_witness :
  exists d stats,
    addRecords (Tracker.invoked (Tracker.run Samples.session Tracker.loaded))
               (Some StatsDatabase.create) = Some d
    /\ StatsBackend.computeStats Samples.utcHours Samples.utcMonth
         Samples.utcYear Samples.compareStrings Samples.now (Some d)
       = Returned stats
    /\ totalSongs stats = 1.
Proof.
  destruct (tracker_records_all_count Samples.utcHours Samples.utcMonth
              Samples.utcYear Samples.compareStrings Samples.now
              Samples.session eq_refl)
    as (d & stats & Hd & Hstats & _ & Hsongs & _).
  exists d, stats. split; [exact Hd|]. split; [exact Hstats|].
  rewrite Hsongs. reflexivity.
Defined.

(** The session of the sample hands over one record: forty seconds of the
    first song, marked as skipped. *)
Example tracker_session :
  (fun r => (songId r, timestamp r, durationListened r, skipped r,
             completed r))
    <$> Tracker.invoked (Tracker.run Samples.session Tracker.loaded)
  = [("a"%string, 1000, 40, true, false)].
Proof. vm_compute. reflexivity. Qed.

(** Twenty-five updates of 1.2 seconds add up to less than 30 in doubles:
    the play is dropped.  A song of 48 seconds left after 31.2 seconds is
    marked as skipped, 48 times 0.65 being 31.200000000000003.  A live
    stream is handed over with the duration [Infinity], and not as
    completed. *)
Example tracker_doubles :
  Tracker.invoked (Tracker.run Samples.ticks Tracker.loaded) = []
  /\ (fun r => (songId r, durationListened r, skipped r))
       <$> Tracker.invoked (Tracker.run Samples.skipped48 Tracker.loaded)
     = [("a"%string, 31, true)]
  /\ (fun r => (songId r, durationListened r, totalDuration r, completed r))
       <$> Tracker.invoked (Tracker.run Samples.live Tracker.loaded)
     = [("radio"%string, 60, Infinity, false)].
Proof. vm_compute. repeat split; reflexivity. Qed.

(** ** ensureAccessToken: failures and reuse *)

Section AccessTokenFacts.
Import StatsBackend.

(** X22.  A call of [ensureAccessToken] that throws leaves the tokens as
    they were: nothing is stored, the session token and the document are
    untouched, and at most the one refresh request was sent.  It throws
    either the missing-refresh-token error, before any request, or after the
    request: the rejection of the request, the refusal of the provider with
    at most 300 characters of its answer, an unreadable answer, or an answer
    without access token.  A refusal with an empty or unreadable body reads
    ['Failed to refresh Google token.'] without trailing space. *)
Theorem ensureAccessToken_failure (now : Z) (config : StatsConfig)
  (net : Request -> Outcome Response) (st : t) (msg : string) (st' : t) :
  ensureAccessToken now config net st = (Thrown msg, st') ->
  store st' = store st
  /\ sessionAccessToken st' = sessionAccessToken st
  /\ sessionAccessTokenExpiry st' = sessionAccessTokenExpiry st
  /\ db st' = db st
  /\ ((journal st' = journal st /\ msg = missingRefreshToken)
      \/ (journal st' = journal st ++ [refreshRequest config st]
          /\ match net (refreshRequest config st) with
             | Thrown rejected => msg = rejected
             | Returned response =>
                 if resp_ok response then
                   match resp_json response with
                   | Thrown unreadable => msg = unreadable
                   | Returned json =>
                       truthy (access_token json) = false
                       /\ msg = "Missing access token."%string
                   end
                 else
                   msg = trim ("Failed to refresh Google token. "
                               ++ safeReadResponse response)
                   /\ (safeReadResponse response = ""%string ->
                       msg = "Failed to refresh Google token."%string)
             end)).
Proof.
  unfold ensureAccessToken.
  destruct (_ && _ && _); [done|]. destruct (_ && _); [done|].
  destruct (_ || _).
  { intros [= <- <-]. repeat split; auto. }
  unfold bind, fetch. cbn beta iota. fold (refreshRequest config st).
  destruct (net (refreshRequest config st)) as [response|rejected].
  2:{ intros [= <- <-]. repeat split; auto. }
  destruct (resp_ok response); cbn [negb].
  2:{ unfold throw. intros [= <- <-]. repeat split; auto. right.
      split; [done|]. split; [done|]. by intros ->. }
  unfold await. destruct (resp_json response) as [json|unreadable].
  2:{ intros [= <- <-]. repeat split; auto. }
  destruct (truthy (access_token json)); cbn [negb]; [done|].
  unfold throw. intros [= <- <-]. repeat split; auto.
Qed.

(** X23.  The token of a refresh is reused.  After a call that refreshed
    the token, later calls are answered from the session, without a request
    and without a change of state, until 60 seconds before the recorded
    expiry; this holds for a caller that still passes the configuration of
    before the refresh as well as for one that passes the stored one. *)
Theorem ensureAccessToken_reuses_refreshed_token (now now' : Z)
  (config : StatsConfig) (net net' : Request -> Outcome Response) (st : t)
  (token : string) (st1 : t) :
  persistedFresh now config = false ->
  sessionFresh now st = false ->
  ensureAccessToken now config net st = (Returned token, st1) ->
  now <= now' ->
  now' + 60000 < sessionAccessTokenExpiry st1 ->
  journal st1 = journal st ++ [refreshRequest config st]
  /\ ensureAccessToken now' config net' st1 = (Returned token, st1)
  /\ ensureAccessToken now' (store st1) net' st1 = (Returned token, st1).
Proof.
  intros Hp Hs Hrun Hle Hfresh.
  assert (truthy (Some token) = true
          /\ sessionAccessToken st1 = Some token
          /\ cloudSyncAccessToken (store st1) = Some token
          /\ cloudSyncAccessTokenExpiry (store st1)
             = Some (sessionAccessTokenExpiry st1)
          /\ journal st1 = journal st ++ [refreshRequest config st])
    as (Htruthy & Hsession & Hstored & Hexpiry & Hjournal).
  { revert Hrun. unfold persistedFresh, sessionFresh in Hp, Hs.
    unfold ensureAccessToken. rewrite Hp, Hs.
    destruct (_ || _); [done|].
    unfold bind, fetch. cbn beta iota. fold (refreshRequest config st).
    destruct (net (refreshRequest config st)) as [response|rejected]; [|done].
    destruct (resp_ok response); cbn [negb]; [|done].
    unfold await. destruct (resp_json response) as [json|]; [|done].
    destruct (truthy (access_token json)) eqn:Et; cbn [negb]; [|done].
    unfold setSession, setConfig, ret. intros [= <- <-].
    cbn [sessionAccessToken sessionAccessTokenExpiry store journal patchToken
         cloudSyncAccessToken cloudSyncAccessTokenExpiry].
    destruct (access_token json) as [tok|]; [|done]. done. }
  split; [done|].
  assert (persistedFresh now' config = false) as Hp'.
  { unfold persistedFresh in *.
    destruct (truthy (cloudSyncAccessToken config)); [|done].
    destruct (truthyZ (cloudSyncAccessTokenExpiry config)); [|done].
    simpl in *. apply Z.ltb_ge in Hp. apply Z.ltb_ge. lia. }
  assert ((now' + 60000 <? sessionAccessTokenExpiry st1) = true) as Hlt
    by (by apply Z.ltb_lt).
  split.
  - unfold persistedFresh in Hp'. unfold ensureAccessToken.
    rewrite Hp', Hsession, Htruthy, Hlt. done.
  - unfold ensureAccessToken.
    rewrite Hstored, Hexpiry, Hsession. cbn [default from_option id].
    rewrite Htruthy, Hlt. by destruct (truthyZ _).
Qed.

End AccessTokenFacts.

Lemma ensureAccessToken_failure_witness :
  StatsBackend.store
    (StatsBackend.ensureAccessToken Samples.now Samples.staleConfig
       Samples.offline
       (Samples.stateOf Samples.syncDb Samples.staleConfig)).2
  = Samples.staleConfig.
Proof.
  refine (proj1 (ensureAccessToken_failure Samples.now Samples.staleConfig
                   Samples.offline
                   (Samples.stateOf Samples.syncDb Samples.staleConfig)
                   "net::ERR_INTERNET_DISCONNECTED" _ _)).
  vm_compute. reflexivity.
Defined.

Lemma ensureAccessToken_reuses_refreshed_token_witness :
  StatsBackend.ensureAccessToken (Samples.now + 1000000) Samples.staleConfig
    Samples.offline Samples.refreshed.2
  = (Returned "fresh-token"%string, Samples.refreshed.2).
Proof.
  refine (proj1 (proj2
    (ensureAccessToken_reuses_refreshed_token Samples.now
       (Samples.now + 1000000) Samples.staleConfig (Samples.net None)
       Samples.offline (Samples.stateOf Samples.syncDb Samples.staleConfig)
       "fresh-token" Samples.refreshed.2 _ _ _ _ _)));
    vm_compute; first [reflexivity | discriminate].
Defined.

(** ** mergeExports: which records are kept *)

Lemma firstBy_sublist {A K : Type} `{EqDecision K} (key : A -> K)
  (l : list A) : firstBy key l `sublist_of` l.
Proof.
  induction l as [|x l IH]; simpl; [done|].
  apply sublist_skip. etrans; [apply sublist_filter | done].
Qed.

Lemma firstBy_keys {A K : Type} `{EqDecision K} (key : A -> K) (l : list A) :
  key <$> firstBy key l = firstSeen (key <$> l).
Proof.
  induction l as [|x l IH]; csimpl; [done|].
  f_equal. rewrite <- IH. by rewrite filter_fmap.
Qed.

Lemma firstBy_NoDup {A K : Type} `{EqDecision K} (key : A -> K) (l : list A) :
  NoDup (key <$> l) -> firstBy key l = l.
Proof.
  induction l as [|x l IH]; csimpl; [done|].
  intros [Hx Hl]%NoDup_cons. f_equal. rewrite IH by done.
  apply filter_all. apply Forall_forall. intros y Hy Heq.
  apply Hx. rewrite <- Heq. apply list_elem_of_fmap. by exists y.
Qed.

Lemma firstBy_app {A K : Type} `{EqDecision K} (key : A -> K)
  (l1 l2 : list A) :
  firstBy key (l1 ++ l2)
  = firstBy key l1
    ++ filter (fun y => key y ∉ key <$> l1) (firstBy key l2).
Proof.
  induction l1 as [|x l1 IH]; csimpl.
  - symmetry. apply filter_all. apply Forall_forall.
    intros y _. apply not_elem_of_nil.
  - f_equal. rewrite IH, filter_app. f_equal.
    rewrite list_filter_filter. apply list_filter_iff.
    intros y. rewrite not_elem_of_cons. tauto.
Qed.

Lemma Map_set_fresh {K V : Type} `{EqDecision K} (k : K) (v : V)
  (m : list (K * V)) : Map_get k m = None -> Map_set k v m = m ++ [(k, v)].
Proof.
  induction m as [|[k' v'] m IH]; simpl; [done|].
  destruct (decide (k' = k)); [done|]. intros Hget. by rewrite IH.
Qed.

(** The record map keeps, for every key, the first record met. *)
Lemma recordStep_firstBy (l : list PlayRecord)
  (m : list (string * PlayRecord)) :
  (foldl StatsBackend.recordStep m l).*2
  = m.*2 ++ filter (fun r => StatsBackend.recordKey r ∉ m.*1)
                   (firstBy StatsBackend.recordKey l).
Proof.
  revert m. induction l as [|r l IH]; intros m; cbn [foldl firstBy].
  - by rewrite filter_nil, app_nil_r.
  - rewrite IH. unfold StatsBackend.recordStep. unfold Map_has.
    rewrite filter_cons.
    destruct (Map_get (StatsBackend.recordKey r) m) as [v|] eqn:E;
      cbn [negb].
    + apply Map_get_Some_elem in E.
      assert (StatsBackend.recordKey r ∈ m.*1) as Hin.
      { apply list_elem_of_fmap. by exists (StatsBackend.recordKey r, v). }
      rewrite decide_False by (intros Hn; by apply Hn).
      f_equal. rewrite list_filter_filter. apply list_filter_iff.
      intros r'. split; [|tauto]. intros Hk. split; [done|].
      intros Heq. apply Hk. by rewrite Heq.
    + rewrite (Map_set_fresh _ _ _ E).
      apply Map_get_None in E. rewrite decide_True by done.
      rewrite !fmap_app, <- app_assoc. csimpl. do 2 f_equal.
      rewrite list_filter_filter. apply list_filter_iff.
      intros r'. rewrite elem_of_app, list_elem_of_singleton. tauto.
Qed.

(** X24.  The records of a merge.  [mergeExports] keeps, of the local
    records followed by the remote ones, every record whose key was not met
    before, in that order: of two records with the same key the earlier one
    wins, and a local record wins over a remote one.  When no two local
    records share a key, the local records are kept as they are and the
    remote records with a new key follow them; in particular a document
    merged with itself gives its own records. *)
Theorem mergeExports_first_occurrence (now : Z)
  (local remote : StatsBackend.Export) :
  mergedRecords now local remote
  = firstBy StatsBackend.recordKey (bothSides local remote)
  /\ mergedRecords now local remote `sublist_of` bothSides local remote
  /\ StatsBackend.recordKey <$> mergedRecords now local remote
     = firstSeen (StatsBackend.recordKey <$> bothSides local remote)
  /\ (NoDup (StatsBackend.recordKey <$> recordsOf local) ->
      mergedRecords now local remote
      = recordsOf local
        ++ filter (fun r => StatsBackend.recordKey r
                            ∉ StatsBackend.recordKey <$> recordsOf local)
                  (firstBy StatsBackend.recordKey (recordsOf remote))
      /\ mergedRecords now local local = recordsOf local).
Proof.
  assert (forall a b, mergedRecords now a b
                      = firstBy StatsBackend.recordKey (bothSides a b))
    as Hmerged.
  { intros a b. unfold mergedRecords, StatsBackend.mergeExports.
    cbn [eb_data playRecords]. fold (bothSides a b).
    change (snd <$> ?m) with (m.*2).
    rewrite recordStep_firstBy. csimpl.
    apply filter_all. apply Forall_forall. intros r _. apply not_elem_of_nil. }
  rewrite Hmerged.
  split; [done|]. split; [apply firstBy_sublist|].
  split; [apply firstBy_keys|].
  intros Hnd. rewrite Hmerged. unfold bothSides. fold (recordsOf local).
  fold (recordsOf remote). rewrite !firstBy_app, (firstBy_NoDup _ _ Hnd).
  split; [done|].
  rewrite <- (app_nil_r (recordsOf local)) at 3. f_equal.
  destruct (filter _ (recordsOf local)) as [|y rest] eqn:E; [done|].
  assert (y ∈ y :: rest) as Hy by (by left).
  rewrite <- E in Hy. apply list_elem_of_filter in Hy as [Hnot Hy].
  exfalso. apply Hnot. apply list_elem_of_fmap. by exists y.
Qed.

Lemma mergeExports_first_occurrence_witness :
  mergedRecords Samples.now
    (Samples.exportOf 1 [Samples.play "s" "a" 1000 40])
    (Samples.exportOf 2 [Samples.play "s" "a" 1000 40;
                         Samples.play "t" "a" 2000 50])
  = [Samples.play "s" "a" 1000 40; Samples.play "t" "a" 2000 50].
Proof.
  refine (eq_trans
    (proj1 (proj2 (proj2 (proj2
       (mergeExports_first_occurrence Samples.now
          (Samples.exportOf 1 [Samples.play "s" "a" 1000 40])
          (Samples.exportOf 2 [Samples.play "s" "a" 1000 40;
                               Samples.play "t" "a" 2000 50])))) _)) _).
  - vm_compute. repeat constructor; set_solver.
  - vm_compute. reflexivity.
Defined.

(** X25.  The streak of a merge.  [mergeExports] takes the streak of one of
    the two sides as it is: that of the side whose last listening date is
    the later one, the remote one when the dates are equal, and the only one
    when a side has none.  So the date of the merged streak is the later of
    the two dates, and a merge never puts the local streak date back. *)
Theorem mergeExports_streak (now : Z) (local remote : StatsBackend.Export) :
  let merged := streak (eb_data (StatsBackend.mergeExports now local remote)) in
  let a := p_streak (StatsBackend.data local) in
  let b := p_streak (StatsBackend.data remote) in
  (merged = a \/ merged = b)
  /\ (merged = None <-> a = None /\ b = None)
  /\ (forall sa, a = Some sa ->
      exists s, merged = Some s /\ lastListenDate sa <= lastListenDate s)
  /\ (forall sa sb, a = Some sa -> b = Some sb ->
      exists s, merged = Some s
        /\ lastListenDate s = Z.max (lastListenDate sa) (lastListenDate sb)
        /\ (lastListenDate sa <= lastListenDate sb -> s = sb)
        /\ (lastListenDate sb < lastListenDate sa -> s = sa)).
Proof.
  intros merged a b. subst merged.
  unfold StatsBackend.mergeExports. cbn [eb_data streak]. fold a b.
  unfold StatsBackend.mergeStreak, dateTime, msPerDay.
  destruct a as [sa|], b as [sb|]; cbn [lastListenDate].
  - destruct (_ <? _) eqn:E.
    + apply Z.ltb_lt in E.
      split; [by left|]. split; [split; [done | by intros []]|].
      split.
      * intros ? [= <-]. exists sa. split; [done|lia].
      * intros ? ? [= <-] [= <-]. exists sa.
        split; [done|]. split; [lia|]. split; [lia|done].
    + apply Z.ltb_ge in E.
      split; [by right|]. split; [split; [done | by intros []]|].
      split.
      * intros ? [= <-]. exists sb. split; [done|lia].
      * intros ? ? [= <-] [= <-]. exists sb.
        split; [done|]. split; [lia|]. split; [done|lia].
  - split; [by left|]. split; [split; [done | by intros []]|].
    split; [|done]. intros ? [= <-]. exists sa. split; [done|lia].
  - split; [by right|]. split; [split; [done | by intros []]|]. done.
  - split; [by left|]. done.
Qed.

(** ** The timers of the backend *)

Lemma filter_comm {A : Type} (P Q : A -> Prop) `{!forall x, Decision (P x)}
  `{!forall x, Decision (Q x)} (l : list A) :
  filter P (filter Q l) = filter Q (filter P l).
Proof.
  rewrite !list_filter_filter. apply list_filter_iff. intros x. tauto.
Qed.

Lemma NoDup_fst_eq {K V : Type} `{EqDecision K} (k : K) (a b : V)
  (l : list (K * V)) :
  NoDup l.*1 -> (k, a) ∈ l -> (k, b) ∈ l -> a = b.
Proof.
  intros Hnd Ha Hb. apply (Map_elem_get _ _ _ Hnd) in Ha, Hb. congruence.
Qed.

Lemma startSyncTimer_inOrder (st : Lifecycle.t) :
  timersInOrder st -> timersInOrder (Lifecycle.startSyncTimer st)
                      /\ is_Some (Lifecycle.syncTimer
                                    (Lifecycle.startSyncTimer st)).
Proof.
  intros (Hnd & Hlt & Hsync & handle & Hagg & Haggs).
  unfold Lifecycle.startSyncTimer.
  destruct (Lifecycle.syncTimer st) as [h|] eqn:E.
  { split; [|by rewrite E]. unfold timersInOrder. rewrite E. eauto 10. }
  cbn [Lifecycle.setInterval]. split; [|by eexists].
  unfold timersInOrder, syncJobs, aggregationJobs in *.
  cbn [Lifecycle.intervals Lifecycle.nextHandle Lifecycle.syncTimer
       Lifecycle.aggregationTimer].
  rewrite !filter_app, fmap_app, Hsync, Haggs.
  rewrite Forall_forall in Hlt.
  split.
  { apply NoDup_app. split; [done|]. split; [|apply NoDup_singleton].
    intros h Hh [->|[]%elem_of_nil]%elem_of_cons.
    apply list_elem_of_fmap in Hh as (e & He1 & He).
    apply Hlt in He. simpl in He1. lia. }
  split.
  { apply Forall_app. split.
    - apply Forall_forall. intros e He. apply Hlt in He. lia.
    - repeat constructor. }
  split; [done|]. exists handle. split; [done|]. by rewrite app_nil_r.
Qed.

Lemma stopSyncTimer_inOrder (st : Lifecycle.t) :
  timersInOrder st -> timersInOrder (Lifecycle.stopSyncTimer st)
                      /\ Lifecycle.syncTimer (Lifecycle.stopSyncTimer st)
                         = None.
Proof.
  intros (Hnd & Hlt & Hsync & handle & Hagg & Haggs).
  unfold Lifecycle.stopSyncTimer.
  destruct (Lifecycle.syncTimer st) as [h|] eqn:E.
  2:{ split; [|done]. unfold timersInOrder. rewrite E. eauto 10. }
  split; [|done].
  unfold timersInOrder, syncJobs, aggregationJobs in *.
  cbn [Lifecycle.clearInterval Lifecycle.intervals Lifecycle.nextHandle
       Lifecycle.syncTimer Lifecycle.aggregationTimer].
  assert (h <> handle) as Hne.
  { intros ->.
    assert ((handle, Lifecycle.SyncDrive) ∈ Lifecycle.intervals st) as H1.
    { eapply (list_elem_of_filter isSyncJob). rewrite Hsync. by left. }
    assert ((handle, Lifecycle.AggregateDaily) ∈ Lifecycle.intervals st)
      as H2.
    { eapply (list_elem_of_filter isAggregationJob). rewrite Haggs. by left. }
    by pose proof (NoDup_fst_eq _ _ _ _ Hnd H1 H2). }
  split.
  { eapply sublist_NoDup; [exact Hnd|]. apply fmap_sublist, sublist_filter. }
  split.
  { apply Forall_forall. intros e [_ He]%list_elem_of_filter.
    rewrite Forall_forall in Hlt. by apply Hlt. }
  split.
  { rewrite (filter_comm _ _ (Lifecycle.intervals st)), Hsync.
    rewrite filter_cons, decide_False; [done|]. intros Hn. by apply Hn. }
  exists handle. split; [done|].
  rewrite (filter_comm _ _ (Lifecycle.intervals st)), Haggs.
  rewrite filter_cons, decide_True; [done|]. simpl. congruence.
Qed.

(** X26.  The sync timer of a running instance.  After [initialize] and any
    number of configuration changes and disconnects, the loop holds at most
    one sync interval, the one whose handle the instance keeps, and exactly
    one aggregation interval; the sync timer runs exactly when the last
    change asked for it (the initial configuration when there was none), and
    never after a disconnect. *)
Theorem sync_timer_is_single (cloudSyncEnabled : bool)
  (events : list Lifecycle.Event) :
  let st := foldl Lifecycle.step
                  (Lifecycle.initialize cloudSyncEnabled Lifecycle.idle)
                  events in
  timersInOrder st
  /\ (length (syncJobs st) <= 1)%nat
  /\ length (aggregationJobs st) = 1%nat
  /\ (is_Some (Lifecycle.syncTimer st)
      <-> default cloudSyncEnabled (last (wantsSync <$> events)) = true).
Proof.
  intros st.
  assert (timersInOrder st
          /\ (is_Some (Lifecycle.syncTimer st)
              <-> default cloudSyncEnabled (last (wantsSync <$> events))
                  = true)) as [Hin Hlast].
  { subst st. induction events as [|e events IH] using rev_ind.
    - simpl. unfold Lifecycle.initialize.
      assert (timersInOrder
                (Lifecycle.startAggregationTimer Lifecycle.idle)) as H0.
      { unfold timersInOrder. cbn. split; [apply NoDup_singleton|].
        split; [repeat constructor|]. split; [done|]. by eexists. }
      destruct cloudSyncEnabled.
      + destruct (startSyncTimer_inOrder _ H0) as [? ?]. split; [done|].
        by split.
      + split; [done|]. cbn. split; [by intros [? ?] | done].
    - rewrite foldl_app, fmap_app.
      change (wantsSync <$> [e]) with [wantsSync e].
      rewrite last_snoc. cbn [foldl default from_option id].
      destruct IH as [IH _].
      destruct e as [[|]|];
        cbn [Lifecycle.step Lifecycle.onConfigChange wantsSync].
      + destruct (startSyncTimer_inOrder _ IH) as [? ?]. split; [done|].
        by split.
      + destruct (stopSyncTimer_inOrder _ IH) as [? ->]. split; [done|].
        split; [by intros [? ?] | done].
      + destruct (stopSyncTimer_inOrder _ IH) as [? ->]. split; [done|].
        split; [by intros [? ?] | done]. }
  split; [done|]. destruct Hin as (_ & _ & Hsync & handle & _ & Haggs).
  rewrite Hsync, Haggs.
  split; [destruct (Lifecycle.syncTimer st); simpl; lia|]. by split.
Qed.

Lemma restart_intervals (cloudSyncEnabled : bool) (st : Lifecycle.t) :
  Forall (fun e => (e.1 < Lifecycle.nextHandle st)%nat)
         (Lifecycle.intervals st) ->
  Lifecycle.intervals (restart cloudSyncEnabled st)
  = Lifecycle.intervals st
    ++ (if cloudSyncEnabled
        then [(S (Lifecycle.nextHandle st), Lifecycle.SyncDrive)] else [])
  /\ Lifecycle.nextHandle (restart cloudSyncEnabled st)
     = (if cloudSyncEnabled then S (S (Lifecycle.nextHandle st))
        else S (Lifecycle.nextHandle st)).
Proof.
  intros Hlt.
  assert (filter (fun e : nat * Lifecycle.Job => e.1 <> Lifecycle.nextHandle st)
                 (Lifecycle.intervals st)
          = Lifecycle.intervals st) as Hold.
  { apply filter_all. eapply Forall_impl; [exact Hlt|].
    intros e He. simpl in *. lia. }
  unfold restart, Lifecycle.pluginStop, Lifecycle.pluginStart,
    Lifecycle.initialize.
  destruct cloudSyncEnabled;
    cbn [Lifecycle.construct Lifecycle.startAggregationTimer
         Lifecycle.startSyncTimer Lifecycle.setInterval Lifecycle.cleanup
         Lifecycle.clearInterval Lifecycle.syncTimer
         Lifecycle.aggregationTimer Lifecycle.intervals
         Lifecycle.nextHandle].
  - split; [|done]. rewrite !filter_app, Hold, !filter_cons, !filter_nil.
    rewrite decide_False by (intros Hn; by apply Hn).
    rewrite decide_True by (simpl; lia). by rewrite app_nil_r.
  - split; [|done]. rewrite !filter_app, Hold, !filter_cons, !filter_nil.
    rewrite decide_False by (intros Hn; by apply Hn). done.
Qed.

(** X27.  Stopping the plugin does not stop the sync timer.  [cleanup]
    clears the aggregation interval only, and the next start builds a new
    instance that knows of no timer: after [k] restarts with cloud sync
    enabled the loop still runs [k] sync intervals and no aggregation
    interval; with cloud sync disabled it runs none. *)
Theorem plugin_stop_leaves_sync_timer (cloudSyncEnabled : bool) (k : nat) :
  let st := Nat.iter k (restart cloudSyncEnabled) Lifecycle.idle in
  aggregationJobs st = []
  /\ Lifecycle.intervals st = syncJobs st
  /\ length (syncJobs st) = (if cloudSyncEnabled then k else 0%nat).
Proof.
  intros st.
  assert (Forall (fun e => (e.1 < Lifecycle.nextHandle st)%nat)
                 (Lifecycle.intervals st)
          /\ Forall (fun e => isSyncJob e = true) (Lifecycle.intervals st)
          /\ length (Lifecycle.intervals st)
             = (if cloudSyncEnabled then k else 0%nat)) as (Hlt & Hsync & Hlen).
  { subst st. induction k as [|k IH]; [by destruct cloudSyncEnabled|].
    rewrite Nat.iter_succ. destruct IH as (Hlt & Hsync & Hlen).
    destruct (restart_intervals cloudSyncEnabled _ Hlt) as [-> ->].
    destruct cloudSyncEnabled.
    - split; [|split].
      + apply Forall_app. split; [|repeat constructor].
        eapply Forall_impl; [exact Hlt|]. intros e He. simpl in *. lia.
      + apply Forall_app. split; [done|]. by repeat constructor.
      + rewrite length_app, Hlen. simpl. lia.
    - rewrite app_nil_r. split; [|done].
      eapply Forall_impl; [exact Hlt|]. intros e He. simpl in *. lia. }
  unfold aggregationJobs, syncJobs.
  assert (filter isSyncJob (Lifecycle.intervals st) = Lifecycle.intervals st)
    as ->.
  { apply filter_all. eapply Forall_impl; [exact Hsync|].
    intros e He. by rewrite He. }
  split; [|done].
  destruct (filter isAggregationJob (Lifecycle.intervals st)) as [|e rest] eqn:E;
    [done|].
  assert (e ∈ e :: rest) as He by (by left).
  rewrite <- E in He. apply list_elem_of_filter in He as [Hagg He].
  rewrite Forall_forall in Hsync. apply Hsync in He.
  unfold isSyncJob, isAggregationJob in *. by destruct e.2.
Qed.

(** ** Disconnecting from Drive *)

Section Disconnect.
Import StatsBackend.
Variable JSON_stringify : ExportBundle -> string.
Variable JSON_parse : string -> ParseResult.
Variable sha256 : string -> string.

(** X28.  After the [drive-disconnect] handler the status reads disabled
    and not connected, without sync time and without error; the file id,
    the hash and the stored tokens are blanked; and a call of the
    [drive-sync] handler is refused without a request and without a change,
    whatever the network would answer.  The local document, the client id
    and the secret stay. *)
Theorem driveDisconnect_then_sync (now : Z) (written : bool)
  (net : Request -> Outcome Response) (st : t) :
  let st1 := (DriveHandlers.driveDisconnect st).2 in
  (DriveHandlers.driveDisconnect st).1
  = Returned (resultOk "Google Drive disconnected.")
  /\ DriveHandlers.getDriveStatus (store st1)
     = {| DriveHandlers.ds_enabled := false;
          DriveHandlers.ds_connected := false;
          DriveHandlers.ds_lastSyncTime := None;
          DriveHandlers.ds_lastError := None |}
  /\ truthy (cloudSyncFileId (store st1)) = false
  /\ truthy (cloudSyncLastHash (store st1)) = false
  /\ truthy (cloudSyncAccessToken (store st1)) = false
  /\ (exists msg,
       driveSync JSON_stringify JSON_parse sha256 now written net st1
       = (Returned (resultFailed msg), st1))
  /\ db st1 = db st /\ journal st1 = journal st
  /\ cloudSyncClientId (store st1) = cloudSyncClientId (store st)
  /\ cloudSyncClientSecret (store st1) = cloudSyncClientSecret (store st).
Proof.
  intros st1. subst st1.
  unfold DriveHandlers.driveDisconnect, bind, setConfig, ret.
  cbn [fst snd store db journal DriveHandlers.patchDisconnected
       DriveHandlers.getDriveStatus cloudSyncEnabled cloudSyncRefreshToken
       cloudSyncLastSyncTime cloudSyncLastError cloudSyncFileId
       cloudSyncLastHash cloudSyncAccessToken cloudSyncClientId
       cloudSyncClientSecret].
  repeat split; try done.
  unfold driveSync, syncDriveNow.
  cbn [store isSyncing db DriveHandlers.patchDisconnected cloudSyncEnabled].
  destruct (isSyncing st); [by eexists|].
  destruct (db st); by eexists.
Qed.

(** X29.  Disconnecting does not end the session.  The handler blanks the
    stored tokens but leaves the tokens of the session alone: once cloud
    sync is switched on again, a backend that holds a session refresh token
    and a client id still asks the provider for a new access token, with
    that refresh token, without a new authorization. *)
Theorem driveDisconnect_keeps_session (now : Z)
  (net : Request -> Outcome Response) (st : t) :
  truthy (cloudSyncClientId (store st)) = true ->
  truthy (sessionRefreshToken st) = true ->
  sessionFresh now st = false ->
  let st1 := (DriveHandlers.driveDisconnect st).2 in
  let config := withSyncEnabled (store st1) in
  sessionRefreshToken st1 = sessionRefreshToken st
  /\ sessionAccessToken st1 = sessionAccessToken st
  /\ journal (ensureAccessToken now config net st1).2
     = journal st
       ++ [TokenRefresh (default ""%string (cloudSyncClientId (store st)))
                        (orEmpty (cloudSyncClientSecret (store st)))
                        (default ""%string (sessionRefreshToken st))].
Proof.
  intros Hid Hrefresh Hsession st1 config.
  split; [done|]. split; [done|].
  rewrite (ensureAccessToken_refresh_journal now config net st1).
  - subst config st1. unfold refreshRequest, orElse, orEmpty.
    cbn. destruct (sessionRefreshToken st) as [tok|]; [|done].
    unfold orElse at 2. by rewrite Hrefresh.
  - done.
  - exact Hsession.
  - subst config st1. unfold canRefresh. cbn.
    by rewrite Hid, Hrefresh.
Qed.

End Disconnect.

Lemma driveDisconnect_keeps_session_witness :
  StatsBackend.journal
    (StatsBackend.ensureAccessToken Samples.now
       (withSyncEnabled
          (StatsBackend.store
             (DriveHandlers.driveDisconnect Samples.connected).2))
       Samples.offline
       (DriveHandlers.driveDisconnect Samples.connected).2).2
  = [StatsBackend.TokenRefresh "client" "" "session-refresh"].
Proof.
  refine (proj2 (proj2
    (driveDisconnect_keeps_session Samples.now Samples.offline
       Samples.connected _ _ _))); vm_compute; reflexivity.
Defined.

(** ** base64UrlEncode *)

Lemma base64Char_alphabet (sextet : Z) : base64Char sextet ∈ base64Alphabet.
Proof.
  unfold base64Char. apply list_elem_of_In.
  destruct (nth_in_or_default (Z.to_nat sextet) base64Alphabet "/"%char)
    as [Hin| ->]; [done|].
  apply list_elem_of_In. vm_compute.
  repeat first [apply list_elem_of_here | apply list_elem_of_further].
Qed.

(** The base64 text of a buffer: characters of the alphabet, then the
    padding. *)
Lemma toBase64_shape (buffer : list Z) :
  exists body pad,
    toBase64 buffer = body ++ replicate pad "="%char
    /\ Forall (fun c => c ∈ base64Alphabet) body
    /\ Z.of_nat (length body) = (4 * Z.of_nat (length buffer) + 2) / 3.
Proof.
  assert (forall n buffer, (length buffer <= n)%nat ->
    exists body pad,
      toBase64 buffer = body ++ replicate pad "="%char
      /\ Forall (fun c => c ∈ base64Alphabet) body
      /\ Z.of_nat (length body) = (4 * Z.of_nat (length buffer) + 2) / 3)
    as Hgen.
  { clear buffer. induction n as [|n IH]; intros buffer Hlen.
    - destruct buffer; [|simpl in Hlen; lia]. by exists [], 0%nat.
    - destruct buffer as [|b1 [|b2 [|b3 rest]]].
      + by exists [], 0%nat.
      + eexists [_; _], 2%nat. split; [reflexivity|].
        split; [|done].
        repeat (apply Forall_cons_2; [apply base64Char_alphabet|]).
        apply Forall_nil_2.
      + eexists [_; _; _], 1%nat. split; [reflexivity|].
        split; [|done].
        repeat (apply Forall_cons_2; [apply base64Char_alphabet|]).
        apply Forall_nil_2.
      + destruct (IH rest) as (body & pad & Hrest & Hbody & Hlen').
        { simpl in Hlen. lia. }
        eexists (_ :: _ :: _ :: _ :: body), pad.
        cbn [toBase64]. rewrite Hrest. split; [reflexivity|].
        split.
        * repeat (apply Forall_cons_2; [apply base64Char_alphabet|]). done.
        * cbn [length]. rewrite !Nat2Z.inj_succ, Hlen'.
          Z.div_mod_to_equations. lia. }
  by apply (Hgen (length buffer)).
Qed.

Lemma stripTrailing_padding (c : ascii) (body : list ascii) (pad : nat) :
  Forall (fun a => a <> c) body ->
  stripTrailing c (body ++ replicate pad c) = body.
Proof.
  intros Hbody.
  assert (stripTrailing c (replicate pad c) = []) as Hpad.
  { induction pad as [|pad IH]; simpl; [done|].
    by rewrite IH, Ascii.eqb_refl. }
  induction Hbody as [|a body Ha Hbody IH]; [done|].
  cbn [app stripTrailing]. rewrite IH.
  destruct body; [|done].
  destruct (Ascii.eqb_spec a c); done.
Qed.

(** X30.  [base64UrlEncode] returns only characters that a URL takes as
    they are (letters, digits, [-] and [_]: no [+], [/] or [=] is left), and
    as many of them as the unpadded base64 text has, that is the rounded-up
    four thirds of the number of bytes; the 32 random bytes of a code
    verifier give 43 characters. *)
Theorem base64UrlEncode_url_safe (buffer : list Z) :
  urlSafe (base64UrlEncode buffer)
  /\ Z.of_nat (String.length (base64UrlEncode buffer))
     = (4 * Z.of_nat (length buffer) + 2) / 3
  /\ (length buffer = 32%nat ->
      String.length (base64UrlEncode buffer) = 43%nat).
Proof.
  destruct (toBase64_shape buffer) as (body & pad & Hshape & Hbody & Hlen).
  set (swap := fun a : ascii =>
                 if Ascii.eqb (if Ascii.eqb a "+" then "-"%char else a) "/"
                 then "_"%char
                 else if Ascii.eqb a "+" then "-"%char else a).
  assert (Forall (fun c => isIdChar (swap c) = true) base64Alphabet) as Halpha.
  { vm_compute. repeat constructor. }
  assert (Forall (fun c => isIdChar c = true) (swap <$> body)) as Hsafe.
  { apply Forall_fmap. eapply Forall_impl; [exact Hbody|].
    intros c Hc. rewrite Forall_forall in Halpha. by apply Halpha. }
  assert (list_ascii_of_string (base64UrlEncode buffer) = swap <$> body)
    as Hchars.
  { unfold base64UrlEncode. rewrite list_ascii_of_string_of_list_ascii.
    unfold replaceChar. rewrite Hshape, <- list_fmap_compose, fmap_app.
    rewrite fmap_replicate.
    change ((_ ∘ _) "="%char) with "="%char.
    apply stripTrailing_padding.
    eapply Forall_impl; [exact Hsafe|]. by intros c Hc ->. }
  assert (String.length (base64UrlEncode buffer) = length body) as Hlength.
  { rewrite <- (length_fmap swap), <- Hchars.
    generalize (base64UrlEncode buffer). intros s.
    induction s as [|a s IH]; simpl; congruence. }
  split; [unfold urlSafe; by rewrite Hchars|].
  split; [by rewrite Hlength|].
  intros H32. rewrite Hlength. rewrite H32 in Hlen.
  change ((4 * Z.of_nat 32 + 2) / 3) with 43 in Hlen. lia.
Qed.

(** Two bytes whose base64 text is [+/8=]. *)
Example base64UrlEncode_sample : base64UrlEncode [251; 255] = "-_8"%string.
Proof. reflexivity. Qed.
